(** * Registry record generation: a shallow embedding

    The development follows the registry package module by module:
    [common], [model] (the element classes), [tableset], [capabilities],
    [builders] and [publication].  Python objects become records, raising
    code returns a [Result], code that logs, fills the dependency cache or
    yields rows runs in the state-and-error monad [M] over a [World]. *)

From Stdlib Require Import String Ascii.
From stdpp Require Import base strings list gmap pretty sorting.

Open Scope string_scope.
Open Scope list_scope.

#[local] Set Warnings "-register-all".
#[local] Set Warnings "-automation".


(** ** Exceptions and results *)

(** The exception classes the registry code raises, catches or lets pass.
    All of them derive from Python's [Exception]. *)
Inductive Exc :=
| NoMetaKey (key : string)
| MetaCardError (key : string)
| MetaValidationError (msg : string)
| KeyError (key : string)
| ValueError (msg : string)
| IndexError
| AttributeError (name : string)
| NotImplementedError (msg : string)
| ReportableError (msg : string)
| SkipThis (msg : string)
| TypeError (msg : string)
| OtherException (msg : string).

(** [str(exc)], as used in log messages. *)
Definition excStr (e : Exc) : string :=
  match e with
  | NoMetaKey k => "No meta item " +:+ k
  | MetaCardError k => "getContent not allowed for sequence meta items: " +:+ k
  | MetaValidationError m => m
  | KeyError k => k
  | ValueError m => m
  | IndexError => "string index out of range"
  | AttributeError n => n
  | NotImplementedError m => m
  | ReportableError m => m
  | SkipThis m => m
  | TypeError m => m
  | OtherException m => m
  end.

(** The classes deriving from [utils.Error]. *)
Definition isUtilsError (e : Exc) : bool :=
  match e with
  | NoMetaKey _ | MetaCardError _ | MetaValidationError _
  | ReportableError _ | SkipThis _ => true
  | _ => false
  end.

Inductive Result (A : Type) :=
| Ok (a : A)
| Raise (e : Exc).
Arguments Ok {A} a.
Arguments Raise {A} e.

#[global] Instance Result_ret : MRet Result := λ A a, Ok a.
#[global] Instance Result_bind : MBind Result := λ A B f r,
  match r with
  | Ok a => f a
  | Raise e => Raise e
  end.

#[global] Instance Result_fmap : FMap Result := λ A B f r, x ← r; mret (f x).

Definition isOk {A} (r : Result A) : bool :=
  match r with Ok _ => true | Raise _ => false end.

(** ** The world the code runs in *)

(** Values stored in the row dictionaries of [publication]. *)
Inductive PyVal :=
| VNone
| VStr (s : string)
| VBool (b : bool).

(** A yielded pair [(tableName, rowDict)]. *)
Definition Row : Type := string * gmap string PyVal.

(** What [base.ui.notifyError] and [base.ui.notifyWarning] receive. *)
Inductive Notice :=
| NotifyError (msg : string)
| NotifyWarning (msg : string).

(** [depCache]: the [cached dependencies] attribute set on resource
    descriptors, keyed by the descriptor's [sourceId]; [sink]: the
    notifications sent so far, oldest first; [emitted]: the rows a record
    iteration has handed to its consumer so far, oldest first.  A row is
    the table name and the record dictionary as it is at the [yield]; the
    iterators go on changing that same dictionary afterwards, which a
    consumer that stores the row at once does not see. *)
Record World := mkWorld {
  depCache : gmap string (list string);
  sink : list Notice;
  emitted : list Row
}.

Definition M (A : Type) : Type := World → Result A * World.

#[global] Instance M_ret : MRet M := λ A a w, (Ok a, w).
#[global] Instance M_bind : MBind M := λ A B f m w,
  match m w with
  | (Ok a, w') => f a w'
  | (Raise e, w') => (Raise e, w')
  end.

#[global] Instance M_fmap : FMap M := λ A B f m, x ← m; mret (f x).

Definition lift {A} (r : Result A) : M A := λ w, (r, w).
Definition raise {A} (e : Exc) : M A := λ w, (Raise e, w).

Definition notifyError (msg : string) : M unit := λ w,
  (Ok tt, mkWorld (depCache w) (sink w ++ [NotifyError msg]) (emitted w)).
Definition notifyWarning (msg : string) : M unit := λ w,
  (Ok tt, mkWorld (depCache w) (sink w ++ [NotifyWarning msg]) (emitted w)).
Definition yield (r : Row) : M unit := λ w,
  (Ok tt, mkWorld (depCache w) (sink w) (emitted w ++ [r])).
Definition getCached (rdId : string) : M (option (list string)) := λ w,
  (Ok (depCache w !! rdId), w).
Definition setCached (rdId : string) (deps : list string) : M unit := λ w,
  (Ok tt, mkWorld (<[rdId := deps]> (depCache w)) (sink w) (emitted w)).

(** [try: body except: handler] *)
Definition tryExcept {A} (body : M A) (handler : Exc → M A) : M A := λ w,
  match body w with
  | (Ok a, w') => (Ok a, w')
  | (Raise e, w') => handler e w'
  end.

(** ** Python string helpers *)

Definition lowerAscii (c : ascii) : ascii :=
  let n := nat_of_ascii c in
  if (65 <=? n)%nat && (n <=? 90)%nat then ascii_of_nat (n + 32) else c.

(** [s.lower()] on ASCII text. *)
Fixpoint lower (s : string) : string :=
  match s with
  | EmptyString => EmptyString
  | String c r => String (lowerAscii c) (lower r)
  end.

(** [s[1:]] *)
Definition dropFirst (s : string) : string :=
  match s with
  | EmptyString => EmptyString
  | String _ r => r
  end.

(** [s[-1]], which raises [IndexError] on the empty string. *)
Fixpoint lastChar (s : string) : Result string :=
  match s with
  | EmptyString => Raise IndexError
  | String c EmptyString => Ok (String c EmptyString)
  | String _ r => lastChar r
  end.

Definition isSpace (c : ascii) : bool :=
  let n := nat_of_ascii c in
  (n =? 32)%nat || ((9 <=? n)%nat && (n <=? 13)%nat).

Fixpoint lstrip (s : string) : string :=
  match s with
  | EmptyString => EmptyString
  | String c r => if isSpace c then lstrip r else s
  end.

Fixpoint revString (s acc : string) : string :=
  match s with
  | EmptyString => acc
  | String c r => revString r (String c acc)
  end.

(** [s.strip()] *)
Definition strip (s : string) : string :=
  revString (lstrip (revString (lstrip s) "")) "".

(** [s.split(sep)] for a one-character separator. *)
Fixpoint splitOn (sep : ascii) (s : string) (cur : string) : list string :=
  match s with
  | EmptyString => [revString cur ""]
  | String c r =>
      if Ascii.eqb c sep then revString cur "" :: splitOn sep r ""
      else splitOn sep r (String c cur)
  end.

Definition startswith (p s : string) : bool := String.prefix p s.

Definition strEq (a b : string) : bool := bool_decide (a = b).

Definition optStrEq (a : option string) (b : string) : bool :=
  bool_decide (a = Some b).

(** Truth value of an optional string: [None] and [""] are false. *)
Definition truthy (o : option string) : bool :=
  match o with
  | Some (String _ _) => true
  | _ => false
  end.

(** ** Document nodes *)

(** Modelled from the spec: the typed-element primitive ([utils.stanxml]) is
    not part of the registry package.  An element has a class (namespace
    prefix, name, declared attributes with their defaults), attribute values
    and an ordered child list of text and elements.  [elem(k=v)] sets
    declared attributes and fails on an undeclared one, [elem[children]]
    appends children, dropping [None] and flattening sequences.  Emptiness
    is only evaluated when a tree is serialised.  Classes with a child
    sequence reject children not named in it; every construction site below
    adds listed children only, so [addChild] is total here. *)

Inductive EmptyRule := StdEmpty | SecurityMethodEmpty | RelationshipEmpty.

Record ElemClass := mkElemClass {
  ec_prefix : string;
  ec_name : string;
  ec_declared : list (string * option string);
  ec_mayBeEmpty : bool;
  ec_childSequence : option (list string);
  ec_emptyRule : EmptyRule
}.

Inductive Element :=
| Elem (c : ElemClass) (attrs : list (string * option string))
       (children : list (string + Element)).

Definition elemClass (e : Element) : ElemClass := let 'Elem c _ _ := e in c.
Definition elemAttrs (e : Element) := let 'Elem _ a _ := e in a.
Definition elemChildren (e : Element) := let 'Elem _ _ ch := e in ch.
Definition elemName (e : Element) : string := ec_name (elemClass e).

(** What may stand between the brackets of [elem[...]]. *)
Inductive Content :=
| CNone
| CStr (s : string)
| CElem (e : Element)
| CSeq (l : list Content).

Fixpoint flatten (c : Content) : list (string + Element) :=
  match c with
  | CNone => []
  | CStr s => [inl s]
  | CElem e => [inr e]
  | CSeq l =>
      (fix go (l : list Content) : list (string + Element) :=
         match l with
         | [] => []
         | x :: r => flatten x ++ go r
         end) l
  end.

Definition flattenAll (l : list Content) : list (string + Element) :=
  flatten (CSeq l).

(** Instantiating a class: [cls()]. *)
Definition new (c : ElemClass) : Element := Elem c (ec_declared c) [].

(** [elem[c1, c2, ...]] *)
Definition addChild (e : Element) (c : Content) : Element :=
  let 'Elem cl a ch := e in Elem cl a (ch ++ flatten c).

Definition addChildren (e : Element) (l : list Content) : Element :=
  addChild e (CSeq l).

Fixpoint setAttr (k : string) (v : option string)
    (a : list (string * option string)) : option (list (string * option string)) :=
  match a with
  | [] => None
  | (k', v') :: r =>
      if strEq k k' then Some ((k', v) :: r)
      else match setAttr k v r with
           | Some r' => Some ((k', v') :: r')
           | None => None
           end
  end.

Fixpoint setAttrs (kw : list (string * option string))
    (a : list (string * option string)) : Result (list (string * option string)) :=
  match kw with
  | [] => Ok a
  | (k, v) :: r =>
      match setAttr k v a with
      | Some a' => setAttrs r a'
      | None => Raise (AttributeError ("_a_" +:+ k))
      end
  end.

(** [elem(k1=v1, ...)] *)
Definition call (e : Element) (kw : list (string * option string)) : Result Element :=
  let 'Elem cl a ch := e in
  a' ← setAttrs kw a; mret (Elem cl a' ch).

Fixpoint getAttrIn (k : string) (a : list (string * option string)) : option string :=
  match a with
  | [] => None
  | (k', v) :: r => if strEq k k' then v else getAttrIn k r
  end.

Definition getAttr (k : string) (e : Element) : option string :=
  getAttrIn k (elemAttrs e).

(** [elem._prefix = p] *)
Definition setPrefix (p : string) (e : Element) : Element :=
  let 'Elem cl a ch := e in
  Elem (mkElemClass p (ec_name cl) (ec_declared cl) (ec_mayBeEmpty cl)
          (ec_childSequence cl) (ec_emptyRule cl)) a ch.

Definition childElements (e : Element) : list Element :=
  omap (λ ch, match ch with inr x => Some x | inl _ => None end) (elemChildren e).

Definition childrenNamed (n : string) (e : Element) : list Element :=
  filter (λ x, elemName x = n) (childElements e).

(** The text an element carries directly. *)
Definition textOf (e : Element) : list string :=
  omap (λ ch, match ch with inl s => Some s | inr _ => None end) (elemChildren e).

Definition isBlank (s : string) : bool := strEq (strip s) "".

(** The emptiness predicate: no text content and no non-empty children;
    [securityMethod] and [relationship] have their own rules in [model]. *)
Fixpoint isEmpty (e : Element) : bool :=
  let 'Elem c a ch := e in
  match ec_emptyRule c with
  | SecurityMethodEmpty =>
      match getAttrIn "standardId" a with None => true | Some _ => false end
  | RelationshipEmpty =>
      forallb (λ x, match x with
                    | inl _ => true
                    | inr (Elem c' _ _) => negb (strEq (ec_name c') "relatedResource")
                    end) ch
  | StdEmpty =>
      forallb (λ x, match x with
                    | inl s => isBlank s
                    | inr e' => isEmpty e'
                    end) ch
  end.

Definition shouldBeSkipped (e : Element) : bool :=
  if ec_mayBeEmpty (elemClass e) then false else isEmpty e.

(** ** [model]: the element classes *)

Definition cls (p n : string) (a : list (string * option string)) : ElemClass :=
  mkElemClass p n a false None StdEmpty.

Definition withAttrs (c : ElemClass) (a : list (string * option string)) : ElemClass :=
  mkElemClass (ec_prefix c) (ec_name c) a (ec_mayBeEmpty c)
    (ec_childSequence c) (ec_emptyRule c).

Definition withPrefix (c : ElemClass) (p : string) : ElemClass :=
  mkElemClass p (ec_name c) (ec_declared c) (ec_mayBeEmpty c)
    (ec_childSequence c) (ec_emptyRule c).

Definition withSequence (c : ElemClass) (s : list string) : ElemClass :=
  mkElemClass (ec_prefix c) (ec_name c) (ec_declared c) (ec_mayBeEmpty c)
    (Some s) (ec_emptyRule c).

Definition withEmptyRule (c : ElemClass) (r : EmptyRule) : ElemClass :=
  mkElemClass (ec_prefix c) (ec_name c) (ec_declared c) (ec_mayBeEmpty c)
    (ec_childSequence c) r.

Definition mayBeEmptyClass (c : ElemClass) : ElemClass :=
  mkElemClass (ec_prefix c) (ec_name c) (ec_declared c) true
    (ec_childSequence c) (ec_emptyRule c).

(** A subclass overriding or adding one attribute default. *)
Definition subAttr (c : ElemClass) (k : string) (v : option string) : ElemClass :=
  match setAttr k v (ec_declared c) with
  | Some a => withAttrs c a
  | None => withAttrs c (ec_declared c ++ [(k, v)])
  end.

Module OAI.
Definition ListRecords := cls "oai" "ListRecords" [].
Definition GetRecord := cls "oai" "GetRecord" [].
Definition record := cls "oai" "record" [].
Definition header := cls "oai" "header" [("status", None)].
Definition metadata := cls "oai" "metadata" [].
Definition identifier := cls "oai" "identifier" [].
Definition datestamp := cls "oai" "datestamp" [].
Definition setSpec := cls "oai" "setSpec" [].
Definition ListSets := mayBeEmptyClass (cls "oai" "ListSets" []).
Definition set := cls "oai" "set" [].
Definition setName := cls "oai" "setName" [].
End OAI.

Module OAIDC.
Definition dc := cls "oai_dc" "dc" [].
End OAIDC.

Module DC.
Definition contributor := cls "dc" "contributor" [].
Definition creator := cls "dc" "creator" [].
Definition description := cls "dc" "description" [].
Definition identifier := cls "dc" "identifier" [].
Definition language := cls "dc" "language" [].
Definition publisher := cls "dc" "publisher" [].
Definition rights := cls "dc" "rights" [].
Definition title := cls "dc" "title" [].
End DC.

Module VOR.
Definition Resource :=
  cls "vr" "Resource" [("created", None); ("updated", None); ("status", None)].
Definition Organisation := subAttr Resource "xsi_type" (Some "vr:Organisation").
Definition validationLevel := cls "vr" "validationLevel" [("validatedBy", None)].
Definition title := cls "vr" "title" [].
Definition shortName := cls "vr" "shortName" [].
Definition ResourceName (n : string) :=
  cls "vr" n [("ivoId", None); ("altIdentifier", None)].
Definition identifier := cls "vr" "identifier" [].
Definition altIdentifier := cls "vr" "altIdentifier" [].
Definition curation := cls "vr" "curation" [].
Definition content := cls "vr" "content" [].
Definition creator := cls "vr" "creator" [].
Definition contributor := ResourceName "contributor".
Definition date := cls "vr" "date" [("role", None)].
Definition version := cls "vr" "version" [].
Definition contact := cls "vr" "contact" [].
Definition publisher := ResourceName "publisher".
Definition facility := cls "vr" "facility" [].
Definition instrument := ResourceName "instrument".
Definition name := cls "vr" "name" [].
Definition address := cls "vr" "address" [].
Definition email := cls "vr" "email" [].
Definition telephone := cls "vr" "telephone" [].
Definition logo := cls "vr" "logo" [].
Definition subject := cls "vr" "subject" [].
Definition description := cls "vr" "description" [].
Definition source := cls "vr" "source" [("format", None)].
Definition referenceURL := cls "vr" "referenceURL" [].
Definition type := cls "vr" "type" [].
Definition contentLevel := cls "vr" "contentLevel" [].
Definition relationship :=
  withEmptyRule (cls "vr" "relationship" []) RelationshipEmpty.
Definition relationshipType := cls "vr" "relationshipType" [].
Definition relatedResource := cls "vr" "relatedResource" [("ivoId", None)].
Definition rights := cls "vr" "rights" [("rightsURI", None)].
Definition capability := cls "vr" "capability" [("standardID", None)].
Definition interface :=
  cls "vr" "interface" [("version", None); ("role", None); ("qtype", None)].
Definition WebBrowser := subAttr interface "xsi_type" (Some "vr:WebBrowser").
Definition WebService := subAttr interface "xsi_type" (Some "vr:WebService").
Definition wsdlURL := cls "vr" "wsdlURL" [].
Definition accessURL := cls "vr" "accessURL" [("use", None)].
Definition mirrorURL := cls "vr" "mirrorURL" [].
Definition securityMethod :=
  withEmptyRule (cls "vr" "securityMethod" [("standardId", None)])
    SecurityMethodEmpty.
End VOR.

Module RI.
Definition Resource := withPrefix VOR.Resource "ri".
End RI.

Module VOG.
Definition Resource := subAttr RI.Resource "xsi_type" (Some "vg:Registry").
Definition Authority := subAttr RI.Resource "xsi_type" (Some "vg:Authority").
Definition capability :=
  subAttr VOR.capability "standardID" (Some "ivo://ivoa.net/std/Registry").
Definition Harvest := subAttr capability "xsi_type" (Some "vg:Harvest").
Definition OAIHTTP := subAttr VOR.interface "xsi_type" (Some "vg:OAIHTTP").
Definition full := cls "vg" "full" [].
Definition managedAuthority := cls "vg" "managedAuthority" [].
Definition maxRecords := cls "vg" "maxRecords" [].
Definition managingOrg := cls "vg" "managingOrg" [("ivoId", None)].
End VOG.

Module VS.
Definition tableset := withSequence (cls "vs" "tableset" []) ["schema"].
Definition schema :=
  withSequence (cls "vs" "schema" [])
    ["name"; "title"; "description"; "utype"; "table"].
Definition title := cls "vs" "title" [].
Definition utype := cls "vs" "utype" [].
Definition nrows := cls "vs" "nrows" [].
Definition table :=
  withSequence (cls "vs" "table" [("type", None)])
    ["name"; "title"; "description"; "utype"; "nrows"; "column"; "foreignKey"].
Definition foreignKey :=
  withSequence (cls "vs" "foreignKey" [])
    ["targetTable"; "fkColumn"; "description"; "utype"].
Definition targetTable := cls "vs" "targetTable" [].
Definition fkColumn :=
  withSequence (cls "vs" "fkColumn" []) ["fromColumn"; "targetColumn"].
Definition fromColumn := cls "vs" "fromColumn" [].
Definition targetColumn := cls "vs" "targetColumn" [].
Definition flag := cls "vs" "flag" [].
Definition regionOfRegard := cls "vs" "regionOfRegard" [].
Definition facility := cls "vs" "facility" [].
Definition instrument := cls "vs" "instrument" [].
Definition coverage := cls "vs" "coverage" [].
Definition footprint := cls "vs" "footprint" [("ivoId", None)].
Definition waveband := cls "vs" "waveband" [].
Definition spectral := cls "vs" "spectral" [].
Definition spatial := cls "vs" "spatial" [].
Definition temporal := cls "vs" "temporal" [].
Definition ParamHTTP := subAttr VOR.interface "xsi_type" (Some "vs:ParamHTTP").
Definition resultType := cls "vs" "resultType" [].
Definition queryType := cls "vs" "queryType" [].
Definition param := cls "vs" "param" [("std", Some "false")].
Definition name := cls "vs" "name" [].
Definition description := cls "vs" "description" [].
Definition unit := cls "vs" "unit" [].
Definition ucd := cls "vs" "ucd" [].
Definition DataResource :=
  subAttr VOR.Resource "xsi_type" (Some "vs:DataResource").
Definition DataService := subAttr DataResource "xsi_type" (Some "vs:DataService").
Definition CatalogResource :=
  subAttr DataResource "xsi_type" (Some "vs:CatalogResource").
Definition CatalogService :=
  subAttr CatalogResource "xsi_type" (Some "vs:CatalogService").
Definition column :=
  cls "vs" "column"
    [("minValue", None); ("maxValue", None); ("median", None);
     ("percentile03", None); ("percentile97", None); ("fillFactor", None)].
Definition dataType :=
  cls "vs" "dataType"
    [("arraysize", None); ("delim", None); ("extendedSchema", None);
     ("extendedType", None); ("xsi_type", None)].
Definition voTableDataType := subAttr dataType "xsi_type" (Some "vs:VOTableType").
End VS.

Module SIA.
Definition interface :=
  subAttr (subAttr (withPrefix VOR.interface "sia") "role" (Some "std"))
    "xsi_type" (Some "vs:ParamHTTP").
Definition capability :=
  subAttr (subAttr VOR.capability "standardID" (Some "ivo://ivoa.net/std/SIA"))
    "xsi_type" (Some "sia:SimpleImageAccess").
Definition capability2 :=
  subAttr capability "standardID" (Some "ivo://ivoa.net/std/SIA#query-2.0").
Definition imageServiceType := cls "sia" "imageServiceType" [].
Definition maxQueryRegionSize := cls "sia" "maxQueryRegionSize" [].
Definition maxImageExtent := cls "sia" "maxImageExtent" [].
Definition maxImageSize := cls "sia" "maxImageSize" [].
Definition maxFileSize := cls "sia" "maxFileSize" [].
Definition maxRecords := cls "sia" "maxRecords" [].
Definition long := cls "sia" "long" [].
Definition lat := cls "sia" "lat" [].
Definition testQuery := cls "sia" "testQuery" [].
Definition pos := cls "sia" "pos" [].
Definition size := cls "sia" "size" [].
End SIA.

Module SCS.
Definition interface :=
  subAttr (subAttr (withPrefix VOR.interface "cs") "role" (Some "std"))
    "xsi_type" (Some "vs:ParamHTTP").
Definition capability :=
  subAttr (subAttr VOR.capability "standardID"
             (Some "ivo://ivoa.net/std/ConeSearch"))
    "xsi_type" (Some "cs:ConeSearch").
Definition maxSR := cls "cs" "maxSR" [].
Definition maxRecords := cls "cs" "maxRecords" [].
Definition verbosity := cls "cs" "verbosity" [].
Definition testQuery := cls "cs" "testQuery" [].
Definition ra := cls "cs" "ra" [].
Definition dec := cls "cs" "dec" [].
Definition sr := cls "cs" "sr" [].
End SCS.

Module SSAP.
Definition capability :=
  subAttr (subAttr VOR.capability "standardID" (Some "ivo://ivoa.net/std/SSA"))
    "xsi_type" (Some "ssap:SimpleSpectralAccess").
Definition interface :=
  subAttr (subAttr (withPrefix VOR.interface "ssap") "role" (Some "std"))
    "xsi_type" (Some "vs:ParamHTTP").
Definition complianceLevel := cls "ssap" "complianceLevel" [].
Definition dataSource := cls "ssap" "dataSource" [].
Definition creationType := cls "ssap" "creationType" [].
Definition maxSearchRadius := cls "ssap" "maxSearchRadius" [].
Definition maxRecords := cls "ssap" "maxRecords" [].
Definition defaultMaxRecords := cls "ssap" "defaultMaxRecords" [].
Definition maxAperture := cls "ssap" "maxAperture" [].
Definition supportedFrame := cls "ssap" "supportedFrame" [].
Definition testQuery := cls "ssap" "testQuery" [].
Definition queryDataCmd := cls "ssap" "queryDataCmd" [].
End SSAP.

Module SLAP.
Definition capability :=
  subAttr (subAttr VOR.capability "standardID" (Some "ivo://ivoa.net/std/SLAP"))
    "xsi_type" (Some "slap:SimpleLineAccess").
Definition interface :=
  subAttr (subAttr VOR.interface "role" (Some "std"))
    "xsi_type" (Some "vs:ParamHTTP").
Definition complianceLevel := cls "slap" "complianceLevel" [].
End SLAP.

Module TR.
Definition interface :=
  subAttr (subAttr VOR.interface "role" (Some "std"))
    "xsi_type" (Some "vs:ParamHTTP").
Definition capability :=
  subAttr (subAttr VOR.capability "standardID" (Some "ivo://ivoa.net/std/TAP"))
    "xsi_type" (Some "tr:TableAccess").
Definition dataModel := cls "tr" "dataModel" [("ivoId", None)].
Definition language := cls "tr" "language" [("LANG", None)].
Definition outputFormat :=
  cls "tr" "outputFormat" [("FORMAT", None); ("mime", None); ("ivoId", None)].
Definition uploadMethod :=
  mayBeEmptyClass (cls "tr" "uploadMethod" [("protocol", None); ("ivoId", None)]).
Definition default := cls "tr" "default" [("unit", None)].
Definition hard := cls "tr" "hard" [("unit", None)].
Definition version := cls "tr" "version" [("ivoId", None)].
Definition languageFeatures := cls "tr" "languageFeatures" [("type", None)].
Definition alias := cls "tr" "alias" [].
Definition description := cls "tr" "description" [].
Definition executionDuration := cls "tr" "executionDuration" [].
Definition mime := cls "tr" "mime" [].
Definition name := cls "tr" "name" [].
Definition retentionPeriod := cls "tr" "retentionPeriod" [].
Definition outputLimit := cls "tr" "outputLimit" [].
Definition form := cls "tr" "form" [].
Definition uploadLimit := cls "tr" "uploadLimit" [].
Definition feature := cls "tr" "feature" [].
End TR.

Module VSTD.
Definition endorsedVersion :=
  cls "vstd" "endorsedVersion" [("status", Some "n/a"); ("use", Some "preferred")].
Definition Standard := subAttr RI.Resource "xsi_type" (Some "vstd:Standard").
Definition deprecated := cls "vstd" "deprecated" [].
Definition key := cls "vstd" "key" [].
Definition description := cls "vstd" "description" [].
Definition name := cls "vstd" "name" [].
End VSTD.

Module DOC.
Definition Document := subAttr RI.Resource "xsi_type" (Some "doc:Document").
Definition capability :=
  cls "doc" "capability"
    [("xsi_type", Some "doc:Edition"); ("languageCode", None); ("locTitle", None)].
Definition languageCode := cls "doc" "languageCode" [].
Definition locTitle := cls "doc" "locTitle" [].
End DOC.

Module DaFut.
Definition daliInterface :=
  subAttr (subAttr VOR.interface "role" (Some "std"))
    "xsi_type" (Some "dachs:DALIInterface").
Definition endpoint := cls "dachs" "endpoint" [].
Definition meta :=
  cls "dachs" "meta" [("about", None); ("property", None); ("resource", None)].
End DaFut.

(** ** The Meta Source *)

(** Modelled from the spec: the hierarchical, multi-valued, propagating
    metadata store ([base.meta]) is not part of the registry package.  A
    value carries its text content and named sub-items; a carrier has its
    own items and the items of the broader scope it propagates to.  Keys
    are dotted paths.  Macro expansion happens inside the store. *)

Inductive MetaValue :=
| MV (content : string) (sub : list (string * list MetaValue)).

Definition MetaTree : Type := list (string * list MetaValue).

Definition getContent (v : MetaValue) : string := let 'MV c _ := v in c.
Definition subMeta (v : MetaValue) : MetaTree := let 'MV _ s := v in s.

Record MetaStore := mkMetaStore {
  own : MetaTree;
  inherited : MetaTree
}.

Fixpoint lookupKey (k : string) (t : MetaTree) : list MetaValue :=
  match t with
  | [] => []
  | (k', vs) :: r => if strEq k k' then vs else lookupKey k r
  end.

Fixpoint walk (path : list string) (t : MetaTree) : list MetaValue :=
  match path with
  | [] => []
  | [k] => lookupKey k t
  | k :: rest => flat_map (λ v, walk rest (subMeta v)) (lookupKey k t)
  end.

Definition splitKey (key : string) : list string := splitOn "." key "".

(** [carrier.iterMeta(key, propagate=...)] *)
Definition iterMeta (m : MetaStore) (key : string) (propagate : bool) : list MetaValue :=
  match walk (splitKey key) (own m) with
  | [] => if propagate then walk (splitKey key) (inherited m) else []
  | l => l
  end.

(** [carrier.getMeta(key, propagate=..., default=None)] *)
Definition getMeta (m : MetaStore) (key : string) (propagate : bool)
    : option (list MetaValue) :=
  match iterMeta m key propagate with
  | [] => None
  | l => Some l
  end.

(** [carrier.getMeta(key, raiseOnFail=True)] *)
Definition getMetaOrRaise (m : MetaStore) (key : string) : Result (list MetaValue) :=
  match getMeta m key true with
  | Some l => Ok l
  | None => Raise (NoMetaKey key)
  end.

(** The content of a meta item: defined for single-valued items only. *)
Definition itemContent (key : string) (l : list MetaValue) : Result string :=
  match l with
  | [v] => Ok (getContent v)
  | _ => Raise (MetaCardError key)
  end.

(** [base.getMetaText(carrier, key, default, propagate=...)] *)
Definition getMetaText (m : MetaStore) (key : string) (default : option string)
    (propagate : bool) : Result (option string) :=
  match getMeta m key propagate with
  | None => Ok default
  | Some l => c ← itemContent key l; mret (Some c)
  end.

(** [base.getMetaText(carrier, key, raiseOnFail=True)] *)
Definition getMetaTextOrRaise (m : MetaStore) (key : string) : Result string :=
  l ← getMetaOrRaise m key; itemContent key l.

(** A meta item put between the brackets of an element. *)
Definition metaChild (o : option (list MetaValue)) : Content :=
  match o with
  | None => CNone
  | Some l => CSeq (map (λ v, CStr (getContent v)) l)
  end.

Definition optChild (o : option string) : Content :=
  match o with
  | None => CNone
  | Some s => CStr s
  end.

(** [str(carrier.getMeta(key))] *)
Definition strMeta (o : option (list MetaValue)) : string :=
  match o with
  | None => "None"
  | Some l => String.concat ", " (map getContent l)
  end.

(** ** The objects the registry code works on *)

Record RD := mkRD {
  sourceId : string;
  schema : string;
  rd_meta : MetaStore
}.

Record ForeignKey := mkForeignKey {
  destTableName : string;
  fk_source : list string;
  fk_dest : list string
}.

Record Column := mkColumn {
  col_name : string;
  col_isQuotedName : bool;
  col_description : option string;
  col_unit : option string;
  col_ucd : option string;
  col_utype : option string;
  col_type : string;
  col_xtype : option string;
  col_std : bool;
  col_hidden : bool;
  col_isIndexed : bool;
  col_isPrimary : bool;
  col_required : bool;
  col_statistics : list (string * string)
}.

(** The [adql] attribute of a table: false, true or ["hidden"]. *)
Inductive AdqlFlag := AdqlFalse | AdqlTrue | AdqlHidden.

Record TableDef := mkTableDef {
  td_rd : option RD;
  td_qName : string;
  td_isOutputTableDef : bool;
  td_columns : list Column;
  td_foreignKeys : list ForeignKey;
  td_nrows : option N;
  td_adql : AdqlFlag;
  td_obscoreClause : bool;
  td_meta : MetaStore
}.

(** The Python class of a describable resource, with what is particular to
    it: a service's or resource record's table set, a table definition
    itself, a data descriptor's tables and registration sets. *)
Inductive ResKind :=
| IsService (tableSet : list TableDef)
| IsResRec (tableSet : list TableDef)
| IsTableDef (td : TableDef) (registrationSets : list string)
| IsDataDescriptor (tds : list TableDef) (registrationSets : list string)
| IsDeletedResource.

(** A describable resource owns its publications; a publication names the
    renderer (the publishing mechanism), its sets, the auxiliary flag and
    optionally another service it is published through. *)
Inductive Resob := mkResob {
  kind : ResKind;
  id : string;
  rd : RD;
  resType : string;
  limitTo : option string;
  meta : MetaStore;
  pubSpecs : list PubSpec
}
with PubSpec := mkPubSpec {
  ps_render : string;
  ps_sets : list string;
  ps_auxiliary : bool;
  ps_service : option Resob;
  ps_meta : MetaStore
}.

(** A publication as the code sees it: the specification together with
    the resource it was declared on ([publication.parent]). *)
Record Publication := mkPublication {
  parent : Resob;
  spec : PubSpec
}.

Definition render (p : Publication) : string := ps_render (spec p).
Definition sets (p : Publication) : list string := ps_sets (spec p).
Definition auxiliary (p : Publication) : bool := ps_auxiliary (spec p).
Definition service (p : Publication) : option Resob := ps_service (spec p).
Definition pub_meta (p : Publication) : MetaStore := ps_meta (spec p).

(** [resob.publications] *)
Definition publications (r : Resob) : list Publication :=
  map (mkPublication r) (pubSpecs r).

Definition isService (r : Resob) : bool :=
  match kind r with IsService _ => true | _ => false end.

(** [pub.sets & names], as a truth value *)
Definition intersects (a b : list string) : bool :=
  existsb (λ x, bool_decide (x ∈ b)) a.

(** [urllib.parse.urlparse]'s six-tuple. *)
Record ParseResult := mkParseResult {
  scheme : string;
  netloc : string;
  path : string;
  params : string;
  query : string;
  fragment : string
}.

(** What the code reads of a renderer obtained from [svcs.getRenderer]. *)
Record Renderer := mkRenderer {
  rendererName : string;
  parameterStyle : string
}.

(** A user defined function of the query language, as the TAP capability
    reads it from the function registry. *)
Record Udf := mkUdf {
  adqlUDF_signature : string;
  adqlUDF_doc : string;
  adqlUDF_additionalSignatures : list (string * string)
}.

(** ** External collaborators

    Library code, configuration and database content the registry package
    calls but does not define. *)
Class Externals := {
  (* urllib.parse *)
  urlparse : string → ParseResult;
  urlunsplit : string → string → string → string → string → string;
  (* svcs *)
  longToShort : gmap string string;
  getRenderer : string → Result Renderer;
  getInputKeysFor : Resob → Renderer → option (list Column);
  servicePublicationsForSet : Resob → list string → bool → list Publication;
  getURL : Resob → string → bool → Result string;
  isBrowseableWith : Resob → string → Result bool;
  (* protocols.dali, base.sqltypeToVOTable *)
  getUploadKeyFor : Column → Column;
  sqltypeToVOTable : string → string * option string * option string;
  (* base.getConfig *)
  registerAlternative : bool;
  dalHardLimit : N;
  dalDefaultLimit : N;
  oaipmhPageSize : N;
  futureConfig : list string;
  defaultLifetime : N;
  defaultExecTime : N;
  defaultMAXREC : N;
  hardMAXREC : N;
  maxUploadSize : N;
  (* osinter *)
  switchProtocol : option string → Result string;
  (* protocols.tap, adql.ufunctions, tap_schema.supportedmodels *)
  TAP_VERSION : string;
  supportedModels : Result (list (string * string));
  ufuncRegistry : list Udf;
  getSupportedLanguages : list (string * string * list (string * string));
  getSupportedOutputFormats : list (string * list string * string * string);
  UPLOAD_METHODS : list string;
  (* utils *)
  couldBeABibcode : string → bool;
  dateRE_match : string → bool;
  formatFloat : string → option string;
  parseISODT : string → Result string;
  utcnow : string;
  (* stc: parseSTCS followed by astToStan *)
  parseSTCS : string → Result Element;
  (* common.getDependencies' query, base.caches.getRD *)
  queryDependencies : string → Result (list string);
  getRD : string → Result unit;
  obscoreRD : RD;
  sitename : string;
  (* base.validateStructure, the registry resource's managedAuthority meta *)
  validateStructure : Resob → Result unit;
  managedAuthorityMeta : list MetaValue;
  (* repr(resob), for log messages *)
  reprResob : Resob → string;
  (* the order in which a Python set of table definitions is iterated:
     the program does not control it *)
  iterSet : list TableDef → list TableDef
}.

(** [str(n)] for a natural number *)
Definition strN (n : N) : string := pretty n.

Fixpoint insertStr (s : string) (l : list string) : list string :=
  match l with
  | [] => [s]
  | x :: r => if String.leb s x then s :: l else x :: insertStr s r
  end.

(** [sorted(names)] *)
Definition sortStrings (l : list string) : list string := foldr insertStr [] l.

(** ** [tableset]: VODataService table sets *)

Module tableset.
Section WithExternals.
Context `{E : Externals}.

Definition _VOTABLE_TO_SIMPLE_TYPE_MAP : gmap string string :=
  list_to_map
    [("char", "char"); ("bytea", "char"); ("unicodeChar", "char");
     ("short", "integer"); ("int", "integer"); ("long", "integer");
     ("float", "real"); ("double", "real")].

Definition simpleDataTypeFactory (dbType : string) (declaredXtype : option string)
    : Result Element :=
  let '(type, length, xtype) := sqltypeToVOTable dbType in
  let length := if optStrEq length "1" then None else length in
  e ← call (new VS.dataType)
        [("arraysize", length); ("xsi_type", Some "vs:SimpleDataType")];
  mret (addChild e
          (CStr (default "char" (_VOTABLE_TO_SIMPLE_TYPE_MAP !! type)))).

Definition voTableDataTypeFactory (dbType : string) (declaredXtype : option string)
    : Result Element :=
  let '(type, length, xtype) := sqltypeToVOTable dbType in
  let '(type, length, xtype) :=
    if optStrEq declaredXtype "adql:REGION"
    then ("char", Some "*", Some "adql:REGION")
    else (type, length, xtype) in
  e ← call (new VS.voTableDataType) [("arraysize", length)];
  call (addChild e (CStr type)) [("extendedType", xtype)].

Definition getForeignKeyForForeignKey (fk : ForeignKey) (namesInSet : gset string)
    : Content :=
  let targetName := lower (destTableName fk) in
  if bool_decide (targetName ∈ namesInSet) then
    CElem (addChildren (new VS.foreignKey)
      [CElem (addChild (new VS.targetTable) (CStr targetName));
       CSeq (map (λ '(fromColName, toColName),
               CElem (addChildren (new VS.fkColumn)
                 [CElem (addChild (new VS.fromColumn) (CStr (lower fromColName)));
                  CElem (addChild (new VS.targetColumn) (CStr (lower toColName)))]))
             (zip (fk_source fk) (fk_dest fk)))])
  else CNone.

Definition _serializeFloats (stats : list (string * string))
    : list (string * option string) :=
  map (λ '(k, v), (k, Some (default v (formatFloat v)))) stats.

Definition getTableColumnFromColumn (column : Column)
    (typeFactory : string → option string → Result Element) : Result Element :=
  let colName :=
    if col_isQuotedName column then col_name column
    else lower (col_name column) in
  let flags :=
    (if col_isIndexed column then ["indexed"] else []) ++
    (if col_isPrimary column then ["primary"]
     else if negb (col_required column) then ["nullable"] else []) in
  ty ← typeFactory (col_type column) (col_xtype column);
  call (addChildren (new VS.column)
          [CElem (addChild (new VS.name) (CStr colName));
           CElem (addChild (new VS.description) (optChild (col_description column)));
           CElem (addChild (new VS.unit) (optChild (col_unit column)));
           CElem (addChild (new VS.ucd) (optChild (col_ucd column)));
           CElem (addChild (new VS.utype) (optChild (col_utype column)));
           CElem ty;
           CSeq (map (λ f, CElem (addChild (new VS.flag) (CStr f))) flags)])
       (_serializeFloats (col_statistics column)).

Definition getEffectiveTableName (tableDef : TableDef) : string :=
  if td_isOutputTableDef tableDef then "output"
  else lower (td_qName tableDef).

Definition getTableForTableDef (tableDef : TableDef) (namesInSet : gset string)
    (rootElement : ElemClass) (suppressBodies : bool) : Result Element :=
  let name := getEffectiveTableName tableDef in
  let type := if strEq name "output" then Some "output" else None in
  root ← call (new rootElement) [("type", type)];
  title ← getMetaText (td_meta tableDef) "title" None false;
  description ← getMetaText (td_meta tableDef) "description" None true;
  utype ← getMetaText (td_meta tableDef) "utype" None true;
  let nrows :=
    match td_nrows tableDef with
    | None | Some 0%N => ""
    | Some n => strN n
    end in
  let res := addChildren root
    [CElem (addChild (new VS.name) (CStr name));
     CElem (addChild (new VS.title) (optChild title));
     CElem (addChild (new VS.description) (optChild description));
     CElem (addChild (new VS.utype) (optChild utype));
     CElem (addChild (new VS.nrows) (CStr nrows))] in
  if negb suppressBodies then
    cols ← mapM (λ col, getTableColumnFromColumn col voTableDataTypeFactory)
              (filter (λ col, col_hidden col = false) (td_columns tableDef));
    mret (addChildren res
      [CSeq (map CElem cols);
       CSeq (map (λ fk, getForeignKeyForForeignKey fk namesInSet)
               (td_foreignKeys tableDef))])
  else mret res.

(** The stand-in table declaring that a data collection is listed in
    the obscore table, too. *)
Definition _getObscoreStub : TableDef :=
  mkTableDef (Some obscoreRD) (schema obscoreRD +:+ ".obscore") false [] []
    None AdqlFalse false
    (mkMetaStore
       [("description",
         [MV ("This data collection is queryable in " +:+ sitename +:+
              "'s obscore table.") []])]
       (own (rd_meta obscoreRD))).

(** Adding the obscore stub: to the first schema called [ivoa] unless it
    already has the obscore table, else as a schema of its own. *)
Fixpoint addObscore (schemas : list (RD * list TableDef))
    : list (RD * list TableDef) :=
  match schemas with
  | [] => [(obscoreRD, [_getObscoreStub])]
  | (rd, tables) :: rest =>
      if strEq (schema rd) "ivoa" then
        (if existsb (λ td, strEq (lower (td_qName td)) "ivoa.obscore") tables
         then (rd, tables)
         else (rd, tables ++ [_getObscoreStub])) :: rest
      else (rd, tables) :: addObscore rest
  end.

Definition getTablesetForSchemaCollection (schemas : list (RD * list TableDef))
    (rootElement : ElemClass) (suppressBodies : bool) : Result Element :=
  let allTables := flat_map snd schemas in
  let namesInSet : gset string :=
    list_to_set (map (λ td, lower (getEffectiveTableName td)) allTables) in
  let obscorePublished := existsb td_obscoreClause allTables in
  let schemas := if obscorePublished then addObscore schemas else schemas in
  schemaElements ← mapM (λ '(rd, tables),
      title ← getMetaText (rd_meta rd) "title" None true;
      description ← getMetaText (rd_meta rd) "description" None true;
      utype ← getMetaText (rd_meta rd) "utype" None true;
      tabs ← mapM (λ td, getTableForTableDef td namesInSet VS.table suppressBodies)
               tables;
      mret (addChildren (new VS.schema)
        [CElem (addChild (new VS.name) (CStr (schema rd)));
         CElem (addChild (new VS.title) (optChild title));
         CElem (addChild (new VS.description) (optChild description));
         CElem (addChild (new VS.utype) (optChild utype));
         CSeq (map CElem tabs)])) schemas;
  mret (foldl (λ res s, addChild res (CElem s)) (new rootElement) schemaElements).

(** [getTablesetForSchemaCollection] on the one pair the data resource
    maker passes, whose tables are a Python set instead of a list: the
    tables come in the set's order, and where the code appends the
    obscore stand-in to the tables of a schema [ivoa], a set has no
    [append]. *)
Definition getTablesetForSchemaSet (rd : RD) (tables : list TableDef)
    (rootElement : ElemClass) (suppressBodies : bool) : Result Element :=
  let tables := iterSet tables in
  if existsb td_obscoreClause tables && strEq (schema rd) "ivoa" &&
     negb (existsb (λ td, strEq (lower (td_qName td)) "ivoa.obscore") tables)
  then Raise (AttributeError "'set' object has no attribute 'append'")
  else getTablesetForSchemaCollection [(rd, tables)] rootElement suppressBodies.

(** The place-holder for the descriptor of a schema-less table. *)
Definition _INTERNAL_SCHEMA : RD :=
  mkRD "" "internal"
    (mkMetaStore
       [("title", [MV "Not a Schema" []]);
        ("description", [MV "A helper for virtual and temporary tables" []])]
       []).

(** [td.adql and td.adql!="hidden"] *)
Definition adqlVisible (td : TableDef) : bool :=
  match td_adql td with
  | AdqlTrue => true
  | AdqlFalse | AdqlHidden => false
  end.

Definition schemaNameOf (t : TableDef) : string :=
  match td_rd t with
  | Some r => schema r
  | None => "internal"
  end.

(** The two dictionaries filled while grouping tables by schema. *)
Definition groupBySchema (tables : list TableDef)
    : gmap string (list TableDef) * gmap string RD :=
  foldl (λ '(bySchema, rdForSchema) t,
      let k := schemaNameOf t in
      (<[k := default [] (bySchema !! k) ++ [t]]> bySchema,
       <[k := default _INTERNAL_SCHEMA (td_rd t)]> rdForSchema))
    (∅, ∅) tables.

(** What [tables] is bound to before the emptiness test, and whether it
    is a list.  A resource record's [getTableSet] is a generator
    function: its result is an iterator object, which is always true. *)
Definition tablesOf (resource : Resob) : Result (list TableDef * bool) :=
  match kind resource with
  | IsTableDef td _ => Ok ([td], true)
  | IsDataDescriptor tds _ =>
      Ok (filter (λ td, adqlVisible td = true) tds, true)
  | IsService ts => Ok (ts, true)
  | IsResRec ts => Ok (ts, false)
  | IsDeletedResource => Raise (AttributeError "getTableSet")
  end.

Definition getTablesetForService (resource : Resob) (rootElement : ElemClass)
    (suppressBodies : bool) : Result Element :=
  '(tables, isList) ← tablesOf resource;
  if isList && bool_decide (length tables = 0) then
    mret (addChild (new rootElement)
            (CElem (addChild (new VS.schema)
               (CElem (addChild (new VS.name) (CStr "default"))))))
  else
    let '(bySchema, rdForSchema) := groupBySchema tables in
    let schemas :=
      omap (λ schemaName,
              match rdForSchema !! schemaName, bySchema !! schemaName with
              | Some r, Some ts => Some (r, ts)
              | _, _ => None
              end)
           (sortStrings (map fst (map_to_list bySchema))) in
    getTablesetForSchemaCollection schemas rootElement suppressBodies.

End WithExternals.
End tableset.

(** ** [capabilities]: capability and interface elements *)

Module capabilities.
Section WithExternals.
Context `{E : Externals}.

Definition _getParamFromColumn (column : Column) (rootElement : ElemClass)
    (typeFactory : string → option string → Result Element) : Result Element :=
  ty ← typeFactory (col_type column) None;
  mret (addChildren (new rootElement)
    [CElem (addChild (new VS.name) (CStr (col_name column)));
     CElem (addChild (new VS.description) (optChild (col_description column)));
     CElem (addChild (new VS.unit) (optChild (col_unit column)));
     CElem (addChild (new VS.ucd) (optChild (col_ucd column)));
     CElem ty]).

Definition getInputParamFromColumn (column : Column) (rootElement : ElemClass)
    : Result Element :=
  e ← _getParamFromColumn column rootElement tableset.simpleDataTypeFactory;
  call e [("std", Some (if col_std column then "true" else "false"))].

Definition getInputParams (publication : Publication) (service : Resob)
    : Result (list Element) :=
  renderer ← getRenderer (render publication);
  match getInputKeysFor service renderer with
  | Some keys =>
      mapM (λ param,
          let param :=
            if strEq (col_type param) "file"
               && strEq (parameterStyle renderer) "dali"
            then getUploadKeyFor param else param in
          getInputParamFromColumn param VS.param) keys
  | None => mret []
  end.

(** *** Interfaces *)

Definition StandardParamHTTP : ElemClass := subAttr VS.ParamHTTP "role" (Some "std").

(** Which [_makeInterface] a class ends up with. *)
Inductive MakeInterface :=
| UseInterfaceMaker
| UseDALIInterface
| UseInterfaceWithParams
| UseEditionInterface
| UseTAPInterface
| UseSOAPInterface
| UseOAIHTTPInterface.

(** An interface maker class: its name, its class variables and its
    [_makeInterface] method. *)
Record InterfaceMaker := mkInterfaceMaker {
  im_class : string;
  im_renderer : option string;
  interfaceClass : ElemClass;
  im_method : MakeInterface
}.

Definition VOSIInterface :=
  mkInterfaceMaker "VOSIInterface" None StandardParamHTTP UseInterfaceMaker.
Definition VOSIAvInterface :=
  mkInterfaceMaker "VOSIAvInterface" (Some "availability") StandardParamHTTP
    UseInterfaceMaker.
Definition VOSICapInterface :=
  mkInterfaceMaker "VOSICapInterface" (Some "capabilities") StandardParamHTTP
    UseInterfaceMaker.
Definition VOSITMInterface :=
  mkInterfaceMaker "VOSITMInterface" (Some "tableMetadata") StandardParamHTTP
    UseInterfaceMaker.
Definition DALIInterface :=
  mkInterfaceMaker "DALIInterface" None DaFut.daliInterface UseDALIInterface.
Definition InterfaceWithParams :=
  mkInterfaceMaker "InterfaceWithParams" None VS.ParamHTTP
    UseInterfaceWithParams.
Definition SIAPInterface :=
  mkInterfaceMaker "SIAPInterface" (Some "siap.xml") SIA.interface
    UseInterfaceWithParams.
Definition SIAP2Interface :=
  mkInterfaceMaker "SIAP2Interface" (Some "siap2.xml") SIA.interface
    UseInterfaceWithParams.
Definition SCSInterface :=
  mkInterfaceMaker "SCSInterface" (Some "scs.xml") SCS.interface
    UseInterfaceWithParams.
Definition SSAPInterface :=
  mkInterfaceMaker "SSAPInterface" (Some "ssap.xml") SSAP.interface
    UseInterfaceWithParams.
Definition SLAPInterface :=
  mkInterfaceMaker "SLAPInterface" (Some "slap.xml") SLAP.interface
    UseInterfaceWithParams.
Definition DatalinkInterface :=
  mkInterfaceMaker "DatalinkInterface" (Some "dlmeta") StandardParamHTTP
    UseInterfaceWithParams.
Definition SODASyncInterface :=
  mkInterfaceMaker "SODASyncInterface" (Some "dlget") StandardParamHTTP
    UseInterfaceMaker.
Definition SODAAsyncInterface :=
  mkInterfaceMaker "SODAAsyncInterface" (Some "dlasync") StandardParamHTTP
    UseInterfaceMaker.
Definition EditionInterface :=
  mkInterfaceMaker "EditionInterface" (Some "edition") VOR.WebBrowser
    UseEditionInterface.
Definition TAPInterface :=
  mkInterfaceMaker "TAPInterface" (Some "dali") TR.interface UseTAPInterface.
Definition ExamplesInterface :=
  mkInterfaceMaker "ExamplesInterface" (Some "examples") VOR.WebBrowser
    UseInterfaceMaker.
Definition SOAPInterface :=
  mkInterfaceMaker "SOAPInterface" (Some "soap") VOR.WebService
    UseSOAPInterface.
Definition OAIHTTPInterface :=
  mkInterfaceMaker "OAIHTTPInterface" (Some "pubreg.xml") VOG.OAIHTTP
    UseOAIHTTPInterface.
Definition WebBrowserInterface (n : string) (r : option string) :=
  mkInterfaceMaker n r VOR.WebBrowser UseInterfaceMaker.
Definition FormInterface := WebBrowserInterface "FormInterface" (Some "form").
Definition QPInterface := WebBrowserInterface "QPInterface" (Some "qp").
Definition DocformInterface := WebBrowserInterface "DocformInterface" (Some "docform").
Definition FixedInterface := WebBrowserInterface "FixedInterface" (Some "fixed").
Definition StaticInterface := WebBrowserInterface "StaticInterface" (Some "static").
Definition CustomInterface := WebBrowserInterface "CustomInterface" (Some "custom").
Definition VolatileInterface := WebBrowserInterface "VolatileInterface" (Some "volatile").
Definition ExternalInterface := WebBrowserInterface "ExternalInterface" (Some "external").
Definition GetProductInterface := WebBrowserInterface "GetProductInterface" (Some "get").

(** The primary access URL after the short-alias rewrite. *)
Definition rewriteAccessURL (accessURL : option string) : Result (option string) :=
  match accessURL with
  | None => mret None
  | Some url =>
      let parts := urlparse url in
      let localpart := dropFirst (path parts) in
      match longToShort !! localpart with
      | Some short =>
          last ← lastChar url;
          let appendChar :=
            if strEq last "?" || strEq last "&" then last else "" in
          mret (Some (urlunsplit (scheme parts) (netloc parts) short
                        (params parts) (query parts) +:+ appendChar))
      | None => mret (Some url)
      end
  end.

(** [InterfaceMaker._makeInterface] *)
Definition InterfaceMaker_makeInterface (self : InterfaceMaker) (publication : Publication)
    : Result Element :=
  accessURL ← getMetaText (pub_meta publication) "accessURL" None true;
  accessURL ← rewriteAccessURL accessURL;
  urlUse ← getMetaText (pub_meta publication) "urlUse" None true;
  accessURLElement ← call (new VOR.accessURL) [("use", urlUse)];
  securityId ← getMetaText (pub_meta publication) "securityId" None true;
  securityMethod ← call (new VOR.securityMethod) [("standardId", securityId)];
  let interface := addChildren (new (interfaceClass self))
    [CElem (addChild accessURLElement (optChild accessURL));
     CElem securityMethod;
     CSeq (map (λ v, CElem (addChild (new VOR.mirrorURL) (CStr (getContent v))))
             (filter (λ v, Some (getContent v) ≠ accessURL)
                (iterMeta (pub_meta publication) "mirrorURL" false)))] in
  if registerAlternative then
    match switchProtocol accessURL with
    | Ok alternative =>
        mret (addChild interface
                (CElem (addChild (new VOR.mirrorURL) (CStr alternative))))
    | Raise (ValueError _) => mret interface
    | Raise e => Raise e
    end
  else mret interface.

Definition _makeInterface (self : InterfaceMaker) (publication : Publication)
    : Result Element :=
  match im_method self with
  | UseInterfaceMaker => InterfaceMaker_makeInterface self publication
  | UseDALIInterface =>
      res ← InterfaceMaker_makeInterface self publication;
      res ← call res [("version", Some "1.1")];
      if negb (strEq (render publication) "dali") then
        Raise (NotImplementedError
          "Don't know how to make DALIInterfaces for anything but TAP yet.")
      else
        meta ← call (new DaFut.meta)
                 [("property", Some "http://dc.g-vo.org/static/tap-plan")];
        mret (addChildren res
          [CElem (addChild (new DaFut.endpoint)
                    (CElem (addChild (new TR.name) (CStr "sync"))));
           CElem (addChildren (new DaFut.endpoint)
                    [CElem (addChild (new TR.name) (CStr "async"));
                     CElem (addChild meta (CStr "dachs"))]);
           CElem (addChild (new DaFut.endpoint)
                    (CElem (addChild (new TR.name) (CStr "tables"))));
           CElem (addChild (new DaFut.endpoint)
                    (CElem (addChild (new TR.name) (CStr "examples"))))])
  | UseInterfaceWithParams =>
      let paramSrc := default (parent publication) (service publication) in
      res ← InterfaceMaker_makeInterface self publication;
      requestMethod ← getMetaText (pub_meta publication) "requestMethod" None false;
      resultType ← getMetaText (pub_meta publication) "resultType" None false;
      inputParams ← getInputParams publication paramSrc;
      mret (addChildren res
        [CElem (addChild (new VS.queryType) (optChild requestMethod));
         CElem (addChild (new VS.resultType) (optChild resultType));
         CSeq (map CElem inputParams)])
  | UseEditionInterface =>
      res ← InterfaceMaker_makeInterface self publication;
      call res [("role", Some "rendered")]
  | UseTAPInterface =>
      res ← InterfaceMaker_makeInterface self publication;
      call res [("version", Some TAP_VERSION)]
  | UseSOAPInterface =>
      res ← InterfaceMaker_makeInterface self publication;
      accessURL ← getMetaText (pub_meta publication) "accessURL" None true;
      match accessURL with
      | Some url =>
          mret (addChild res
                  (CElem (addChild (new VOR.wsdlURL) (CStr (url +:+ "?wsdl")))))
      | None => Raise (TypeError "unsupported operand type(s) for +")
      end
  | UseOAIHTTPInterface =>
      res ← InterfaceMaker_makeInterface self publication;
      call res [("role", Some "std")]
  end.

(** The subclasses of [InterfaceMaker] in the order the module defines
    them. *)
Definition interfaceMakerClasses : list InterfaceMaker :=
  [VOSIInterface; VOSIAvInterface; VOSICapInterface; VOSITMInterface;
   DALIInterface; InterfaceWithParams; SIAPInterface; SIAP2Interface;
   SCSInterface; SSAPInterface; SLAPInterface; DatalinkInterface;
   SODASyncInterface; SODAAsyncInterface; EditionInterface; TAPInterface;
   ExamplesInterface; SOAPInterface; OAIHTTPInterface;
   WebBrowserInterface "WebBrowserInterface" None;
   FormInterface; QPInterface; DocformInterface; FixedInterface;
   StaticInterface; CustomInterface; VolatileInterface; ExternalInterface;
   GetProductInterface].

(** Modelled from the spec: [utils.buildClassResolver] is library code.
    It fills a dictionary from [key(class)] to an instance of the class,
    a later class replacing an earlier one under the same key; resolving
    a key that has no entry gives the default when there is one and
    raises [KeyError] otherwise. *)
Definition buildRegistry {A} (key : A → option string) (classes : list A)
    : gmap (option string) A :=
  foldl (λ registry c, <[key c := c]> registry) ∅ classes.

Definition resolve {A} (registry : gmap (option string) A) (default_ : option A)
    (name : string) : Result A :=
  match registry !! Some name with
  | Some c => Ok c
  | None =>
      match default_ with
      | Some d => Ok d
      | None => Raise (KeyError name)
      end
  end.

Definition interfaceRegistry : gmap (option string) InterfaceMaker :=
  buildRegistry im_renderer interfaceMakerClasses.

Definition _getInterfaceMaker (name : string) : Result InterfaceMaker :=
  resolve interfaceRegistry (Some InterfaceWithParams) name.


(** *** Capabilities *)

(** Which [_makeCapability] a class ends up with. *)
Inductive MakeCapability :=
| UseCapabilityMaker
| UsePlainCapabilityMaker
| UseSIACapabilityMaker
| UseSCSCapabilityMaker
| UseSSACapabilityMaker
| UseSLAPCapabilityMaker
| UseTAPCapabilityMaker
| UseRegistryCapabilityMaker
| UseEditionCapabilityMaker.

(** A capability maker class: its name, its class variables
    ([standardId] is the one [PlainCapabilityMaker] adds) and its
    [_makeCapability] method.  Only [TAPCapabilityMaker] overrides
    [_getInterfaceElement]. *)
Record CapabilityMaker := mkCapabilityMaker {
  cm_class : string;
  cm_renderer : option string;
  capabilityClass : ElemClass;
  auxiliaryId : option string;
  standardId : option string;
  cm_method : MakeCapability
}.

(** [CapabilityMaker] itself. *)
Definition CapabilityMaker_ :=
  mkCapabilityMaker "CapabilityMaker" None VOR.capability None None UseCapabilityMaker.

Definition plainMaker (n : string) (r : option string) :=
  mkCapabilityMaker n r VOR.capability None None UseCapabilityMaker.

Definition PlainCapabilityMaker :=
  mkCapabilityMaker "PlainCapabilityMaker" None VOR.capability None None
    UsePlainCapabilityMaker.
Definition APICapabilityMaker := plainMaker "APICapabilityMaker" (Some "api").
Definition SIACapabilityMaker :=
  mkCapabilityMaker "SIACapabilityMaker" (Some "siap.xml") SIA.capability
    (Some "ivo://ivoa.net/std/SIA#aux") None UseSIACapabilityMaker.
Definition SIAV2CapabilityMaker :=
  mkCapabilityMaker "SIAV2CapabilityMaker" (Some "siap2.xml") SIA.capability2
    (Some "ivo://ivoa.net/std/SIA#query-aux-2.0") None UseSIACapabilityMaker.
Definition SCSCapabilityMaker :=
  mkCapabilityMaker "SCSCapabilityMaker" (Some "scs.xml") SCS.capability None None
    UseSCSCapabilityMaker.
Definition SSACapabilityMaker :=
  mkCapabilityMaker "SSACapabilityMaker" (Some "ssap.xml") SSAP.capability None None
    UseSSACapabilityMaker.
Definition SLAPCapabilityMaker :=
  mkCapabilityMaker "SLAPCapabilityMaker" (Some "slap.xml") SLAP.capability None None
    UseSLAPCapabilityMaker.
Definition TAPCapabilityMaker :=
  mkCapabilityMaker "TAPCapabilityMaker" (Some "dali") TR.capability
    (Some "ivo://ivoa.net/std/TAP#aux") None UseTAPCapabilityMaker.
Definition RegistryCapabilityMaker :=
  mkCapabilityMaker "RegistryCapabilityMaker" (Some "pubreg.xml") VOG.Harvest
    None None UseRegistryCapabilityMaker.
Definition VOSICapabilityMaker :=
  mkCapabilityMaker "VOSICapabilityMaker" None VOG.capability None None
    UsePlainCapabilityMaker.
Definition VOSIAvCapabilityMaker :=
  mkCapabilityMaker "VOSIAvCapabilityMaker" (Some "availability") VOG.capability
    None (Some "ivo://ivoa.net/std/VOSI#availability") UsePlainCapabilityMaker.
Definition VOSICapCapabilityMaker :=
  mkCapabilityMaker "VOSICapCapabilityMaker" (Some "capabilities") VOG.capability
    None (Some "ivo://ivoa.net/std/VOSI#capabilities") UsePlainCapabilityMaker.
Definition VOSITMCapabilityMaker :=
  mkCapabilityMaker "VOSITMCapabilityMaker" (Some "tableMetadata") VOG.capability
    None (Some "ivo://ivoa.net/std/VOSI#tables") UsePlainCapabilityMaker.
Definition ExamplesCapabilityMaker :=
  mkCapabilityMaker "ExamplesCapabilityMaker" (Some "examples") VOR.capability
    None (Some "ivo://ivoa.net/std/DALI#examples") UsePlainCapabilityMaker.
Definition HiPSCapabilityMaker :=
  mkCapabilityMaker "HiPSCapabilityMaker" (Some "hips") VOR.capability
    None (Some "ivo://ivoa.net/std/hips#hips-1.0") UsePlainCapabilityMaker.
Definition SOAPCapabilityMaker := plainMaker "SOAPCapabilityMaker" (Some "soap").
Definition FormCapabilityMaker := plainMaker "FormCapabilityMaker" (Some "form").
Definition QPCapabilityMaker := plainMaker "QPCapabilityMaker" (Some "qp").
Definition ExternalCapabilityMaker :=
  plainMaker "ExternalCapabilityMaker" (Some "external").
Definition StaticCapabilityMaker := plainMaker "StaticCapabilityMaker" (Some "static").
Definition VolatileCapabilityMaker :=
  plainMaker "VolatileCapabilityMaker" (Some "volatile").
Definition CustomCapabilityMaker := plainMaker "CustomCapabilityMaker" (Some "custom").
Definition JPEGCapabilityMaker := plainMaker "JPEGCapabilityMaker" (Some "img.jpeg").
Definition FixedCapabilityMaker := plainMaker "FixedCapabilityMaker" (Some "fixed").
Definition DocformCapabilityMaker :=
  plainMaker "DocformCapabilityMaker" (Some "docform").
Definition ProductCapabilityMaker := plainMaker "ProductCapabilityMaker" (Some "get").
Definition DatalinkCapabilityMaker :=
  mkCapabilityMaker "DatalinkCapabilityMaker" (Some "dlmeta")
    (subAttr VOR.capability "standardID" (Some "ivo://ivoa.net/std/DataLink#links-1.1"))
    None None UseCapabilityMaker.
Definition SODACapabilityMaker :=
  mkCapabilityMaker "SODACapabilityMaker" (Some "dlget")
    (subAttr VOR.capability "standardID" (Some "ivo://ivoa.net/std/SODA#sync-1.0"))
    None None UseCapabilityMaker.
Definition SODAAsyncCapabilityMaker :=
  mkCapabilityMaker "SODAAsyncCapabilityMaker" (Some "dlasync")
    (subAttr VOR.capability "standardID" (Some "ivo://ivoa.net/std/SODA#async-1.0"))
    None None UseCapabilityMaker.
Definition EditionCapabilityMaker :=
  mkCapabilityMaker "EditionCapabilityMaker" (Some "edition") DOC.capability
    None None UseEditionCapabilityMaker.

(** [CapabilityMaker._getInterfaceElement] *)
Definition CapabilityMaker_getInterfaceElement (publication : Publication)
    : Result Content :=
  interfaceMaker ←
    (if auxiliary publication && strEq (render publication) "dali"
     then mret TAPInterface
     else _getInterfaceMaker (render publication));
  i ← _makeInterface interfaceMaker publication;
  mret (CElem i).

(** [TAPCapabilityMaker._getInterfaceElement], a generator *)
Definition TAPCapabilityMaker_getInterfaceElement (publication : Publication)
    : Result Content :=
  i ← _makeInterface TAPInterface publication;
  if bool_decide ("dali-interface-in-tap" ∈ futureConfig) then
    d ← _makeInterface DALIInterface publication;
    mret (CSeq [CElem i; CElem d])
  else mret (CSeq [CElem i]).

Definition _getInterfaceElement (self : CapabilityMaker) (publication : Publication)
    : Result Content :=
  match cm_method self with
  | UseTAPCapabilityMaker => TAPCapabilityMaker_getInterfaceElement publication
  | _ => CapabilityMaker_getInterfaceElement publication
  end.

(** [CapabilityMaker._makeCapability] *)
Definition CapabilityMaker_makeCapability (self : CapabilityMaker)
    (publication : Publication) : Result Element :=
  description ← getMetaText (pub_meta publication) "description" None false;
  interface ← _getInterfaceElement self publication;
  mret (addChildren (new (capabilityClass self))
          [CElem (addChild (new VOR.description) (optChild description));
           interface]).

(** [carrier.getMeta(key, default=d)] between brackets *)
Definition metaOrDefault (m : MetaStore) (key : string) (d : option string)
    : Content :=
  match getMeta m key true with
  | Some l => metaChild (Some l)
  | None => optChild d
  end.

Definition leaf (c : ElemClass) (x : Content) : Content := CElem (addChild (new c) x).
Definition node (c : ElemClass) (l : list Content) : Content :=
  CElem (addChildren (new c) l).

Definition features (type : string) (funcNames : list string) : Result Content :=
  lf ← call (new TR.languageFeatures) [("type", Some type)];
  mret (CElem (addChild lf
    (CSeq (map (λ funcName, node TR.feature [leaf TR.form (CStr funcName)])
             funcNames)))).

Definition describedFeature (form description : string) : Content :=
  node TR.feature [leaf TR.form (CStr form); leaf TR.description (CStr description)].

Fixpoint insertBySignature (u : string * string) (l : list (string * string))
    : list (string * string) :=
  match l with
  | [] => [u]
  | x :: r => if String.leb u.1 x.1 then u :: l else x :: insertBySignature u r
  end.

(** [sorted(udfs, key=lambda v: v["signature"])] *)
Definition sortBySignature (l : list (string * string)) : list (string * string) :=
  foldr insertBySignature [] l.

Definition tapLanguage (udfs : list (string * string))
    (lang : string * string * list (string * string)) : Result Content :=
  let '(langName, description, versions) := lang in
  versionElements ← mapM (λ '(version, ivoId),
      v ← call (new TR.version) [("ivoId", Some ivoId)];
      mret (CElem (addChild v (CStr version)))) versions;
  udfFeatures ← call (new TR.languageFeatures)
                  [("type", Some "ivo://ivoa.net/std/TAPRegExt#features-udf")];
  geo ← features "ivo://ivoa.net/std/TAPRegExt#features-adqlgeo"
          ["BOX"; "POINT"; "CIRCLE"; "POLYGON"; "REGION"; "CENTROID"; "COORD1";
           "COORD2"; "DISTANCE"; "CONTAINS"; "INTERSECTS"; "AREA"];
  str ← features "ivo://ivoa.net/std/TAPRegExt#features-adql-string"
          ["LOWER"; "ILIKE"];
  offset ← features "ivo://ivoa.net/std/TAPRegExt#features-adql-offset" ["OFFSET"];
  type ← features "ivo://ivoa.net/std/TAPRegExt#features-adql-type" ["CAST"];
  unit ← features "ivo://ivoa.net/std/TAPRegExt#features-adql-unit" ["IN_UNIT"];
  cte ← features "ivo://ivoa.net/std/TAPRegExt#features-adql-common-table" ["WITH"];
  extra ← call (new TR.languageFeatures)
            [("type", Some "ivo://org.gavo.dc/std/exts#extra-adql-keywords")];
  setOps ← features "ivo://ivoa.net/std/TAPRegExt#features-adql-sets"
             ["UNION"; "EXCEPT"; "INTERSECT"];
  mret (node TR.language
    [leaf TR.name (CStr langName);
     CSeq versionElements;
     leaf TR.description (CStr description);
     CElem (addChild udfFeatures
       (CSeq (map (λ udf, describedFeature udf.1 udf.2) (sortBySignature udfs))));
     geo; str; offset; type; unit; cte;
     CElem (addChildren extra
       [describedFeature "TABLESAMPLE"
          ("Written after a table reference, TABLESAMPLE(10) will make the" +:+
           " database only use 10% of the rows; these are `somewhat random' in" +:+
           " that the system will use random blocks.  This should be good" +:+
           " enough when just testing queries (and much better than using TOP n).");
        describedFeature "MOC"
          ("A geometry function creating MOCs.  It either takes a string" +:+
           " argument with an ASCII MOC ('4/13 17-18 8/3002'), or an order" +:+
           " and another geometry.");
        describedFeature "COALESCE"
          ("This is the standard SQL COALESCE for providing defaults in" +:+
           " case of NULL values.");
        describedFeature "VECTORMATH"
          ("You can compute with vectors here. See" +:+
           " https://wiki.ivoa.net/twiki/bin/view/IVOA/ADQLVectorMath" +:+
           " for an overview of the functions and operators available.");
        describedFeature "CASE" "The SQL92 CASE expression"]);
     setOps]).

Definition withUnit (c : ElemClass) (unit value : string) : Result Content :=
  e ← call (new c) [("unit", Some unit)];
  mret (CElem (addChild e (CStr value))).

Definition TAPCapabilityMaker_makeCapability (self : CapabilityMaker)
    (publication : Publication) : Result Element :=
  res ← CapabilityMaker_makeCapability self publication;
  models ← supportedModels;
  dataModels ← mapM (λ '(dmname, dmivoid),
      d ← call (new TR.dataModel) [("ivoId", Some dmivoid)];
      mret (CElem (addChild d (CStr dmname)))) models;
  let res := addChild res (CSeq dataModels) in
  let udfs :=
    flat_map (λ udf, (adqlUDF_signature udf, adqlUDF_doc udf)
                       :: adqlUDF_additionalSignatures udf) ufuncRegistry in
  languages ← mapM (tapLanguage udfs) getSupportedLanguages;
  outputFormats ← mapM (λ '(mime, aliases, description, ivoId),
      f ← call (new TR.outputFormat) [("ivoId", Some ivoId)];
      mret (CElem (addChildren f
        [leaf TR.mime (CStr mime);
         CSeq (map (λ alias, leaf TR.alias (CStr alias)) aliases)])))
    getSupportedOutputFormats;
  uploadMethods ← mapM (λ proto,
      u ← call (new TR.uploadMethod)
            [("ivoId", Some ("ivo://ivoa.net/std/TAPRegExt#" +:+ proto))];
      mret (CElem u)) UPLOAD_METHODS;
  defaultRows ← withUnit TR.default "row" (strN defaultMAXREC);
  hardRows ← withUnit TR.hard "row" (strN hardMAXREC);
  hardBytes ← withUnit TR.hard "byte" (strN maxUploadSize);
  mret (addChildren res
    [CSeq languages;
     CSeq outputFormats;
     CSeq uploadMethods;
     node TR.retentionPeriod [leaf TR.default (CStr (strN defaultLifetime))];
     node TR.executionDuration [leaf TR.default (CStr (strN defaultExecTime))];
     node TR.outputLimit [defaultRows; hardRows];
     node TR.uploadLimit [hardBytes]]).

Definition _makeCapability (self : CapabilityMaker) (publication : Publication)
    : Result Element :=
  match cm_method self with
  | UseCapabilityMaker => CapabilityMaker_makeCapability self publication
  | UsePlainCapabilityMaker =>
      res ← CapabilityMaker_makeCapability self publication;
      call res [("standardID", standardId self)]
  | UseSIACapabilityMaker =>
      let service := meta (parent publication) in
      res ← CapabilityMaker_makeCapability self publication;
      siaType ← getMetaOrRaise service "sia.type";
      mret (addChildren res
        [leaf SIA.imageServiceType (metaChild (Some siaType));
         node SIA.maxQueryRegionSize
           [leaf SIA.long (metaOrDefault service "sia.maxQueryRegionSize.long" None);
            leaf SIA.lat (metaOrDefault service "sia.maxQueryRegionSize.lat" None)];
         node SIA.maxImageExtent
           [leaf SIA.long (metaOrDefault service "sia.maxImageExtent.long" None);
            leaf SIA.lat (metaOrDefault service "sia.maxImageExtent.lat" None)];
         node SIA.maxImageSize [metaOrDefault service "sia.maxImageSize" None];
         node SIA.maxFileSize [metaOrDefault service "sia.maxFileSize" None];
         node SIA.maxRecords
           [metaOrDefault service "sia.maxRecords" (Some (strN dalHardLimit))];
         node SIA.testQuery
           [node SIA.pos
              [leaf SIA.long (metaOrDefault service "testQuery.pos.ra" None);
               leaf SIA.lat (metaOrDefault service "testQuery.pos.dec" None)];
            node SIA.size
              [leaf SIA.long (metaOrDefault service "testQuery.size.ra" None);
               leaf SIA.lat (metaOrDefault service "testQuery.size.dec" None)]]])
  | UseSCSCapabilityMaker =>
      res ← CapabilityMaker_makeCapability self publication;
      match service publication with
      | None => Raise (AttributeError "getMeta")
      | Some svc =>
          let service := meta svc in
          maxSR ← getMetaText service "maxSR" (Some "180") true;
          ra ← getMetaOrRaise service "testQuery.ra";
          dec ← getMetaOrRaise service "testQuery.dec";
          mret (addChildren res
            [leaf SCS.maxSR (optChild maxSR);
             leaf SCS.maxRecords (CStr (strN (dalDefaultLimit * 10)));
             leaf SCS.verbosity (CStr "true");
             node SCS.testQuery
               [leaf SCS.ra (metaChild (Some ra));
                leaf SCS.dec (metaChild (Some dec));
                leaf SCS.sr (metaOrDefault service "testQuery.sr" (Some "0.001"))]])
      end
  | UseSSACapabilityMaker =>
      let service := meta (parent publication) in
      cap ← CapabilityMaker_makeCapability self publication;
      let cap := addChild cap
        (leaf SSAP.complianceLevel
           (metaOrDefault service "ssap.complianceLevel" (Some "minimal"))) in
      dataSource ← getMetaOrRaise service "ssap.dataSource";
      testQuery ← getMetaTextOrRaise service "ssap.testQuery";
      mret (addChildren cap
        [leaf SSAP.dataSource (metaChild (Some dataSource));
         leaf SSAP.creationType
           (metaOrDefault service "ssap.creationType" (Some "archival"));
         leaf SSAP.supportedFrame (CStr "ICRS");
         leaf SSAP.maxSearchRadius (CStr "90");
         leaf SSAP.maxRecords (CStr (strN dalHardLimit));
         leaf SSAP.defaultMaxRecords (CStr (strN dalDefaultLimit));
         leaf SSAP.maxAperture (CStr "90");
         node SSAP.testQuery [leaf SSAP.queryDataCmd (CStr testQuery)]])
  | UseSLAPCapabilityMaker =>
      let service := meta (parent publication) in
      res ← CapabilityMaker_makeCapability self publication;
      dataSource ← getMetaOrRaise service "slap.dataSource";
      testQuery ← getMetaTextOrRaise service "slap.testQuery";
      mret (addChildren res
        [leaf SLAP.complianceLevel
           (metaOrDefault service "slap.complianceLevel" (Some "full"));
         leaf SSAP.dataSource (metaChild (Some dataSource));
         node SSAP.testQuery [leaf SSAP.queryDataCmd (CStr testQuery)]])
  | UseTAPCapabilityMaker => TAPCapabilityMaker_makeCapability self publication
  | UseRegistryCapabilityMaker =>
      res ← CapabilityMaker_makeCapability self publication;
      mret (addChild res (leaf VOG.maxRecords (CStr (strN oaipmhPageSize))))
  | UseEditionCapabilityMaker =>
      res ← CapabilityMaker_makeCapability self publication;
      sources ← mapM (λ su,
          w ← call (new VOR.WebBrowser) [("role", Some "source")];
          mret (CElem (addChild w (leaf VOR.accessURL (CStr (getContent su))))))
        (iterMeta (pub_meta publication) "sourceURL" false);
      let res := addChild res (CSeq sources) in
      languageCode ← getMetaText (pub_meta publication) "languageCode" (Some "en") true;
      locTitle ← getMetaText (pub_meta publication) "locTitle" None true;
      mret (addChildren res
        [leaf DOC.languageCode (optChild languageCode);
         leaf DOC.locTitle (optChild locTitle)])
  end.

(** The subclasses of [CapabilityMaker] in the order the module defines
    them. *)
Definition capabilityMakerClasses : list CapabilityMaker :=
  [PlainCapabilityMaker; APICapabilityMaker; SIACapabilityMaker;
   SIAV2CapabilityMaker; SCSCapabilityMaker; SSACapabilityMaker;
   SLAPCapabilityMaker; TAPCapabilityMaker; RegistryCapabilityMaker;
   VOSICapabilityMaker; VOSIAvCapabilityMaker; VOSICapCapabilityMaker;
   VOSITMCapabilityMaker; ExamplesCapabilityMaker; HiPSCapabilityMaker;
   SOAPCapabilityMaker; FormCapabilityMaker; QPCapabilityMaker;
   ExternalCapabilityMaker; StaticCapabilityMaker; VolatileCapabilityMaker;
   CustomCapabilityMaker; JPEGCapabilityMaker; FixedCapabilityMaker;
   DocformCapabilityMaker; ProductCapabilityMaker; DatalinkCapabilityMaker;
   SODACapabilityMaker; SODAAsyncCapabilityMaker; EditionCapabilityMaker].

Definition capabilityRegistry : gmap (option string) CapabilityMaker :=
  buildRegistry cm_renderer capabilityMakerClasses.

Definition _getCapabilityMaker (name : string) : Result CapabilityMaker :=
  resolve capabilityRegistry None name.

Definition getAuxiliaryCapability (publication : Publication)
    : Result (option Element) :=
  capMaker ← _getCapabilityMaker (render publication);
  if truthy (auxiliaryId capMaker) then
    cap ← _makeCapability CapabilityMaker_ publication;
    cap ← call cap [("standardID", auxiliaryId capMaker)];
    mret (Some cap)
  else mret None.

(** The [KeyError] of the resolver is replaced by a [ReportableError]
    (the replacement is announced to the user interface, which is not
    modelled). *)
Definition getCapabilityElement (publication : Publication)
    : Result (option Element) :=
  if auxiliary publication then getAuxiliaryCapability publication
  else
    match _getCapabilityMaker (render publication) with
    | Raise (KeyError _) =>
        Raise (ReportableError
          ("Do not know how to produce a capability for the '" +:+
           render publication +:+ "' renderer"))
    | Raise e => Raise e
    | Ok maker =>
        cap ← _makeCapability maker publication;
        mret (Some cap)
    end.

End WithExternals.
End capabilities.

(** ** The model-based builder *)

(** Modelled from the spec: [meta.ModelBasedBuilder] and [meta.stanFactory]
    are library code.  A rule is a metadata key (or none, for a group), a
    factory (or none), child rules and attribute bindings.  A keyed rule
    visits the values of its key in source order; for each value the
    content is the value's text (if not empty) followed by what the child
    rules build on the value (if anything), and the factory is called with
    the content and the attributes resolved from the value's sub-items.  A
    group rule calls its factory once with what its child rules build on the
    same container.  A factory may fail; failures that are not the meta
    store's own are re-raised as reportable errors.  The factory also
    receives the object the build was started for (the macro package the
    footprint rule looks up). *)

Module modelbuilder.

Definition Factory : Type :=
  Resob → list Content → list (string * string) → M Content.

Inductive Constructor :=
| Rule (key : option string) (factory : option Factory)
       (children : list Constructor) (attrs : list (string * string)).

(** Where keys are looked up: on the carrier the build started with
    (propagating), or on one of its values. *)
Inductive Container :=
| OnCarrier (m : MetaStore)
| OnValue (v : MetaValue).

Definition containerMeta (c : Container) (key : string) : list MetaValue :=
  match c with
  | OnCarrier m => iterMeta m key true
  | OnValue v => walk (splitKey key) (subMeta v)
  end.

Definition wrapError (e : Exc) : Exc :=
  if isUtilsError e then e else ReportableError "Invalid constructor func".

Definition wrapped {A} (m : M A) : M A :=
  tryExcept m (λ e, raise (wrapError e)).

(** The attributes a value's sub-items provide. *)
Definition moreAttrs (attrs : list (string * string)) (v : MetaValue)
    : list (string * string) :=
  omap (λ '(argName, metaKey),
          match walk (splitKey metaKey) (subMeta v) with
          | val :: _ => Some (argName, getContent val)
          | [] => None
          end) attrs.

Fixpoint buildRule (macroPackage : Resob) (c : Constructor) (container : Container)
    {struct c} : M (list Content) :=
  let 'Rule key factory children attrs := c in
  let buildAll : Container → M (list Content) :=
    (fix go (cs : list Constructor) (container : Container) : M (list Content) :=
       match cs with
       | [] => mret []
       | c' :: r =>
           x ← wrapped (buildRule macroPackage c' container);
           xs ← go r container;
           mret (x ++ xs)
       end) children in
  match key with
  | None =>
      built ← buildAll container;
      match factory with
      | Some f => x ← f macroPackage built []; mret [x]
      | None => raise (TypeError "'NoneType' object is not callable")
      end
  | Some k =>
      results ← mapM (λ v,
          childContent ← buildAll (OnValue v);
          let content :=
            (if strEq (getContent v) "" then [] else [CStr (getContent v)]) ++
            (match childContent with [] => [] | _ => [CSeq childContent] end) in
          match content with
          | [] => mret []
          | _ =>
              match factory with
              | Some f => x ← f macroPackage content (moreAttrs attrs v);
                          mret [CSeq [x]]
              | None => mret [CSeq content]
              end
          end) (containerMeta container k);
      mret (concat results)
  end.

Definition _build (macroPackage : Resob) (cs : list Constructor)
    : Container → M (list Content) :=
  (fix go (cs : list Constructor) (container : Container) : M (list Content) :=
     match cs with
     | [] => mret []
     | c' :: r =>
         x ← wrapped (buildRule macroPackage c' container);
         xs ← go r container;
         mret (x ++ xs)
     end) cs.

(** [builder.build(metaContainer)] *)
Definition build (constructors : list Constructor) (metaContainer : Resob)
    : M (list Content) :=
  _build metaContainer constructors (OnCarrier (meta metaContainer)).

(** [dict.update] on attribute dictionaries *)
Fixpoint update (d : list (string * string)) (k v : string) : list (string * string) :=
  match d with
  | [] => [(k, v)]
  | (k', v') :: r => if strEq k k' then (k', v) :: r else (k', v') :: update r k v
  end.

Definition asKeywords (d : list (string * string)) : list (string * option string) :=
  map (λ '(k, v), (k, Some v)) d.

(** [stanFactory(tag, **kwargs)] for an element class *)
Definition SF (tag : ElemClass) (kwargs : list (string * string)) : Factory :=
  λ _ args localattrs,
    let attrs :=
      match localattrs with
      | [] => kwargs
      | _ => foldl (λ d '(k, v), update d k v) localattrs kwargs
      end in
    lift (el ← call (new tag) (asKeywords attrs);
          mret (CElem (addChildren el args))).

(** [stanFactory(f)] for a function [f] returning an element; it is only
    used on group rules, which pass no attributes. *)
Definition SFcall (tag : Element) : Factory :=
  λ _ args localattrs,
    match localattrs with
    | [] => mret (CElem (addChildren tag args))
    | _ => raise (TypeError "unexpected keyword argument")
    end.

End modelbuilder.

(** ** [common] *)

Module common.
Section WithExternals.
Context `{E : Externals}.

Definition getResType (resob : Resob) : Result string :=
  res ← getMetaText (meta resob) "resType" None true;
  mret (default (resType resob) res).

Definition getDependencies (rdId : string) : Result (list string) :=
  queryDependencies rdId.

End WithExternals.
End common.

(** ** [servicelist]: the service list *)

Module servicelist.

(** A row of the [dc.sets] table, as far as [getSets] reads it. *)
Record SetRecord := mkSetRecord {
  sr_setName : string;
  sr_sourceRD : string;
  sr_resId : string
}.

(** [d.setdefault(k, []).append(v)]; the dictionary keeps its keys in the
    order they were first entered. *)
Fixpoint setdefaultAppend {V} (k : string) (v : V) (d : list (string * list V))
    : list (string * list V) :=
  match d with
  | [] => [(k, [v])]
  | (k', vs) :: r =>
      if strEq k k' then (k', vs ++ [v]) :: r
      else (k', vs) :: setdefaultAppend k v r
  end.

(** One of the dictionaries [getSets] returns. *)
Record SetInfo := mkSetInfo {
  si_setName : string;
  si_services : list (string * string)
}.

(** [getSets()], from what the query on the sets table returns. *)
Definition getSets (setsTable : list SetRecord) : list SetInfo :=
  let setMembers :=
    foldl (λ setMembers rec,
             setdefaultAppend (sr_setName rec) (sr_sourceRD rec, sr_resId rec)
               setMembers)
          [] setsTable in
  map (λ '(key, value), mkSetInfo key value) setMembers.

(** [sep in s] for a one-character separator *)
Fixpoint contains (sep : ascii) (s : string) : bool :=
  match s with
  | EmptyString => false
  | String c r => Ascii.eqb c sep || contains sep r
  end.

Definition basename (tableName : string) : string :=
  if contains "." tableName
  then List.last (splitOn "." tableName "") ""
  else tableName.

End servicelist.

(** ** [nonservice]: resources that are not services *)

Module nonservice.

(** The database row a deleted resource is rebuilt from; the time stamp
    is kept as the text the meta item holds. *)
Record ResTuple := mkResTuple {
  rt_ivoid : string;
  rt_sourceRD : string;
  rt_resId : string;
  rt_recTimestamp : string
}.

(** [DeletedResource] after [completeElement]: the descriptor is a
    stand-in that only has a [sourceId], the identifier and the status are
    computed meta items, the time stamp is set from the row.  There is no
    meta parent. *)
Definition DeletedResource (resTuple : ResTuple) : Resob :=
  mkResob IsDeletedResource (rt_resId resTuple)
    (mkRD (rt_sourceRD resTuple) "" (mkMetaStore [] []))
    "deleted" None
    (mkMetaStore
       [("_metadataUpdated", [MV (rt_recTimestamp resTuple) []]);
        ("status", [MV "deleted" []]);
        ("identifier", [MV (rt_ivoid resTuple) []])]
       [])
    [].

End nonservice.

(** ** [builders]: resource records *)

Module builders.
Import modelbuilder.
Section WithExternals.
Context `{E : Externals}.

(** The module-level switch disabling the lenient error handling. *)
Variable VALIDATING : bool.

Definition _defaultSet : list string := ["ivo_managed"].

Definition rule (key : string) (factory : Factory) : Constructor :=
  Rule (Some key) (Some factory) [] [].

Definition firstText (children : list Content) : Result string :=
  match children with
  | CStr s :: _ => Ok s
  | [] => Raise IndexError
  | _ => Raise (TypeError "not a string")
  end.

Definition _build_source : Factory := λ _ children localattrs,
  lift (src ← firstText children;
        el ← call (new VOR.source)
               (if couldBeABibcode src then [("format", Some "bibcode")] else []);
        mret (CElem (addChild el (CStr src)))).

Definition _build_dateFromNews : Factory := λ _ children localattrs,
  let date := default "" (list_to_map (M := gmap string string) localattrs !! "date") in
  if dateRE_match date then
    let role :=
      default "updated" (list_to_map (M := gmap string string) localattrs !! "role") in
    lift (el ← call (new VOR.date) [("role", Some role)];
          mret (CSeq [CElem (addChild el (CStr date))]))
  else mret CNone.

Definition relationshipRule (metaName vorTerm : string) : Constructor :=
  Rule None
    (Some (SFcall (addChild (new VOR.relationship)
                     (CElem (addChild (new VOR.relationshipType) (CStr vorTerm))))))
    [Rule (Some metaName) (Some (SF VOR.relatedResource [])) [] [("ivoId", "ivoId")]]
    [].

(** [term[0].lower()+term[1:]] *)
Definition lowerFirst (term : string) : string :=
  match term with
  | EmptyString => EmptyString
  | String c r => String (lowerAscii c) r
  end.

Definition _vrResourceBuilder : list Constructor :=
  [rule "title" (SF VOR.title []);
   rule "shortName" (SF VOR.shortName []);
   rule "identifier" (SF VOR.identifier []);
   rule "doi" (λ _ args localattrs,
     lift (doi ← firstText args;
           mret (CElem (addChild (new VOR.altIdentifier) (CStr ("doi:" +:+ doi))))));
   Rule None (Some (SF VOR.curation []))
     [Rule (Some "publisher") (Some (SF VOR.publisher [])) [] [("ivoId", "ivoId")];
      Rule (Some "creator") (Some (SF VOR.creator []))
        [rule "name" (SF VOR.name []);
         rule "altIdentifier" (SF VOR.altIdentifier []);
         rule "logo" (SF VOR.logo [])] [];
      Rule (Some "contributor") (Some (SF VOR.contributor [])) [] [("ivoId", "ivoId")];
      rule "_dataUpdated" (SF VOR.date [("role", "updated")]);
      Rule (Some "date") (Some (SF VOR.date [])) [] [("role", "role")];
      Rule (Some "_news") (Some _build_dateFromNews) []
        [("role", "role"); ("date", "date")];
      rule "version" (SF VOR.version []);
      Rule (Some "contact") (Some (SF VOR.contact []))
        [Rule (Some "name") (Some (SF VOR.name [])) [] [("ivoId", "ivoId")];
         rule "address" (SF VOR.address []);
         rule "email" (SF VOR.email []);
         rule "telephone" (SF VOR.telephone [])] []] [];
   Rule None (Some (SF VOR.content []))
     ([rule "subject" (SF VOR.subject []);
       rule "description" (SF VOR.description []);
       rule "source" _build_source;
       rule "referenceURL" (SF VOR.referenceURL []);
       rule "type" (SF VOR.type []);
       rule "contentLevel" (SF VOR.contentLevel [])] ++
      map (λ '(metaName, vorTerm), relationshipRule metaName vorTerm)
        [("servedBy", "IsServedBy"); ("serviceFor", "IsServiceFor");
         ("derivedFrom", "IsDerivedFrom"); ("relatedTo", "related-to");
         ("mirrorOf", "IsIdenticalTo"); ("uses", "Cites")] ++
      map (λ term, relationshipRule (lowerFirst term) term)
        ["Cites"; "IsSupplementTo"; "IsSupplementedBy"; "IsContinuedBy";
         "Continues"; "IsNewVersionOf"; "IsPreviousVersionOf"; "IsPartOf";
         "HasPart"; "IsSourceOf"; "IsDerivedFrom"; "IsIdenticalTo";
         "IsServiceFor"; "IsServedBy"]) []].

Definition _dcBuilder : list Constructor :=
  [rule "title" (SF DC.title []);
   rule "identifier" (SF DC.identifier []);
   Rule (Some "creator") None [rule "name" (SF DC.creator [])] [];
   Rule (Some "contributor") None [rule "name" (SF DC.contributor [])] [];
   rule "description" (SF DC.description []);
   rule "language" (SF DC.language []);
   rule "rights" (SF DC.rights []);
   rule "publisher" (SF DC.publisher [])].

Definition _oaiHeaderBuilder : list Constructor :=
  [rule "identifier" (SF OAI.identifier []);
   rule "_metadataUpdated" (SF OAI.datestamp []);
   rule "sets" (SF OAI.setSpec [])].

Definition _orgMetaBuilder : list Constructor :=
  [rule "facility" (SF VOR.facility []);
   Rule (Some "instrument") (Some (SF VOR.instrument [])) []
     [("altIdentifier", "altIdentifier"); ("ivoId", "ivoId")]].

Definition _standardsMetaBuilder : list Constructor :=
  [Rule (Some "endorsedVersion") (Some (SF VSTD.endorsedVersion [])) []
     [("status", "status"); ("use", "use")];
   rule "deprecated" (SF VSTD.deprecated []);
   Rule (Some "key") (Some (SF VSTD.key []))
     [rule "name" (SF VSTD.name []);
      rule "description" (SF VSTD.description [])] []].

(** The list as it appears in the message, e.g. [['Position ICRS']]. *)
Definition reprContent (metaValue : list Content) : string :=
  "[" +:+ String.concat ", "
            (map (λ c, match c with
                       | CStr s => "'" +:+ s +:+ "'"
                       | _ => "<element>"
                       end) metaValue) +:+ "]".

Definition _stcResourceProfile : Factory := λ _ metaValue localattrs,
  match metaValue with
  | [] => mret CNone
  | first :: _ =>
      tryExcept
        (lift (src ← firstText metaValue; profile ← parseSTCS src;
               mret (CElem profile)))
        (λ exc,
           if VALIDATING then raise exc
           else
             _ ← notifyError ("Coverage profile '" +:+ reprContent metaValue +:+
                   "' bad while generating  registry (" +:+ excStr exc +:+
                   ").  It is left out.");
             mret CNone)
  end.

(** The carrier is the object the enclosing build runs for. *)
Definition _build_footprintURL : Factory := λ carrier children localattrs,
  if isService carrier then
    lift (url ← getURL carrier "coverage" true;
          el ← call (new VS.footprint) [("ivoId", Some "ivo://ivoa.net/std/moc")];
          mret (CElem (addChild el (CStr url))))
  else mret CNone.

Definition _coverageMetaBuilder : list Constructor :=
  [Rule (Some "coverage") (Some (SF VS.coverage []))
     [rule "profile" _stcResourceProfile;
      rule "spatial" (SF VS.spatial []);
      rule "temporal" (SF VS.temporal []);
      rule "spectral" (SF VS.spectral []);
      rule "spatial" _build_footprintURL;
      rule "waveband" (SF VS.waveband []);
      rule "regionOfRegard" (SF VS.regionOfRegard [])] []].

Definition getResourceArgs (resob : Resob) : Result (list (string * option string)) :=
  created ← getMetaText (meta resob) "creationDate" None true;
  updated ← getMetaText (meta resob) "_metadataUpdated" None true;
  status ← getMetaText (meta resob) "status" None true;
  mret [("created", created); ("updated", updated); ("status", status)].

(** What a record is made from: a resource object, or an element that
    has been made already and is passed through. *)
Inductive RecordSource :=
| FromElement (e : Element)
| FromResob (resob : Resob).

Definition getResourceElement (resob : RecordSource) (setNames : list string)
    (metadataMaker : Resob → list string → M Content) : M Element :=
  match resob with
  | FromElement e => mret e
  | FromResob resob =>
      status ← lift (getMetaText (meta resob) "status" None true);
      let status := if optStrEq status "deleted" then Some "deleted" else None in
      header ← lift (call (new OAI.header) [("status", status)]);
      headerContent ← build _oaiHeaderBuilder resob;
      metadata ← metadataMaker resob setNames;
      mret (addChildren (new OAI.record)
        [CElem (addChildren header headerContent);
         CElem (addChild (new OAI.metadata) metadata)])
  end.

Definition getDCMetadataElement (resob : Resob) (setNames : list string) : M Content :=
  dc ← build _dcBuilder resob;
  mret (CElem (addChildren (new OAIDC.dc) dc)).

Definition getDCResourceElement (resob : RecordSource) (setNames : list string)
    : M Element :=
  getResourceElement resob setNames getDCMetadataElement.

(** The handlers of the record loop.  The first formats the message from
    [resob.rd.sourceId] and [resob.id], which a passed-through element
    does not have. *)
Definition recordFailed (resob : RecordSource) (exc : Exc) : M unit :=
  match exc with
  | NoMetaKey _ =>
      match resob with
      | FromResob r =>
          notifyError ("Cannot create registry record for " +:+ sourceId (rd r) +:+
            "#" +:+ id r +:+ " because mandatory meta " +:+ excStr exc +:+
            " is missing")
      | FromElement _ => raise (AttributeError "rd")
      end
  | _ =>
      notifyError ("Cannot create registry record " +:+
        match resob with
        | FromResob r => reprResob r
        | FromElement e => "<" +:+ elemName e +:+ ">"
        end +:+ ".  Reason: " +:+ excStr exc)
  end.

Fixpoint addRecords (makeRecord : RecordSource → list string → M Element)
    (setNames : list string) (recs : Element) (resobs : list RecordSource)
    : M Element :=
  match resobs with
  | [] => mret recs
  | resob :: rest =>
      recs ← tryExcept
               (rec ← makeRecord resob setNames;
                mret (addChild recs (CElem rec)))
               (λ exc, _ ← recordFailed resob exc; mret recs);
      addRecords makeRecord setNames recs rest
  end.

Definition getDCListRecordsElement (resobs : list RecordSource)
    (setNames : list string)
    (makeRecord : RecordSource → list string → M Element) : M Element :=
  addRecords makeRecord setNames (new OAI.ListRecords) resobs.

Definition getDCGetRecordElement (resob : RecordSource) : M Element :=
  rec ← getDCResourceElement resob _defaultSet;
  mret (addChild (new OAI.GetRecord) (CElem rec)).

(** [getListSetsElement()], from the content of the sets table. *)
Definition getListSetsElement (setsTable : list servicelist.SetRecord) : Element :=
  addChild (new OAI.ListSets)
    (CSeq (map (λ set,
             CElem (addChildren (new OAI.set)
               [CElem (addChild (new OAI.setSpec) (CStr (servicelist.si_setName set)));
                CElem (addChild (new OAI.setName) (CStr (servicelist.si_setName set)))]))
           (servicelist.getSets setsTable))).

(** *** Resource makers *)

Inductive MakeResource :=
| UseResourceMaker
| UseServiceResourceMaker
| UseDataServiceResourceMaker
| UseCatalogServiceResourceMaker
| UseRegistryResourceMaker
| UseOrgResourceMaker
| UseAuthResourceMaker
| UseStandardsResourceMaker
| UseDeletedResourceMaker
| UseTableResourceMaker
| UseDataResourceMaker.

(** A resource maker class: its name, its class variables and its
    [_makeResource] method. *)
Record ResourceMaker := mkResourceMaker {
  rm_class : string;
  rm_resType : option string;
  resourceClass : ElemClass;
  rm_method : MakeResource
}.

Definition ServiceResourceMaker :=
  mkResourceMaker "ServiceResourceMaker" (Some "nonTabularService") VS.DataService
    UseServiceResourceMaker.
Definition DataServiceResourceMaker :=
  mkResourceMaker "DataServiceResourceMaker" (Some "dataService") VS.DataService
    UseDataServiceResourceMaker.
Definition CatalogServiceResourceMaker :=
  mkResourceMaker "CatalogServiceResourceMaker" (Some "catalogService")
    VS.CatalogService UseCatalogServiceResourceMaker.
Definition RegistryResourceMaker :=
  mkResourceMaker "RegistryResourceMaker" (Some "registry") VOG.Resource
    UseRegistryResourceMaker.
Definition OrgResourceMaker :=
  mkResourceMaker "OrgResourceMaker" (Some "organization") VOR.Organisation
    UseOrgResourceMaker.
Definition AuthResourceMaker :=
  mkResourceMaker "AuthResourceMaker" (Some "authority") VOG.Authority
    UseAuthResourceMaker.
Definition StandardsResourceMaker :=
  mkResourceMaker "StandardsResourceMaker" (Some "standard") VSTD.Standard
    UseStandardsResourceMaker.
Definition DocResourceMaker :=
  mkResourceMaker "DocResourceMaker" (Some "document") DOC.Document
    UseCatalogServiceResourceMaker.
Definition DeletedResourceMaker :=
  mkResourceMaker "DeletedResourceMaker" (Some "deleted") RI.Resource
    UseDeletedResourceMaker.
Definition DataCollectionResourceMaker :=
  mkResourceMaker "DataCollectionResourceMaker" None VS.CatalogResource
    UseResourceMaker.
Definition TableResourceMaker :=
  mkResourceMaker "TableResourceMaker" (Some "table") VS.CatalogResource
    UseTableResourceMaker.
Definition DataResourceMaker :=
  mkResourceMaker "DataResourceMaker" (Some "data") VS.CatalogResource
    UseDataResourceMaker.

(** Loads the descriptors the resource's descriptor depends on; the
    dependency list is looked up once per descriptor and kept. *)
Definition _loadDependencies (resob : Resob) : M unit :=
  cached ← getCached (sourceId (rd resob));
  deps ← match cached with
         | None =>
             deps ← lift (common.getDependencies (sourceId (rd resob)));
             _ ← setCached (sourceId (rd resob)) deps;
             mret deps
         | Some deps => mret deps
         end;
  _ ← lift (mapM getRD deps);
  mret tt.

(** [resob.getPublicationsForSet(setNames)]: defined in [nonservice] for
    resource records, library code for the other classes. *)
Definition getPublicationsForSet (resob : Resob) (names : list string)
    : list Publication :=
  match kind resob with
  | IsResRec _ => filter (λ pub, intersects (sets pub) names = true) (publications resob)
  | _ => servicePublicationsForSet resob names true
  end.

Definition capabilitiesFor (resob : Resob) (setNames : list string) : Result Content :=
  caps ← mapM capabilities.getCapabilityElement (getPublicationsForSet resob setNames);
  mret (CSeq (map (λ c, match c with Some e => CElem e | None => CNone end) caps)).

(** [ResourceMaker._makeResource] *)
Definition ResourceMaker_makeResource (self : ResourceMaker) (resob : Resob)
    (setNames : list string) : M Element :=
  _ ← _loadDependencies resob;
  args ← lift (getResourceArgs resob);
  res ← lift (call (new (resourceClass self)) args);
  validationLevel ← lift (call (new VOR.validationLevel)
      [("validatedBy", Some (strMeta (getMeta (meta resob) "validatedBy" true)))]);
  vr ← build _vrResourceBuilder resob;
  mret (setPrefix "ri" (addChildren res
    [CElem (addChild validationLevel
              (metaChild (getMeta (meta resob) "validationLevel" true)));
     CSeq vr])).

Definition _rightsBuilder : list Constructor :=
  [Rule (Some "rights") (Some (SF VOR.rights [])) [] [("rightsURI", "rightsURI")]].

(** [ServiceResourceMaker._makeResource] *)
Definition ServiceResourceMaker_makeResource (self : ResourceMaker) (service : Resob)
    (setNames : list string) : M Element :=
  res ← ResourceMaker_makeResource self service setNames;
  rights ← build _rightsBuilder service;
  let res := addChildren res rights in
  caps ← lift (capabilitiesFor service setNames);
  mret (addChild res caps).

(** [DataServiceResourceMaker._makeResource] *)
Definition DataServiceResourceMaker_makeResource (self : ResourceMaker)
    (service : Resob) (setNames : list string) : M Element :=
  res ← ServiceResourceMaker_makeResource self service setNames;
  org ← build _orgMetaBuilder service;
  coverage ← build _coverageMetaBuilder service;
  mret (addChildren res [CSeq org; CSeq coverage]).

(** [CatalogServiceResourceMaker._makeResource] *)
Definition CatalogServiceResourceMaker_makeResource (self : ResourceMaker)
    (service : Resob) (setNames : list string) : M Element :=
  res ← DataServiceResourceMaker_makeResource self service setNames;
  ts ← lift (tableset.getTablesetForService service VS.tableset false);
  mret (addChild res (CElem ts)).

Definition _registryMetaBuilder : list Constructor :=
  [rule "managedAuthority" (SF VOG.managedAuthority [])].

(** The [schemas] the two data collection makers pass: a list of pairs
    of a descriptor and a list of tables, or the single pair of a
    descriptor and a set of tables. *)
Inductive Schemas :=
| SchemaLists (schemas : list (RD * list TableDef))
| SchemaSet (rd : RD) (tables : list TableDef).

(** [DataCollectionResourceMaker._makeTableset] *)
Definition _makeTableset (schemas : Schemas) : Result Element :=
  match schemas with
  | SchemaLists schemas =>
      tableset.getTablesetForSchemaCollection schemas VS.tableset false
  | SchemaSet rd tables =>
      tableset.getTablesetForSchemaSet rd tables VS.tableset false
  end.

(** [DataCollectionResourceMaker._makeResourceForSchemas] *)
Definition _makeResourceForSchemas (self : ResourceMaker) (metaCarrier : Resob)
    (schemas : Schemas) (setNames : list string) : M Element :=
  res ← ResourceMaker_makeResource self metaCarrier setNames;
  caps ← lift (capabilitiesFor metaCarrier setNames);
  org ← build _orgMetaBuilder metaCarrier;
  coverage ← build _coverageMetaBuilder metaCarrier;
  ts ← lift (_makeTableset schemas);
  mret (addChildren res [caps; CSeq org; CSeq coverage; CElem ts]).

(** The dispatch on the class's method; a deleted resource has no
    metadata body.  [DataResourceMaker] passes the set
    [set(dd.iterTableDefs())] of the descriptor's tables. *)
Definition _makeResource (self : ResourceMaker) (resob : Resob)
    (setNames : list string) : M Content :=
  match rm_method self with
  | UseResourceMaker => CElem <$> ResourceMaker_makeResource self resob setNames
  | UseServiceResourceMaker =>
      CElem <$> ServiceResourceMaker_makeResource self resob setNames
  | UseDataServiceResourceMaker =>
      CElem <$> DataServiceResourceMaker_makeResource self resob setNames
  | UseCatalogServiceResourceMaker =>
      CElem <$> CatalogServiceResourceMaker_makeResource self resob setNames
  | UseRegistryResourceMaker =>
      res ← ServiceResourceMaker_makeResource self resob setNames;
      full ← lift (getMetaText (meta resob) "full" (Some "false") true);
      registryMeta ← build _registryMetaBuilder resob;
      ts ← lift (tableset.getTablesetForService resob VS.tableset false);
      mret (CElem (addChildren res
        [CElem (addChild (new VOG.full) (optChild full));
         CSeq registryMeta;
         CElem ts]))
  | UseOrgResourceMaker =>
      res ← ResourceMaker_makeResource self resob setNames;
      org ← build _orgMetaBuilder resob;
      mret (CElem (addChildren res org))
  | UseAuthResourceMaker =>
      res ← ResourceMaker_makeResource self resob setNames;
      ivoId ← lift (getMetaText (meta resob) "managingOrg.ivo-id" None true);
      managingOrg ← lift (call (new VOG.managingOrg) [("ivoId", ivoId)]);
      org ← lift (getMetaText (meta resob) "managingOrg" None true);
      mret (CElem (addChild res (CElem (addChild managingOrg (optChild org)))))
  | UseStandardsResourceMaker =>
      res ← ResourceMaker_makeResource self resob setNames;
      standards ← build _standardsMetaBuilder resob;
      mret (CElem (addChildren res standards))
  | UseDeletedResourceMaker => mret (CSeq [])
  | UseTableResourceMaker =>
      match kind resob with
      | IsTableDef td _ =>
          CElem <$> _makeResourceForSchemas self resob
                      (SchemaLists [(rd resob, [td])]) setNames
      | _ => raise (AttributeError "rd")
      end
  | UseDataResourceMaker =>
      match kind resob with
      | IsDataDescriptor tds _ =>
          CElem <$> _makeResourceForSchemas self resob
                      (SchemaSet (rd resob) tds) setNames
      | _ => raise (AttributeError "iterTableDefs")
      end
  end.

(** The subclasses of [ResourceMaker] in the order the module defines
    them. *)
Definition resourceMakerClasses : list ResourceMaker :=
  [ServiceResourceMaker; DataServiceResourceMaker; CatalogServiceResourceMaker;
   RegistryResourceMaker; OrgResourceMaker; AuthResourceMaker;
   StandardsResourceMaker; DocResourceMaker; DeletedResourceMaker;
   DataCollectionResourceMaker; TableResourceMaker; DataResourceMaker].

Definition resourceRegistry : gmap (option string) ResourceMaker :=
  capabilities.buildRegistry rm_resType resourceMakerClasses.

Definition _getResourceMaker (name : string) : Result ResourceMaker :=
  capabilities.resolve resourceRegistry None name.

Definition getVORMetadataElement (resob : Resob) (setNames : list string) : M Content :=
  t ← lift (common.getResType resob);
  maker ← lift (_getResourceMaker t);
  _makeResource maker resob setNames.

Definition getVOResourceElement (resob : RecordSource) (setNames : list string)
    : M Element :=
  getResourceElement resob setNames getVORMetadataElement.

Definition getVOListRecordsElement (resobs : list RecordSource)
    (setNames : list string) : M Element :=
  getDCListRecordsElement resobs setNames getVOResourceElement.

Definition getVOGetRecordElement (resob : RecordSource) : M Element :=
  rec ← getVOResourceElement resob _defaultSet;
  mret (addChild (new OAI.GetRecord) (CElem rec)).

End WithExternals.
End builders.

(** ** [publication]: rows for the service tables *)

Module publication.
Section WithExternals.
Context `{E : Externals}.

(** [builders.VALIDATING], which the record built for checking reads. *)
Variable VALIDATING : bool.

Definition HIDDEN_RENDERERS : list string :=
  ["tableMetadata"; "availability"; "capabilities"].

Definition getManagedAuthorities : list string :=
  map getContent managedAuthorityMeta.

Definition optVal (o : option string) : PyVal :=
  match o with
  | Some s => VStr s
  | None => VNone
  end.

(** The network location of the identifier; an absent identifier parses
    to byte strings, which equal no text. *)
Definition authorityOf (ivoid : option string) : option string :=
  match ivoid with
  | Some u => Some (netloc (urlparse u))
  | None => None
  end.

Definition isManaged (auth : option string) : bool :=
  match auth with
  | Some a => bool_decide (a ∈ getManagedAuthorities)
  | None => false
  end.

(** [res.getPublicationsForSet({"ivo_managed"}, includeDatalink=False)]:
    the method of resource records takes no such keyword. *)
Definition managedPublications (res : Resob) : Result (list Publication) :=
  match kind res with
  | IsResRec _ => Raise (TypeError "unexpected keyword argument 'includeDatalink'")
  | _ => Ok (servicePublicationsForSet res ["ivo_managed"] false)
  end.

Definition makeBaseRecord (res : Resob) (keepTimestamp : bool)
    : M (gmap string PyVal) :=
  _ ← lift (validateStructure res);
  _ ← builders.getVOResourceElement VALIDATING (builders.FromResob res)
        builders._defaultSet;
  ivoid ← lift (getMetaText (meta res) "identifier" None true);
  let auth := authorityOf ivoid in
  sure ← (if bool_decide (auth = Some "x-unregistred")
          then lift (getMetaText (meta res) "i-am-sure" (Some "") true)
          else mret (Some "yes"));
  _ ← (if bool_decide (auth = Some "x-unregistred") && negb (optStrEq sure "yes")
       then
         pubs ← lift (managedPublications res);
         match pubs with
         | [] => mret tt
         | _ => raise (ReportableError ("Resource " +:+ sourceId (rd res) +:+ "#" +:+
                  id res +:+ " uses the authority x-unregistered;" +:+
                  " this is not permitted."))
         end
       else mret tt);
  _ ← (if negb (isManaged auth) then
         _ ← notifyWarning ("Skipping publication of resource with identifier " +:+
               default "None" ivoid +:+ " because we don't manage its authority");
         raise (SkipThis "Resource from non-managed authority")
       else mret tt);
  shortName ← lift (getMetaText (meta res) "shortName" None true);
  title ← lift (getMetaText (meta res) "title" None true);
  description ← lift (getMetaText (meta res) "description" None true);
  let authors :=
    String.concat "; " (map getContent (iterMeta (meta res) "creator.name" true)) in
  dateUpdated ← lift (getMetaText (meta res) "_dataUpdated" None true);
  let rec : gmap string PyVal :=
    <["dateUpdated" := optVal dateUpdated]>
    (<["authors" := VStr authors]>
    (<["description" := optVal description]>
    (<["recTimestamp" := VStr utcnow]>
    (<["deleted" := VBool false]>
    (<["title" := optVal title]>
    (<["resId" := VStr (id res)]>
    (<["sourceRD" := VStr (sourceId (rd res))]>
    (<["shortName" := optVal shortName]>
    (<["ivoid" := optVal ivoid]> ∅))))))))) in
  if keepTimestamp then
    tryExcept
      (stamp ← lift (getMetaText (meta res) "recTimestamp" None true);
       parsed ← lift (parseISODT (if truthy stamp then default "" stamp else utcnow));
       mret (<["recTimestamp" := VStr parsed]> rec))
      (λ exc, match exc with
              | NoMetaKey _ => mret rec
              | _ => raise exc
              end)
  else mret rec.

Definition iterAuthorsAndSubjects (resource : Resob) (sourceRD resId : PyVal)
    : M unit :=
  let subjects :=
    match getMeta (meta resource) "subject" true with
    | Some items => map getContent items
    | None => ["None"]
    end in
  _ ← mapM (λ subject,
        yield ("subjects",
          <["subject" := VStr subject]>
          (<["resId" := resId]> (<["sourceRD" := sourceRD]> ∅)))) subjects;
  _ ← mapM (λ authors,
        mapM (λ author,
            if negb (startswith "et al" author) then
              yield ("authors",
                <["author" := VStr author]>
                (<["resId" := resId]> (<["sourceRD" := sourceRD]> ∅)))
            else mret tt)
          (map strip (splitOn ";" (getContent authors) "")))
      (iterMeta (meta resource) "creator.name" true);
  mret tt.

Definition field (rec : gmap string PyVal) (k : string) : PyVal :=
  default VNone (rec !! k).

(** The rows for one publication of a service.  The dictionary yielded
    for the interface is the one the set rows are written into
    afterwards; rows are recorded as they are when handed out. *)
Definition iterPubRecs (service : Resob) (rec : gmap string PyVal)
    (pub : Publication) : M unit :=
  if auxiliary pub then mret tt
  else if bool_decide (render pub ∈ HIDDEN_RENDERERS) then mret tt
  else
    browseable ← tryExcept (lift (isBrowseableWith service (render pub)))
                    (λ exc, match exc with
                            | AttributeError _ => mret false
                            | _ => raise exc
                            end);
    let pubService := default service (ps_service (spec pub)) in
    accessURL ← lift (getURL pubService (render pub) false);
    referenceURL ← lift (getMetaText (meta pubService) "referenceURL" None true);
    let intfRec : gmap string PyVal :=
      <["deleted" := VBool false]>
      (<["browseable" := VBool browseable]>
      (<["referenceURL" := optVal referenceURL]>
      (<["accessURL" := VStr accessURL]>
      (<["renderer" := VStr (render pub)]>
      (<["resId" := field rec "resId"]>
      (<["sourceRD" := field rec "sourceRD"]> ∅)))))) in
    _ ← yield ("interfaces", intfRec);
    _ ← mapM (λ setName, yield ("sets", <["setName" := VStr setName]> intfRec))
          (sets pub);
    mret tt.

Definition iterSvcRecs (service : Resob) (keepTimestamp : bool) : M unit :=
  match publications service with
  | [] => mret tt
  | _ =>
      made ← tryExcept (Some <$> makeBaseRecord service keepTimestamp)
                (λ exc, match exc with
                        | SkipThis _ => mret None
                        | _ => raise exc
                        end);
      match made with
      | None => mret tt
      | Some rec =>
          let rec := <["owner" := optVal (limitTo service)]> rec in
          _ ← yield ("resources", rec);
          _ ← mapM (iterPubRecs service rec) (publications service);
          iterAuthorsAndSubjects service (field rec "sourceRD") (field rec "resId")
      end
  end.

Definition iterResRecs (res : Resob) (keepTimestamp : bool) : M unit :=
  made ← tryExcept (Some <$> makeBaseRecord res keepTimestamp)
            (λ exc, match exc with
                    | SkipThis _ => mret None
                    | _ => raise exc
                    end);
  match made with
  | None => mret tt
  | Some rec =>
      let rec := <["renderer" := VStr "rcdisplay"]>
                 (<["setName" := VStr "ivo_managed"]> rec) in
      _ ← yield ("resources", rec);
      _ ← yield ("sets", rec);
      iterAuthorsAndSubjects res (field rec "sourceRD") (field rec "resId")
  end.

Definition registrationSets (res : Resob) : Result (list string) :=
  match kind res with
  | IsTableDef _ s | IsDataDescriptor _ s => Ok s
  | _ => Raise (AttributeError "registration")
  end.

(** The rows of one set of a registered table or data descriptor, given
    the record as the earlier sets left it. *)
Definition iterDataSetRecs (res : Resob) (rec : gmap string PyVal)
    (setName : string) : M (gmap string PyVal) :=
  let rec := <["renderer" := VStr "rcdisplay"]>
             (<["setName" := VStr setName]> rec) in
  _ ← yield ("sets", rec);
  _ ← (if strEq setName "local" then
         refURL ← lift (getMetaText (meta res) "referenceURL" None true);
         yield ("interfaces",
           <["deleted" := VBool false]>
           (<["browseable" := VBool false]>
           (<["referenceURL" := optVal refURL]>
           (<["accessURL" := if truthy refURL
                             then VStr (default "" refURL +:+ "?tapinfo=True")
                             else VNone]>
           (<["renderer" := VStr "rcdisplay"]>
           (<["resId" := field rec "resId"]>
           (<["sourceRD" := field rec "sourceRD"]> ∅)))))))
       else mret tt);
  mret rec.

Fixpoint iterDataSets (res : Resob) (rec : gmap string PyVal)
    (setNames : list string) : M unit :=
  match setNames with
  | [] => mret tt
  | setName :: rest =>
      rec ← iterDataSetRecs res rec setName;
      iterDataSets res rec rest
  end.


(** [ivoid.split("/")[-1] or "<empty>"] *)
Definition fakeId (ivoid : string) : string :=
  match List.last (splitOn "/" ivoid "") "" with
  | EmptyString => "<empty>"
  | s => s
  end.

(** [makeDeletedRecord]: the rows added to the resources and the sets
    table to mark [ivoid] as deleted. *)
Definition makeDeletedRecord (ivoid : string) : list Row :=
  [("resources",
    <["authors" := VStr ""]>
    (<["ivoid" := VStr ivoid]>
    (<["deleted" := VBool true]>
    (<["recTimestamp" := VStr utcnow]>
    (<["dateUpdated" := VStr utcnow]>
    (<["owner" := VNone]>
    (<["description" := VStr ("This is a sentinel for a record once published" +:+
                              " by this registry but now dropped.")]>
    (<["title" := VStr ("Ex " +:+ ivoid)]>
    (<["shortName" := VStr "deleted"]>
    (<["resId" := VStr (fakeId ivoid)]>
    (<["sourceRD" := VStr "deleted"]> ∅)))))))))));
   ("sets",
    <["deleted" := VBool true]>
    (<["renderer" := VStr "custom"]>
    (<["setName" := VStr "ivo_managed"]>
    (<["resId" := VStr (fakeId ivoid)]>
    (<["sourceRD" := VStr "deleted"]> ∅)))))].

End WithExternals.
End publication.

(** ** What the statements below read off a tree or a world *)

(** The values of the [mirrorURL] and [accessURL] children of an
    interface element. *)
Definition mirrorURLValues (interface : Element) : list string :=
  flat_map textOf (childrenNamed "mirrorURL" interface).

Definition accessURLValues (interface : Element) : list string :=
  flat_map textOf (childrenNamed "accessURL" interface).

(** The text of the children with a given name. *)
Definition valuesNamed (n : string) (l : list (string + Element)) : list string :=
  flat_map textOf
    (filter (λ x, elemName x = n)
       (omap (λ ch, match ch with inr x => Some x | inl _ => None end) l)).

(** Children that are neither access nor mirror URLs. *)
Definition noURLs (l : list (string + Element)) : Prop :=
  Forall (λ ch, match ch with
                | inl _ => True
                | inr x => elemName x ≠ "accessURL" ∧ elemName x ≠ "mirrorURL"
                end) l.

(** Setting attributes or adding children that are no URLs leaves the
    class and the URL values of an interface as they are. *)
Definition sameInterface (i i' : Element) : Prop :=
  elemClass i' = elemClass i ∧
  accessURLValues i' = accessURLValues i ∧
  mirrorURLValues i' = mirrorURLValues i.

(** The table names of a sequence of rows. *)
Definition tables (rows : list Row) : list string := map fst rows.

(** The world after one more notification. *)
Definition notified (n : Notice) (w : World) : World :=
  mkWorld (depCache w) (sink w ++ [n]) (emitted w).

(** The dependencies [_loadDependencies] will work with in a world: the
    cached ones, or what the database says. *)
Definition effectiveDependencies `{E : Externals} (w : World) (rdId : string)
    : Result (list string) :=
  match depCache w !! rdId with
  | Some deps => Ok deps
  | None => queryDependencies rdId
  end.

(** Worlds that differ only in what cannot influence a build: the
    notifications, the rows handed out, and cache entries that repeat the
    database. *)
Definition sameConfiguration `{E : Externals} (w w' : World) : Prop :=
  ∀ rdId, effectiveDependencies w rdId = effectiveDependencies w' rdId.

(** A computation is steady when, run in two worlds of the same
    configuration, it gives the same result, and when it leaves the
    configuration and the rows handed out as they were. *)
Definition Steady `{E : Externals} {A} (c : M A) : Prop :=
  ∀ w w', sameConfiguration w w' →
    (c w).1 = (c w').1 ∧
    sameConfiguration (c w).2 w' ∧
    emitted (c w).2 = emitted w.

(** Rules all of whose factories are steady. *)
Fixpoint SteadyRule `{E : Externals} (c : modelbuilder.Constructor) : Prop :=
  let 'modelbuilder.Rule _ factory children _ := c in
  match factory with
  | Some f => ∀ macroPackage args attrs, Steady (f macroPackage args attrs)
  | None => True
  end ∧
  (fix all (cs : list modelbuilder.Constructor) : Prop :=
     match cs with
     | [] => True
     | c' :: r => SteadyRule c' ∧ all r
     end) children.


(** The error reported for a coverage profile that does not parse. *)
Definition profileReport (src : string) (exc : Exc) : Notice :=
  NotifyError ("Coverage profile '" +:+ builders.reprContent [CStr src] +:+
    "' bad while generating  registry (" +:+ excStr exc +:+ ").  It is left out.").

(** A run of the record loop: the records that were built, in order, and
    the notification made for each record that failed. *)
Inductive RecordLoop `{E : Externals}
    (makeRecord : builders.RecordSource → list string → M Element)
    (setNames : list string)
    : World → list builders.RecordSource → list Element → list Notice → World → Prop :=
| RecordLoop_done w :
    RecordLoop makeRecord setNames w [] [] [] w
| RecordLoop_built w resob rest rec w1 recs notices w2 :
    makeRecord resob setNames w = (Ok rec, w1) →
    RecordLoop makeRecord setNames w1 rest recs notices w2 →
    RecordLoop makeRecord setNames w (resob :: rest) (rec :: recs) notices w2
| RecordLoop_failed w resob rest exc w1 msg recs notices w2 :
    makeRecord resob setNames w = (Raise exc, w1) →
    RecordLoop makeRecord setNames (notified (NotifyError msg) w1) rest recs notices w2 →
    RecordLoop makeRecord setNames w (resob :: rest) recs
      (NotifyError msg :: notices) w2.

(** ** What the further statements read off

    Readers of the trees and rows that the properties below speak about;
    none of them is part of the program. *)

Section Readers.
Context `{E : Externals}.

(** The child elements with a given name. *)
Definition elementsNamed (n : string) (l : list (string + Element)) : list Element :=
  filter (λ x, elemName x = n)
    (omap (λ ch, match ch with inr x => Some x | inl _ => None end) l).

(** The text of the [name] children of an element. *)
Definition nameOf (e : Element) : list string := valuesNamed "name" (elemChildren e).

(** The table elements of a table set, over all of its schemas, and
    their names. *)
Definition tableElements (ts : Element) : list Element :=
  flat_map (childrenNamed "table") (childrenNamed "schema" ts).

Definition tableNames (ts : Element) : list string := flat_map nameOf (tableElements ts).

(** The target tables of the foreign keys of a table set. *)
Definition foreignKeyTargets (ts : Element) : list string :=
  flat_map (λ t, flat_map (λ fk, valuesNamed "targetTable" (elemChildren fk))
                   (childrenNamed "foreignKey" t))
    (tableElements ts).

Definition schemaNames (ts : Element) : list string :=
  flat_map nameOf (childrenNamed "schema" ts).

Definition columnNames (t : Element) : list string :=
  flat_map nameOf (childrenNamed "column" t).

(** The flags of a column element. *)
Definition flagsOf (c : Element) : list string := valuesNamed "flag" (elemChildren c).

(** The name and the flags [getTableColumnFromColumn] computes. *)
Definition effectiveColumnName (column : Column) : string :=
  if col_isQuotedName column then col_name column else lower (col_name column).

Definition columnFlags (column : Column) : list string :=
  (if col_isIndexed column then ["indexed"] else []) ++
  (if col_isPrimary column then ["primary"]
   else if negb (col_required column) then ["nullable"] else []).

(** The foreign key element, if the target is in the table set. *)
Definition foreignKeyElement (fk : ForeignKey) (namesInSet : gset string)
    : option Element :=
  match tableset.getForeignKeyForForeignKey fk namesInSet with
  | CElem e => Some e
  | _ => None
  end.

Definition visibleColumns (td : TableDef) : list Column :=
  filter (λ col, col_hidden col = false) (td_columns td).

(** The schemas a table set is made from: the ones given, with the
    obscore stand-in added if a table is published through obscore. *)
Definition finalSchemas (schemas : list (RD * list TableDef))
    : list (RD * list TableDef) :=
  if existsb td_obscoreClause (flat_map snd schemas)
  then tableset.addObscore schemas else schemas.

(** The names against which foreign keys are tested. *)
Definition namesOf (schemas : list (RD * list TableDef)) : gset string :=
  list_to_set (map (λ td, lower (tableset.getEffectiveTableName td))
                 (flat_map snd schemas)).

(** The order of Python's string comparison, on the characters' codes. *)
Definition lebs (a b : string) : Prop := String.leb a b = true.

Definition sorted_strings (l : list string) : Prop :=
  Sorted (λ a b, String.leb a b = true) l.

(** The names of the endpoints of a DALI interface. *)
Definition endpointNames (interface : Element) : list string :=
  flat_map nameOf (childrenNamed "endpoint" interface).

(** The text of a meta item, or of its default. *)
Definition metaTexts (m : MetaStore) (key : string) (d : list string) : list string :=
  match getMeta m key true with
  | Some l => map getContent l
  | None => d
  end.

(** The elements a rule without children and attributes makes of the
    values of its key: one per value with text. *)
Definition leaves (tag : ElemClass) (values : list MetaValue) : list Element :=
  map (λ v, Elem tag (ec_declared tag) [inl (getContent v)])
    (filter (λ v, getContent v ≠ "") values).

(** The children of the header of a record. *)
Definition headerChildren (resob : Resob) : list Element :=
  leaves OAI.identifier (iterMeta (meta resob) "identifier" true) ++
  leaves OAI.datestamp (iterMeta (meta resob) "_metadataUpdated" true) ++
  leaves OAI.setSpec (iterMeta (meta resob) "sets" true).

(** What every resource document has: the forced prefix and the three
    attributes from the resource's metadata. *)
Definition resourceDocument (resob : Resob) (doc : Element) : Prop :=
  ec_prefix (elemClass doc) = "ri" ∧
  Ok (getAttr "created" doc) = getMetaText (meta resob) "creationDate" None true ∧
  Ok (getAttr "updated" doc) = getMetaText (meta resob) "_metadataUpdated" None true ∧
  Ok (getAttr "status" doc) = getMetaText (meta resob) "status" None true.

(** The members of a set among the rows of the sets table, in the
    table's order. *)
Definition membersOf (setName : string) (setsTable : list servicelist.SetRecord)
    : list (string * string) :=
  map (λ rec, (servicelist.sr_sourceRD rec, servicelist.sr_resId rec))
    (filter (λ rec, servicelist.sr_setName rec = setName) setsTable).

Definition setNamesOf (sets : list servicelist.SetInfo) : list string :=
  map servicelist.si_setName sets.

(** The world after more rows were handed out. *)
Definition emit (rows : list Row) (w : World) : World :=
  mkWorld (depCache w) (sink w) (emitted w ++ rows).

(** The rows of the subjects and the authors table. *)
Definition subjectRow (sourceRD resId : PyVal) (subject : string) : Row :=
  ("subjects",
   <["subject" := VStr subject]> (<["resId" := resId]> (<["sourceRD" := sourceRD]> ∅))).

Definition authorRow (sourceRD resId : PyVal) (author : string) : Row :=
  ("authors",
   <["author" := VStr author]> (<["resId" := resId]> (<["sourceRD" := sourceRD]> ∅))).

(** The pieces between the semicolons of the creator names, stripped. *)
Definition creatorNames (resource : Resob) : list string :=
  flat_map (λ authors, map strip (splitOn ";" (getContent authors) ""))
    (iterMeta (meta resource) "creator.name" true).

(** The row for a set of a registered table or data descriptor, and the
    interface row that the set [local] adds. *)
Definition dataSetRow (rec : gmap string PyVal) (setName : string) : Row :=
  ("sets", <["renderer" := VStr "rcdisplay"]> (<["setName" := VStr setName]> rec)).

Definition tapinfoRow (rec : gmap string PyVal) (refURL : option string) : Row :=
  ("interfaces",
   <["deleted" := VBool false]>
   (<["browseable" := VBool false]>
   (<["referenceURL" := publication.optVal refURL]>
   (<["accessURL" := if truthy refURL
                     then VStr (default "" refURL +:+ "?tapinfo=True")
                     else VNone]>
   (<["renderer" := VStr "rcdisplay"]>
   (<["resId" := publication.field rec "resId"]>
   (<["sourceRD" := publication.field rec "sourceRD"]> ∅))))))).

(** The rules of a coverage item that come after the profile rule. *)
Definition afterProfile : list modelbuilder.Constructor :=
  match builders._coverageMetaBuilder false with
  | [modelbuilder.Rule _ _ (_ :: rest) _] => rest
  | _ => []
  end.

(** The coverage element made of a coverage item's text and of what the
    rules after the profile rule gave. *)
Definition coverageWithout (v : MetaValue) (xs : list Content) : Element :=
  Elem VS.coverage (ec_declared VS.coverage)
    ((if strEq (getContent v) "" then [] else [inl (getContent v)]) ++ flattenAll xs).

End Readers.

(** ** A small installation, for running the definitions

    Stand-ins for the external collaborators (a simplistic URL parser, a
    protocol switch between [http://] and [https://], fixed configuration
    values) and a handful of resources. *)

Module sample.

Definition splitFirst (sep s : string) : option (string * string) :=
  match String.index 0 sep s with
  | Some i =>
      Some (String.substring 0 i s,
            String.substring (i + String.length sep)
              (String.length s - i - String.length sep) s)
  | None => None
  end.

Definition cutAt (sep s : string) : string * string :=
  match splitFirst sep s with
  | Some (a, b) => (a, b)
  | None => (s, "")
  end.

Definition parse (url : string) : ParseResult :=
  let '(url, fragment) := cutAt "#" url in
  let '(url, query) := cutAt "?" url in
  match splitFirst "://" url with
  | Some (scheme, rest) =>
      match splitFirst "/" rest with
      | Some (netloc, path) => mkParseResult scheme netloc ("/" +:+ path) "" query fragment
      | None => mkParseResult scheme rest "" "" query fragment
      end
  | None => mkParseResult "" "" url "" query fragment
  end.

Definition unsplit (scheme netloc path query fragment : string) : string :=
  scheme +:+ "://" +:+ netloc +:+
  (if startswith "/" path then path else "/" +:+ path) +:+
  (if strEq query "" then "" else "?" +:+ query) +:+
  (if strEq fragment "" then "" else "#" +:+ fragment).

Definition switch (url : option string) : Result string :=
  match url with
  | None => Raise (AttributeError "startswith")
  | Some u =>
      if startswith "http://dc.example.org" u then
        Ok ("https://" +:+ String.substring 7 (String.length u - 7) u)
      else if startswith "https://dc.example.org" u then
        Ok ("http://" +:+ String.substring 8 (String.length u - 8) u)
      else Raise (ValueError "Cannot switch protocol")
  end.

Definition parseProfile (src : string) : Result Element :=
  if startswith "Position" src then
    Ok (addChild (new (cls "stc" "STCResourceProfile" [])) (CStr src))
  else Raise (OtherException ("Expected coordinate phrase in " +:+ src)).

Definition obscore : RD :=
  mkRD "__system__/obscore" "ivoa"
    (mkMetaStore [("title", [MV "Obscore" []])] []).

(** The input keys of the sample services: the line catalogue takes a
    position, a line name and an uploaded file, the others nothing. *)
Definition inputKeys (r : Resob) : list Column :=
  if strEq (id r) "cat" then
    [mkColumn "POS" false (Some "Position") (Some "deg") (Some "pos.eq") None
       "text" None true false false false false [];
     mkColumn "line" false (Some "Name of the line") None None None
       "text" None false false false false false [];
     mkColumn "spectrum" false (Some "A spectrum to compare with") None None None
       "file" None false false false false false []]
  else [].

(** The upload key that stands in for a file key. *)
Definition uploadKey (c : Column) : Column :=
  mkColumn "UPLOAD" false (col_description c) None None None
    "pql-upload" None true false false false false [].

Definition externals (alternative : bool) (managed : list string) : Externals :=
  {| urlparse := parse;
     urlunsplit := unsplit;
     longToShort := {["lspec/q/ssa/ssap.xml" := "ssap"]};
     getRenderer := λ name, Ok (mkRenderer name "dali");
     getInputKeysFor := λ r _, Some (inputKeys r);
     servicePublicationsForSet := λ r names _,
       filter (λ pub, intersects (sets pub) names = true) (publications r);
     getURL := λ r name _, Ok ("/" +:+ sourceId (rd r) +:+ "/" +:+ id r +:+ "/" +:+ name);
     isBrowseableWith := λ _ name, Ok (strEq name "form");
     getUploadKeyFor := uploadKey;
     sqltypeToVOTable := λ t, ("char", Some "*", None);
     registerAlternative := alternative;
     dalHardLimit := 10000000;
     dalDefaultLimit := 10000;
     oaipmhPageSize := 500;
     futureConfig := [];
     defaultLifetime := 172800;
     defaultExecTime := 3600;
     defaultMAXREC := 20000;
     hardMAXREC := 20000000;
     maxUploadSize := 20000000;
     switchProtocol := switch;
     TAP_VERSION := "1.1";
     supportedModels := Ok [];
     ufuncRegistry := [];
     getSupportedLanguages := [];
     getSupportedOutputFormats := [];
     UPLOAD_METHODS := ["upload-inline"];
     couldBeABibcode := λ _, false;
     dateRE_match := λ _, false;
     formatFloat := λ _, None;
     parseISODT := λ s, Ok s;
     utcnow := "2023-05-01T12:00:00";
     parseSTCS := parseProfile;
     queryDependencies := λ _, Ok [];
     getRD := λ _, Ok tt;
     obscoreRD := obscore;
     sitename := "Example Data Center";
     validateStructure := λ _, Ok tt;
     managedAuthorityMeta := map (λ a, MV a []) managed;
     reprResob := λ r, "<" +:+ id r +:+ ">";
     iterSet := λ tables, tables |}.

Definition world0 : World := mkWorld ∅ [] [].

Definition theRD : RD :=
  mkRD "lspec/q" "lspec"
    (mkMetaStore [("title", [MV "Line spectra" []])] []).

Definition one (key value : string) : string * list MetaValue :=
  (key, [MV value []]).

(** The items every complete resource has. *)
Definition baseMeta (ivoid title : string) : MetaTree :=
  [one "identifier" ivoid; one "title" title; one "shortName" "lspec";
   one "creationDate" "2020-01-01T00:00:00Z";
   one "_metadataUpdated" "2023-01-01T00:00:00Z";
   one "status" "active"; one "description" "Spectra of lines";
   one "subject" "spectroscopy";
   ("creator", [MV "" [one "name" "Doe, J.; Roe, R."]])].

Definition pubSpec (render : string) (sets : list string) (auxiliary : bool)
    (url : string) (more : MetaTree) : PubSpec :=
  mkPubSpec render sets auxiliary None
    (mkMetaStore (one "accessURL" url :: more) []).

Definition resource (kind : ResKind) (id resType : string) (meta : MetaTree)
    (pubs : list PubSpec) : Resob :=
  mkResob kind id theRD resType None (mkMetaStore meta []) pubs.

(** An organisation: a resource record without publications. *)
Definition organisation : Resob :=
  resource (IsResRec []) "org" "organization"
    (baseMeta "ivo://org.example/org" "The Example Organisation") [].

(** A spectral service under an authority that is not managed. *)
Definition ssaPublication : PubSpec :=
  pubSpec "ssap.xml" ["ivo_managed"] false
    "http://dc.example.org/lspec/q/ssa/ssap.xml?"
    [("mirrorURL", [MV "http://dc.example.org/ssap?" [];
                    MV "http://mirror.example.org/ssap?" []])].

Definition ssaMeta : MetaTree :=
  [("ssap", [MV "" [one "dataSource" "theory"; one "testQuery" "MAXREC=1"]])].

Definition foreignService : Resob :=
  resource (IsService []) "ssa" "catalogService"
    (baseMeta "ivo://org.elsewhere/lspec/q/ssa" "Lines" ++ ssaMeta)
    [ssaPublication].



(** The installation: the protocol-switch mirror is registered, the
    authority [org.example] is managed. *)
Definition installation : Externals := externals true ["org.example"].

(** A coverage item with a profile that does not parse. *)
Definition badCoverage : MetaValue :=
  MV "" [one "profile" "garbage"; one "waveband" "Optical"].

(** A spectral service of kind [catalogService]. *)
Definition spectra : Resob :=
  resource (IsService []) "ssa" "catalogService"
    (baseMeta "ivo://org.example/lspec/q/ssa" "Lines" ++ ssaMeta ++
     [("coverage", [badCoverage])])
    [ssaPublication].

Definition spectraSSA : Publication := mkPublication spectra ssaPublication.

(** A table published through an image service, as an auxiliary
    capability, and through a form, also marked auxiliary. *)
Definition images : Resob :=
  resource (IsTableDef (mkTableDef (Some theRD) "lspec.images" false [] [] None
                          AdqlTrue false (mkMetaStore [] []))
              ["ivo_managed"])
    "images" "table" (baseMeta "ivo://org.example/lspec/q/images" "Images")
    [pubSpec "siap.xml" ["ivo_managed"] true
       "http://dc.example.org/lspec/q/sia/siap.xml?" [];
     pubSpec "form" ["ivo_managed"] true
       "http://dc.example.org/lspec/q/sia/form" [];
     pubSpec "nosuch" ["ivo_managed"] false
       "http://dc.example.org/lspec/q/sia/nosuch" []].

Definition imagesSIA : Publication :=
  mkPublication images
    (pubSpec "siap.xml" ["ivo_managed"] true
       "http://dc.example.org/lspec/q/sia/siap.xml?" []).

Definition imagesForm : Publication :=
  mkPublication images
    (pubSpec "form" ["ivo_managed"] true "http://dc.example.org/lspec/q/sia/form" []).

Definition imagesUnknown : Publication :=
  mkPublication images
    (pubSpec "nosuch" ["ivo_managed"] false
       "http://dc.example.org/lspec/q/sia/nosuch" []).

(** A service without tables and without publications. *)
Definition emptyService : Resob :=
  resource (IsService []) "empty" "catalogService"
    (baseMeta "ivo://org.example/lspec/q/empty" "Nothing") [].

(** The spectral service with its [ssap] metadata left out: the
    capability of its publication cannot be built. *)
Definition brokenSpectra : Resob :=
  resource (IsService []) "broken" "catalogService"
    (baseMeta "ivo://org.example/lspec/q/broken" "Broken lines") [ssaPublication].

(** Two tables of the line catalogue: the first has a primary key, a
    column with a quoted name and a hidden column, and two foreign keys,
    of which one leads out of the catalogue; a table of another schema. *)
Definition lineId : Column :=
  mkColumn "line_id" false (Some "Identifier") None (Some "meta.id;meta.main") None
    "text" None false false true true true [].

Definition lineColumns : list Column :=
  [lineId;
   mkColumn "Wavelength" true None (Some "nm") None None
     "double precision" None false false false false false [];
   mkColumn "internal" false None None None None
     "integer" None false true false false true []].

Definition lines : TableDef :=
  mkTableDef (Some theRD) "lspec.Lines" false lineColumns
    [mkForeignKey "lspec.Sources" ["source_id"] ["id"];
     mkForeignKey "elsewhere.catalog" ["cat"] ["id"]]
    (Some 1200%N) AdqlTrue false (mkMetaStore [one "title" "Lines"] []).

Definition sources : TableDef :=
  mkTableDef (Some theRD) "lspec.sources" false [] [] None AdqlTrue false
    (mkMetaStore [] []).

Definition archiveRD : RD :=
  mkRD "arch/q" "arch" (mkMetaStore [one "title" "Archive"] []).

Definition plates : TableDef :=
  mkTableDef (Some archiveRD) "arch.plates" false [] [] None AdqlTrue false
    (mkMetaStore [] []).

(** The line catalogue: a service on these tables, published through
    TAP and, with the metadata that takes, as an image service. *)
Definition tapPublication : PubSpec :=
  pubSpec "dali" ["ivo_managed"; "local"] false "http://dc.example.org/tap" [].

Definition siaPublication : PubSpec :=
  pubSpec "siap.xml" ["ivo_managed"] false
    "http://dc.example.org/lspec/q/cat/siap.xml?" [].

Definition catalogue : Resob :=
  resource (IsService [lines; plates; sources]) "cat" "catalogService"
    (baseMeta "ivo://org.example/lspec/q/cat" "Line catalogue" ++
     [one "referenceURL" "http://dc.example.org/lspec/q/cat/info";
      ("sia", [MV "" [one "type" "Cutout"; one "maxFileSize" "3000000"]])])
    [tapPublication; siaPublication].

Definition catalogueTAP : Publication := mkPublication catalogue tapPublication.
Definition catalogueSIA : Publication := mkPublication catalogue siaPublication.

(** Rows of the sets table. *)
Definition setsTable : list servicelist.SetRecord :=
  [servicelist.mkSetRecord "ivo_managed" "lspec/q" "ssa";
   servicelist.mkSetRecord "local" "lspec/q" "cat";
   servicelist.mkSetRecord "ivo_managed" "lspec/q" "cat"].

End sample.

(** * Properties *)

(** ** Reasoning about the two monads *)

Lemma bind_Ok {A B} (r : Result A) (f : A → Result B) (b : B) :
  r ≫= f = Ok b → ∃ a, r = Ok a ∧ f a = Ok b.
Proof. destruct r as [a|e]; simpl; [eauto | discriminate]. Qed.

Lemma fmap_Ok {A B} (r : Result A) (f : A → B) (b : B) :
  f <$> r = Ok b → ∃ a, r = Ok a ∧ b = f a.
Proof. destruct r as [a|e]; simpl; [|discriminate]. intros [= <-]. eauto. Qed.

Lemma M_bind_Ok {A B} (c : M A) (f : A → M B) (w w' : World) (b : B) :
  (c ≫= f) w = (Ok b, w') → ∃ a w1, c w = (Ok a, w1) ∧ f a w1 = (Ok b, w').
Proof.
  unfold mbind, M_bind. destruct (c w) as [[a|e] w1]; [eauto | discriminate].
Qed.

Lemma M_bind_run {A B} (c : M A) (f : A → M B) (w w1 : World) (a : A) :
  c w = (Ok a, w1) → (c ≫= f) w = f a w1.
Proof. unfold mbind, M_bind. intros ->. reflexivity. Qed.

Lemma M_bind_raise {A B} (c : M A) (f : A → M B) (w w1 : World) (e : Exc) :
  c w = (Raise e, w1) → (c ≫= f) w = (Raise e, w1).
Proof. unfold mbind, M_bind. intros ->. reflexivity. Qed.

Lemma M_ret_Ok {A} (a b : A) (w w' : World) :
  mret (M := M) a w = (Ok b, w') → b = a ∧ w' = w.
Proof. intros [= -> ->]. auto. Qed.

Lemma lift_Ok {A} (r : Result A) (w w' : World) (a : A) :
  lift r w = (Ok a, w') → r = Ok a ∧ w' = w.
Proof. unfold lift. intros [= -> ->]. auto. Qed.

Lemma Ok_inj {A} (a b : A) : Ok a = Ok b → a = b.
Proof. by intros [= ->]. Qed.

Ltac bind_inv H :=
  repeat (let a := fresh "a" in let Ha := fresh "H" a in
          apply bind_Ok in H as (a & Ha & H)).

Ltac binds_inv :=
  repeat match goal with
         | H : mbind _ _ = Ok _ |- _ =>
             let a := fresh "a" in let Ha := fresh "H" a in
             apply bind_Ok in H as (a & Ha & H)
         | H : mret _ = Ok _ |- _ => apply Ok_inj in H as <-
         | H : Ok _ = Ok _ |- _ => apply Ok_inj in H as <-
         end.

(** ** Elements *)

Lemma valuesNamed_app n l1 l2 :
  valuesNamed n (l1 ++ l2) = valuesNamed n l1 ++ valuesNamed n l2.
Proof. unfold valuesNamed. by rewrite omap_app, filter_app, flat_map_app. Qed.

Lemma mirrorURLValues_eq e : mirrorURLValues e = valuesNamed "mirrorURL" (elemChildren e).
Proof. reflexivity. Qed.

Lemma accessURLValues_eq e : accessURLValues e = valuesNamed "accessURL" (elemChildren e).
Proof. reflexivity. Qed.

Lemma elemChildren_addChild e c :
  elemChildren (addChild e c) = elemChildren e ++ flatten c.
Proof. by destruct e. Qed.

Lemma elemClass_addChild e c : elemClass (addChild e c) = elemClass e.
Proof. by destruct e. Qed.

Lemma elemAttrs_addChild e c : elemAttrs (addChild e c) = elemAttrs e.
Proof. by destruct e. Qed.

Lemma call_inv e kw e' :
  call e kw = Ok e' →
  elemClass e' = elemClass e ∧ elemChildren e' = elemChildren e ∧
  setAttrs kw (elemAttrs e) = Ok (elemAttrs e').
Proof.
  destruct e as [c a ch]. unfold call. intros H. bind_inv H.
  injection H as <-. auto.
Qed.

Lemma elemChildren_addChildren e l :
  elemChildren (addChildren e l) = elemChildren e ++ flatten (CSeq l).
Proof. by destruct e. Qed.

Lemma elemClass_addChildren e l : elemClass (addChildren e l) = elemClass e.
Proof. by destruct e. Qed.

Lemma elemAttrs_addChildren e l : elemAttrs (addChildren e l) = elemAttrs e.
Proof. by destruct e. Qed.

Lemma flatten_cons x r : flatten (CSeq (x :: r)) = flatten x ++ flatten (CSeq r).
Proof. reflexivity. Qed.

Lemma flatten_nil : flatten (CSeq []) = [].
Proof. reflexivity. Qed.

Lemma flatten_map_CElem (l : list Element) : flatten (CSeq (map CElem l)) = map inr l.
Proof. induction l as [|x l IH]; [done|]. rewrite map_cons, flatten_cons, IH. done. Qed.

Lemma flatten_map_elements {A} (g : A → Element) (l : list A) :
  flatten (CSeq (map (λ v, CElem (g v)) l)) = map (λ v, inr (g v)) l.
Proof.
  induction l as [|x l IH]; [done|]. rewrite !map_cons, flatten_cons, IH. done.
Qed.

Lemma valuesNamed_noURLs n l :
  noURLs l → n = "accessURL" ∨ n = "mirrorURL" → valuesNamed n l = [].
Proof.
  intros Hl Hn. induction Hl as [|ch l Hch _ IH]; [done|].
  change (ch :: l) with ([ch] ++ l). rewrite valuesNamed_app, IH, app_nil_r.
  destruct ch as [s|x]; [done|]. unfold valuesNamed. simpl.
  rewrite filter_cons. destruct Hch as [Ha Hm].
  destruct (decide (elemName x = n)) as [Heq|]; [|done].
  destruct Hn; congruence.
Qed.

Section Properties.
Context `{E : Externals}.

(** ** Table sets *)

(** C10: for a service or a published data resource whose table set is
    empty, [getTablesetForService] returns a tableset element with exactly
    one child, a schema element holding just the name "default"; that
    tableset is not empty. *)
Theorem getTablesetForService_empty (resource : Resob) (rootElement : ElemClass)
    (suppressBodies : bool) :
  (kind resource = IsService [] ∨
   ∃ tds registered, kind resource = IsDataDescriptor tds registered ∧
     filter (λ td, tableset.adqlVisible td = true) tds = []) →
  ∃ ts,
    tableset.getTablesetForService resource rootElement suppressBodies = Ok ts ∧
    elemClass ts = rootElement ∧
    elemAttrs ts = ec_declared rootElement ∧
    elemChildren ts =
      [inr (Elem VS.schema [] [inr (Elem VS.name [] [inl "default"])])] ∧
    (ec_emptyRule rootElement = StdEmpty → isEmpty ts = false).
Proof.
  intros Hkind.
  assert (Htables : tableset.tablesOf resource = Ok ([], true)).
  { unfold tableset.tablesOf.
    destruct Hkind as [-> | (tds & registered & -> & ->)]; reflexivity. }
  unfold tableset.getTablesetForService. rewrite Htables. simpl.
  eexists. split; [reflexivity|]. repeat split.
  intros Hrule. unfold new, addChild. simpl. rewrite Hrule. reflexivity.
Qed.

(** ** Interfaces *)

Lemma getInputParamFromColumn_name column e :
  capabilities.getInputParamFromColumn column VS.param = Ok e → elemName e = "param".
Proof.
  unfold capabilities.getInputParamFromColumn, capabilities._getParamFromColumn.
  intros H. bind_inv H. apply call_inv in H as (Hc & _ & _).
  binds_inv. unfold elemName. rewrite Hc. reflexivity.
Qed.

Lemma mapM_Ok_Forall {A B} (f : A → Result B) (P : B → Prop) l r :
  (∀ a b, f a = Ok b → P b) → mapM f l = Ok r → Forall P r.
Proof.
  intros Hf. revert r. induction l as [|x l IH]; simpl; intros r H.
  - injection H as <-. constructor.
  - bind_inv H. injection H as <-. constructor; eauto.
Qed.

Lemma getInputParams_names publication paramSrc l :
  capabilities.getInputParams publication paramSrc = Ok l →
  Forall (λ e, elemName e = "param") l.
Proof.
  unfold capabilities.getInputParams. intros H. bind_inv H.
  destruct (getInputKeysFor paramSrc a) as [keys|].
  - eapply mapM_Ok_Forall; [|exact H]. intros c b. apply getInputParamFromColumn_name.
  - injection H as <-. constructor.
Qed.

(** What [InterfaceMaker._makeInterface] puts into an interface: the
    primary access URL (if the publication has one) and mirror URLs that
    differ from it. *)
Lemma InterfaceMaker_makeInterface_urls self publication interface :
  (registerAlternative = true →
   ∀ url alternative, switchProtocol url = Ok alternative → Some alternative ≠ url) →
  capabilities.InterfaceMaker_makeInterface self publication = Ok interface →
  elemClass interface = capabilities.interfaceClass self ∧
  ∃ accessURL : option string,
    accessURLValues interface = option_list accessURL ∧
    ∀ m, m ∈ mirrorURLValues interface → Some m ≠ accessURL.
Proof.
  intros Hswitch H. unfold capabilities.InterfaceMaker_makeInterface in H.
  bind_inv H. rename a0 into accessURL.
  change (call (new VOR.accessURL) [("use", a1)])
    with (Ok (Elem VOR.accessURL [("use", a1)] [])) in Ha2.
  injection Ha2 as <-.
  change (call (new VOR.securityMethod) [("standardId", a3)])
    with (Ok (Elem VOR.securityMethod [("standardId", a3)] [])) in Ha4.
  injection Ha4 as <-.
  set (mirrors := filter (λ v, Some (getContent v) ≠ accessURL)
                    (iterMeta (pub_meta publication) "mirrorURL" false)) in H.
  set (base := addChildren _ _) in H.
  assert (Hbase : elemClass base = capabilities.interfaceClass self ∧
            accessURLValues base = option_list accessURL ∧
            mirrorURLValues base = map getContent mirrors).
  { unfold base.
    rewrite accessURLValues_eq, mirrorURLValues_eq, elemClass_addChildren.
    rewrite elemChildren_addChildren.
    change (elemChildren (new _)) with (@nil (string + Element)).
    rewrite app_nil_l, !flatten_cons, flatten_nil, app_nil_r.
    rewrite (flatten_map_elements (λ v, addChild (new VOR.mirrorURL) (CStr (getContent v)))).
    rewrite !valuesNamed_app. repeat split.
    - assert (Hm : ∀ l : list MetaValue,
        valuesNamed "accessURL"
          (map (λ v, inr (addChild (new VOR.mirrorURL) (CStr (getContent v)))) l) = []).
      { induction l as [|v l IH]; [done|]. rewrite map_cons.
        change (?x :: ?l') with ([x] ++ l'). rewrite valuesNamed_app, IH. done. }
      rewrite Hm, app_nil_r. destruct accessURL; reflexivity.
    - assert (Hm : ∀ l : list MetaValue,
        valuesNamed "mirrorURL"
          (map (λ v, inr (addChild (new VOR.mirrorURL) (CStr (getContent v)))) l)
        = map getContent l).
      { induction l as [|v l IH]; [done|]. rewrite !map_cons.
        change (?x :: ?l') with ([x] ++ l') at 1. rewrite valuesNamed_app, IH. done. }
      rewrite Hm. destruct accessURL; reflexivity. }
  destruct Hbase as (Hcls & Hacc & Hmir).
  assert (Hfiltered : ∀ m, m ∈ map getContent mirrors → Some m ≠ accessURL).
  { intros m Hm. apply list_elem_of_fmap in Hm as (v & -> & Hv).
    unfold mirrors in Hv. apply list_elem_of_filter in Hv as [Hv _]. exact Hv. }
  destruct registerAlternative eqn:Hreg.
  - destruct (switchProtocol accessURL) as [alternative|exc] eqn:Hsw.
    + apply Ok_inj in H as <-. rewrite elemClass_addChild. split; [done|].
      exists accessURL. rewrite accessURLValues_eq, mirrorURLValues_eq.
      rewrite elemChildren_addChild, !valuesNamed_app.
      rewrite <- accessURLValues_eq, <- mirrorURLValues_eq, Hacc, Hmir.
      split; [by rewrite app_nil_r|].
      intros m Hm. apply elem_of_app in Hm as [Hm|Hm]; [auto|].
      apply list_elem_of_singleton in Hm as ->. eauto.
    + destruct exc; try discriminate. apply Ok_inj in H as <-.
      split; [done|]. exists accessURL. rewrite Hmir. auto.
  - apply Ok_inj in H as <-. split; [done|]. exists accessURL. rewrite Hmir. auto.
Qed.


Lemma noURLs_app l1 l2 : noURLs l1 → noURLs l2 → noURLs (l1 ++ l2).
Proof. apply Forall_app_2. Qed.

Lemma noURLs_params (l : list Element) :
  Forall (λ e, elemName e = "param") l → noURLs (map inr l).
Proof.
  intros Hl. apply Forall_fmap. eapply Forall_impl; [exact Hl|].
  intros e He. simpl. rewrite He. split; discriminate.
Qed.

Lemma sameInterface_call i kw i' : call i kw = Ok i' → sameInterface i i'.
Proof.
  intros H. apply call_inv in H as (Hc & Hch & _).
  unfold sameInterface. rewrite accessURLValues_eq, mirrorURLValues_eq, Hch. done.
Qed.

Lemma sameInterface_addChildren i l :
  noURLs (flatten (CSeq l)) → sameInterface i (addChildren i l).
Proof.
  intros Hl. unfold sameInterface.
  rewrite elemClass_addChildren, !accessURLValues_eq, !mirrorURLValues_eq.
  rewrite elemChildren_addChildren, !valuesNamed_app.
  rewrite !(valuesNamed_noURLs _ _ Hl), !app_nil_r; auto.
Qed.

Lemma sameInterface_addChild i c :
  noURLs (flatten c) → sameInterface i (addChild i c).
Proof.
  intros Hl. unfold sameInterface.
  rewrite elemClass_addChild, !accessURLValues_eq, !mirrorURLValues_eq.
  rewrite elemChildren_addChild, !valuesNamed_app.
  rewrite !(valuesNamed_noURLs _ _ Hl), !app_nil_r; auto.
Qed.

Lemma sameInterface_trans i1 i2 i3 :
  sameInterface i1 i2 → sameInterface i2 i3 → sameInterface i1 i3.
Proof. unfold sameInterface. intros (-> & -> & ->) (-> & -> & ->). done. Qed.

Lemma _makeInterface_base self publication interface :
  capabilities._makeInterface self publication = Ok interface →
  ∃ res, capabilities.InterfaceMaker_makeInterface self publication = Ok res ∧
         sameInterface res interface.
Proof.
  unfold capabilities._makeInterface. intros H.
  destruct (capabilities.im_method self).
  - exists interface. split; [done|]. by unfold sameInterface.
  - bind_inv H. exists a. split; [done|].
    destruct (negb _); [discriminate|]. bind_inv H. apply Ok_inj in H as <-.
    eapply sameInterface_trans; [eapply sameInterface_call; eassumption|].
    apply sameInterface_addChildren. repeat constructor; discriminate.
  - bind_inv H. apply Ok_inj in H as <-. exists a. split; [done|].
    apply sameInterface_addChildren.
    rewrite !flatten_cons, flatten_nil, app_nil_r, flatten_map_CElem.
    apply noURLs_app; [repeat constructor; discriminate|].
    apply noURLs_app; [repeat constructor; discriminate|].
    apply noURLs_params. eapply getInputParams_names. eassumption.
  - bind_inv H. exists a. split; [done|]. eapply sameInterface_call; eassumption.
  - bind_inv H. exists a. split; [done|]. eapply sameInterface_call; eassumption.
  - bind_inv H. exists a. split; [done|]. destruct a0; [|discriminate].
    apply Ok_inj in H as <-. apply sameInterface_addChild.
    repeat constructor; discriminate.
  - bind_inv H. exists a. split; [done|]. eapply sameInterface_call; eassumption.
Qed.

(** C3: in every interface element that interface construction produces,
    no [mirrorURL] value equals the interface's [accessURL] value, the
    access URL being the one after the short-alias rewrite and the mirrors
    including the protocol-switch mirror.  The protocol switch is library
    code; it is taken to return a URL other than the one it is given. *)
Theorem mirrorURL_never_accessURL (self : capabilities.InterfaceMaker)
    (publication : Publication) (interface : Element) :
  (registerAlternative = true →
   ∀ url alternative, switchProtocol url = Ok alternative → Some alternative ≠ url) →
  capabilities._makeInterface self publication = Ok interface →
  ∀ m, m ∈ mirrorURLValues interface → m ∉ accessURLValues interface.
Proof.
  intros Hswitch H m Hm.
  apply _makeInterface_base in H as (res & Hres & _ & Hacc & Hmir).
  apply (InterfaceMaker_makeInterface_urls _ _ _ Hswitch) in Hres
    as (_ & accessURL & Hvalues & Hne).
  rewrite Hacc, Hvalues. rewrite Hmir in Hm. apply Hne in Hm.
  destruct accessURL as [u|]; simpl.
  - intros Hin. apply list_elem_of_singleton in Hin. congruence.
  - apply not_elem_of_nil.
Qed.

Lemma _makeInterface_class self publication interface :
  capabilities._makeInterface self publication = Ok interface →
  elemClass interface = capabilities.interfaceClass self.
Proof.
  intros H. apply _makeInterface_base in H as (res & Hres & Hc & _).
  rewrite Hc. unfold capabilities.InterfaceMaker_makeInterface in Hres.
  bind_inv Hres.
  destruct registerAlternative; [destruct (switchProtocol _) as [?|[]]|];
    try discriminate; apply Ok_inj in Hres as <-;
    rewrite ?elemClass_addChild, elemClass_addChildren; done.
Qed.


(** ** Resolvers *)

Lemma buildRegistry_lookup {A} (key : A → option string) (classes : list A) k c :
  capabilities.buildRegistry key classes !! k = Some c → c ∈ classes.
Proof.
  unfold capabilities.buildRegistry.
  assert (Hgen : ∀ acc : gmap (option string) A,
            foldl (λ registry c, <[key c := c]> registry) acc classes !! k = Some c →
            c ∈ classes ∨ acc !! k = Some c).
  { induction classes as [|x l IH]; simpl; intros acc H; [auto|].
    apply IH in H as [H|H]; [left; by right|].
    destruct (decide (key x = k)) as [<-|Hne].
    - rewrite lookup_insert_eq in H. injection H as <-. left. by left.
    - rewrite lookup_insert_ne in H by done. auto. }
  intros H. apply Hgen in H as [H|H]; [done|]. by rewrite lookup_empty in H.
Qed.

Lemma _getInterfaceMaker_total name :
  ∃ maker, capabilities._getInterfaceMaker name = Ok maker ∧
           maker ∈ capabilities.interfaceMakerClasses.
Proof.
  unfold capabilities._getInterfaceMaker, capabilities.resolve.
  destruct (capabilities.interfaceRegistry !! Some name) as [c|] eqn:Hc.
  - exists c. split; [done|]. eapply buildRegistry_lookup. exact Hc.
  - exists capabilities.InterfaceWithParams. split; [reflexivity|].
    apply list_elem_of_lookup. by exists 5.
Qed.

(** C4: for a publication that is not auxiliary, the interface resolver
    yields a handler for its renderer whatever it is, the default handler
    [InterfaceWithParams] when none is registered for it; the capability
    resolver has no default, and [getCapabilityElement] raises a
    [ReportableError] for a renderer no capability maker is registered for. *)
Theorem resolvers_default (publication : Publication) :
  auxiliary publication = false →
  (∃ maker, capabilities._getInterfaceMaker (render publication) = Ok maker ∧
     (capabilities.interfaceRegistry !! Some (render publication) = None →
      maker = capabilities.InterfaceWithParams)) ∧
  (capabilities.capabilityRegistry !! Some (render publication) = None →
   capabilities._getCapabilityMaker (render publication)
     = Raise (KeyError (render publication)) ∧
   ∃ msg, capabilities.getCapabilityElement publication = Raise (ReportableError msg)).
Proof.
  intros Haux. split.
  - unfold capabilities._getInterfaceMaker, capabilities.resolve.
    destruct (capabilities.interfaceRegistry !! Some (render publication)) as [c|].
    + exists c. split; [done|]. discriminate.
    + eexists. split; reflexivity.
  - intros Hnone.
    assert (Hkey : capabilities._getCapabilityMaker (render publication)
                   = Raise (KeyError (render publication))).
    { unfold capabilities._getCapabilityMaker, capabilities.resolve.
      by rewrite Hnone. }
    split; [done|]. unfold capabilities.getCapabilityElement.
    rewrite Haux, Hkey. eexists. reflexivity.
Qed.

(** ** The auxiliary rule *)

Lemma interfaceMakers_named :
  Forall (λ m, ec_name (capabilities.interfaceClass m) = "interface")
    capabilities.interfaceMakerClasses.
Proof.
  unfold capabilities.interfaceMakerClasses.
  repeat (apply Forall_cons; split; [reflexivity|]). constructor.
Qed.

Lemma capabilityMakers_auxiliaryId :
  Forall (λ c, capabilities.auxiliaryId c = None ∨
               truthy (capabilities.auxiliaryId c) = true)
    capabilities.capabilityMakerClasses.
Proof.
  unfold capabilities.capabilityMakerClasses.
  repeat (apply Forall_cons; split; [first [left; reflexivity | right; reflexivity]|]).
  constructor.
Qed.

Lemma CapabilityMaker_getInterfaceElement_inv publication content :
  capabilities.CapabilityMaker_getInterfaceElement publication = Ok content →
  ∃ i, content = CElem i ∧ elemName i = "interface".
Proof.
  unfold capabilities.CapabilityMaker_getInterfaceElement. intros H.
  bind_inv H. apply Ok_inj in H as <-. eexists. split; [done|].
  apply _makeInterface_class in Ha0. unfold elemName. rewrite Ha0.
  assert (Hin : a ∈ capabilities.interfaceMakerClasses).
  { destruct (_ && _).
    - apply Ok_inj in Ha as <-. apply list_elem_of_lookup. by exists 15.
    - destruct (_getInterfaceMaker_total (render publication)) as (m & Hm & Hin).
      congruence. }
  pose proof interfaceMakers_named as Hall.
  rewrite Forall_forall in Hall. by apply Hall.
Qed.

(** C1: for an auxiliary publication whose renderer has a registered
    capability maker: without an [auxiliaryId] on that maker
    [getCapabilityElement] returns no capability; with one, and when the
    plain capability of the publication (description and interface) can be
    built, it returns exactly one [vr:capability] element whose
    [standardID] is that identifier and whose children are just the
    description and the interface. *)
Theorem auxiliary_rule (publication : Publication)
    (capMaker : capabilities.CapabilityMaker) :
  auxiliary publication = true →
  capabilities._getCapabilityMaker (render publication) = Ok capMaker →
  match capabilities.auxiliaryId capMaker with
  | None => capabilities.getCapabilityElement publication = Ok None
  | Some auxId =>
      ∀ plain,
        capabilities._makeCapability capabilities.CapabilityMaker_ publication
          = Ok plain →
        ∃ cap description interface,
          capabilities.getCapabilityElement publication = Ok (Some cap) ∧
          elemClass cap = VOR.capability ∧
          elemAttrs cap = [("standardID", Some auxId)] ∧
          getAttr "standardID" cap = Some auxId ∧
          elemChildren cap = [inr description; inr interface] ∧
          elemClass description = VOR.description ∧
          elemName interface = "interface" ∧
          elemChildren cap = elemChildren plain
  end.
Proof.
  intros Haux Hmaker.
  assert (Hid : capabilities.auxiliaryId capMaker = None ∨
                truthy (capabilities.auxiliaryId capMaker) = true).
  { pose proof capabilityMakers_auxiliaryId as Hall. rewrite Forall_forall in Hall.
    apply Hall. unfold capabilities._getCapabilityMaker, capabilities.resolve in Hmaker.
    destruct (capabilities.capabilityRegistry !! _) as [c|] eqn:Hc; [|discriminate].
    apply Ok_inj in Hmaker as <-. eapply buildRegistry_lookup. exact Hc. }
  unfold capabilities.getCapabilityElement, capabilities.getAuxiliaryCapability.
  rewrite Haux, Hmaker. simpl mbind.
  destruct (capabilities.auxiliaryId capMaker) as [auxId|] eqn:Hauxid.
  - destruct Hid as [|Htruthy]; [discriminate|]. rewrite Htruthy.
    intros plain Hplain. rewrite Hplain. simpl mbind.
    unfold capabilities._makeCapability in Hplain. simpl in Hplain.
    unfold capabilities.CapabilityMaker_makeCapability in Hplain.
    bind_inv Hplain. apply Ok_inj in Hplain as <-.
    apply CapabilityMaker_getInterfaceElement_inv in Ha0 as (i & -> & Hi).
    eexists _, _, i. split; [reflexivity|]. repeat split. exact Hi.
  - reflexivity.
Qed.

(** ** Builds do not depend on what earlier builds left behind *)

Lemma sameConfiguration_refl w : sameConfiguration w w.
Proof. by intros k. Qed.

Lemma sameConfiguration_sym w w' : sameConfiguration w w' → sameConfiguration w' w.
Proof. intros H k. by rewrite H. Qed.

Lemma sameConfiguration_trans w1 w2 w3 :
  sameConfiguration w1 w2 → sameConfiguration w2 w3 → sameConfiguration w1 w3.
Proof. intros H1 H2 k. by rewrite H1. Qed.

Lemma Steady_ret {A} (a : A) : Steady (mret a).
Proof. intros w w' H. auto. Qed.

Lemma Steady_lift {A} (r : Result A) : Steady (lift r).
Proof. intros w w' H. auto. Qed.

Lemma Steady_raise {A} (e : Exc) : Steady (raise (A := A) e).
Proof. intros w w' H. auto. Qed.

Lemma Steady_notifyError msg : Steady (notifyError msg).
Proof. intros w w' H. auto. Qed.

Lemma Steady_notifyWarning msg : Steady (notifyWarning msg).
Proof. intros w w' H. auto. Qed.

Lemma Steady_bind {A B} (c : M A) (f : A → M B) :
  Steady c → (∀ a, Steady (f a)) → Steady (c ≫= f).
Proof.
  intros Hc Hf w w' Hw.
  destruct (Hc w w' Hw) as (Hr & Hw1 & He).
  destruct (Hc w' w' (sameConfiguration_refl w')) as (_ & Hw1' & _).
  unfold mbind, M_bind.
  destruct (c w) as [r w1], (c w') as [r' w1']. simpl in *. subst r'.
  destruct r as [a|e]; simpl.
  - assert (Hww : sameConfiguration w1 w1').
    { eapply sameConfiguration_trans; [exact Hw1|by apply sameConfiguration_sym]. }
    destruct (Hf a w1 w1' Hww) as (Hr & Hw2 & He2).
    split; [exact Hr|]. split; [|congruence].
    eapply sameConfiguration_trans; [exact Hw2|exact Hw1'].
  - auto.
Qed.

Lemma Steady_tryExcept {A} (c : M A) (handler : Exc → M A) :
  Steady c → (∀ e, Steady (handler e)) → Steady (tryExcept c handler).
Proof.
  intros Hc Hh w w' Hw.
  destruct (Hc w w' Hw) as (Hr & Hw1 & He).
  destruct (Hc w' w' (sameConfiguration_refl w')) as (_ & Hw1' & _).
  unfold tryExcept.
  destruct (c w) as [r w1], (c w') as [r' w1']. simpl in *. subst r'.
  destruct r as [a|e]; simpl.
  - auto.
  - assert (Hww : sameConfiguration w1 w1').
    { eapply sameConfiguration_trans; [exact Hw1|by apply sameConfiguration_sym]. }
    destruct (Hh e w1 w1' Hww) as (Hr & Hw2 & He2).
    split; [exact Hr|]. split; [|congruence].
    eapply sameConfiguration_trans; [exact Hw2|exact Hw1'].
Qed.

Lemma Steady_fmap {A B} (f : A → B) (c : M A) : Steady c → Steady (f <$> c).
Proof. intros Hc. apply Steady_bind; [done|]. intros a. apply Steady_ret. Qed.

Lemma Steady_mapM {A B} (f : A → M B) (l : list A) :
  (∀ a, Steady (f a)) → Steady (mapM f l).
Proof.
  intros Hf. induction l as [|x l IH]; simpl.
  - apply Steady_ret.
  - apply Steady_bind; [done|]. intros y.
    apply Steady_bind; [done|]. intros k. apply Steady_ret.
Qed.

Lemma Steady_loadDependencies resob : Steady (builders._loadDependencies resob).
Proof.
  intros w w' Hw. pose proof (Hw (sourceId (rd resob))) as Hk.
  unfold effectiveDependencies in Hk.
  unfold builders._loadDependencies, common.getDependencies,
    mbind, M_bind, getCached, setCached, lift, mret, M_ret.
  destruct (depCache w !! sourceId (rd resob)) as [deps|] eqn:Hc,
           (depCache w' !! sourceId (rd resob)) as [deps'|] eqn:Hc'; simpl.
  - apply Ok_inj in Hk as <-. destruct (mapM getRD deps); auto.
  - rewrite <- Hk. destruct (mapM getRD deps); simpl; auto.
  - rewrite Hk. 
    assert (Hnew : sameConfiguration
              (mkWorld (<[sourceId (rd resob) := deps']> (depCache w)) (sink w) (emitted w)) w').
    { intros k. unfold effectiveDependencies. simpl.
      destruct (decide (sourceId (rd resob) = k)) as [<-|Hne].
      - by rewrite lookup_insert_eq, Hc'.
      - rewrite lookup_insert_ne by done. apply Hw. }
    destruct (mapM getRD deps'); simpl; auto.
  - destruct (queryDependencies (sourceId (rd resob))) as [deps|e] eqn:Hq; simpl.
    + assert (Hnew : sameConfiguration
              (mkWorld (<[sourceId (rd resob) := deps]> (depCache w)) (sink w) (emitted w)) w').
      { intros k. unfold effectiveDependencies. simpl.
        destruct (decide (sourceId (rd resob) = k)) as [<-|Hne].
        - by rewrite lookup_insert_eq, Hc', Hq.
        - rewrite lookup_insert_ne by done. apply Hw. }
      destruct (mapM getRD deps); simpl; auto.
    + auto.
Qed.


(** [buildRule] with its loop over the child rules named. *)
Lemma buildRule_unfold (macroPackage : Resob) key factory children attrs container :
  modelbuilder.buildRule macroPackage (modelbuilder.Rule key factory children attrs) container =
  match key with
  | None =>
      built ← modelbuilder._build macroPackage children container;
      match factory with
      | Some f => x ← f macroPackage built []; mret [x]
      | None => raise (TypeError "'NoneType' object is not callable")
      end
  | Some k =>
      results ← mapM (λ v,
          childContent ← modelbuilder._build macroPackage children (modelbuilder.OnValue v);
          let content :=
            (if strEq (getContent v) "" then [] else [CStr (getContent v)]) ++
            (match childContent with [] => [] | _ => [CSeq childContent] end) in
          match content with
          | [] => mret []
          | _ =>
              match factory with
              | Some f => x ← f macroPackage content (modelbuilder.moreAttrs attrs v);
                          mret [CSeq [x]]
              | None => mret [CSeq content]
              end
          end) (modelbuilder.containerMeta container k);
      mret (concat results)
  end.
Proof. reflexivity. Qed.

Lemma _build_cons (macroPackage : Resob) c r container :
  modelbuilder._build macroPackage (c :: r) container =
  (x ← modelbuilder.wrapped (modelbuilder.buildRule macroPackage c container);
   xs ← modelbuilder._build macroPackage r container;
   mret (x ++ xs)).
Proof. reflexivity. Qed.


Lemma Steady_wrapped {A} (c : M A) : Steady c → Steady (modelbuilder.wrapped c).
Proof.
  intros Hc. apply Steady_tryExcept; [done|]. intros e. apply Steady_raise.
Qed.

Lemma buildRule_Steady c :
  SteadyRule c → ∀ macroPackage container,
  Steady (modelbuilder.buildRule macroPackage c container).
Proof.
  revert c. fix IH 1. intros [key factory children attrs] [Hf Hch] macroPackage container.
  rewrite buildRule_unfold.
  assert (Hall : ∀ container, Steady (modelbuilder._build macroPackage children container)).
  { clear container.
    induction children as [|c' r IHr]; intros container.
    - apply Steady_ret.
    - destruct Hch as [Hc' Hr]. rewrite _build_cons.
      apply Steady_bind.
      + apply Steady_wrapped. apply IH. exact Hc'.
      + intros x. apply Steady_bind; [by apply IHr|]. intros xs. apply Steady_ret. }
  destruct key as [k|].
  - apply Steady_bind; [|intros; apply Steady_ret].
    apply Steady_mapM. intros v.
    apply Steady_bind; [apply Hall|]. intros childContent.
    destruct (_ ++ _); [apply Steady_ret|].
    destruct factory as [f|]; [|apply Steady_ret].
    apply Steady_bind; [apply Hf|]. intros x. apply Steady_ret.
  - apply Steady_bind; [apply Hall|]. intros built.
    destruct factory as [f|]; [|apply Steady_raise].
    apply Steady_bind; [apply Hf|]. intros x. apply Steady_ret.
Qed.

Lemma _build_Steady cs :
  Forall SteadyRule cs → ∀ macroPackage container,
  Steady (modelbuilder._build macroPackage cs container).
Proof.
  intros Hcs macroPackage container. induction Hcs as [|c r Hc _ IH].
  - apply Steady_ret.
  - rewrite _build_cons. apply Steady_bind; [apply Steady_wrapped, buildRule_Steady, Hc|].
    intros x. apply Steady_bind; [exact IH|]. intros xs. apply Steady_ret.
Qed.

Lemma build_Steady cs resob :
  Forall SteadyRule cs → Steady (modelbuilder.build cs resob).
Proof. intros Hcs. by apply _build_Steady. Qed.


(** Proves steadiness of a computation that is put together from steady
    parts, following the syntax of the computation. *)
Ltac steady_step :=
  lazymatch goal with
  | |- Steady (mret _) => apply Steady_ret
  | |- Steady (lift _) => apply Steady_lift
  | |- Steady (raise _) => apply Steady_raise
  | |- Steady (notifyError _) => apply Steady_notifyError
  | |- Steady (notifyWarning _) => apply Steady_notifyWarning
  | |- Steady (builders._loadDependencies _) => apply Steady_loadDependencies
  | |- Steady (fmap _ _) => apply Steady_fmap
  | |- Steady (mbind _ _) => apply Steady_bind; [|intros]
  | |- Steady (tryExcept _ _) => apply Steady_tryExcept; [|intros]
  | |- Steady (mapM _ _) => apply Steady_mapM; intros
  | |- Steady (match ?x with _ => _ end) => destruct x
  | |- Steady (if ?b then _ else _) => destruct b
  end.

Ltac steady := repeat steady_step.

Lemma SF_Steady tag kwargs macroPackage args attrs :
  Steady (modelbuilder.SF tag kwargs macroPackage args attrs).
Proof. unfold modelbuilder.SF. steady. Qed.

Lemma SFcall_Steady tag macroPackage args attrs :
  Steady (modelbuilder.SFcall tag macroPackage args attrs).
Proof. unfold modelbuilder.SFcall. steady. Qed.

Lemma _stcResourceProfile_Steady VALIDATING macroPackage args attrs :
  Steady (builders._stcResourceProfile VALIDATING macroPackage args attrs).
Proof. unfold builders._stcResourceProfile. steady. Qed.

Lemma _build_footprintURL_Steady macroPackage args attrs :
  Steady (builders._build_footprintURL macroPackage args attrs).
Proof. unfold builders._build_footprintURL. steady. Qed.

Lemma _build_source_Steady macroPackage args attrs :
  Steady (builders._build_source macroPackage args attrs).
Proof. unfold builders._build_source. steady. Qed.

Lemma _build_dateFromNews_Steady macroPackage args attrs :
  Steady (builders._build_dateFromNews macroPackage args attrs).
Proof. unfold builders._build_dateFromNews. steady. Qed.

Ltac steady_rule :=
  lazymatch goal with
  | |- _ ∧ _ => split; steady_rule
  | |- True => exact I
  | |- Steady _ =>
      first [ apply SF_Steady | apply SFcall_Steady | apply _stcResourceProfile_Steady
            | apply _build_footprintURL_Steady | apply _build_source_Steady
            | apply _build_dateFromNews_Steady | steady ]
  | |- ∀ _, _ => intro; steady_rule
  end.

Ltac steady_rules :=
  repeat first [apply Forall_cons_2 | apply Forall_nil_2]; simpl; steady_rule.

Lemma _vrResourceBuilder_Steady : Forall SteadyRule builders._vrResourceBuilder.
Proof. unfold builders._vrResourceBuilder. steady_rules. Qed.

Lemma _dcBuilder_Steady : Forall SteadyRule builders._dcBuilder.
Proof. unfold builders._dcBuilder. steady_rules. Qed.

Lemma _oaiHeaderBuilder_Steady : Forall SteadyRule builders._oaiHeaderBuilder.
Proof. unfold builders._oaiHeaderBuilder. steady_rules. Qed.

Lemma _orgMetaBuilder_Steady : Forall SteadyRule builders._orgMetaBuilder.
Proof. unfold builders._orgMetaBuilder. steady_rules. Qed.

Lemma _standardsMetaBuilder_Steady : Forall SteadyRule builders._standardsMetaBuilder.
Proof. unfold builders._standardsMetaBuilder. steady_rules. Qed.

Lemma _rightsBuilder_Steady : Forall SteadyRule builders._rightsBuilder.
Proof. unfold builders._rightsBuilder. steady_rules. Qed.

Lemma _registryMetaBuilder_Steady : Forall SteadyRule builders._registryMetaBuilder.
Proof. unfold builders._registryMetaBuilder. steady_rules. Qed.

Lemma _coverageMetaBuilder_Steady VALIDATING :
  Forall SteadyRule (builders._coverageMetaBuilder VALIDATING).
Proof. unfold builders._coverageMetaBuilder. steady_rules. Qed.


Ltac steady_build :=
  lazymatch goal with
  | |- Steady (modelbuilder.build _ _) =>
      apply build_Steady;
      first [ apply _vrResourceBuilder_Steady | apply _dcBuilder_Steady
            | apply _oaiHeaderBuilder_Steady | apply _orgMetaBuilder_Steady
            | apply _standardsMetaBuilder_Steady | apply _rightsBuilder_Steady
            | apply _registryMetaBuilder_Steady | apply _coverageMetaBuilder_Steady ]
  end.

Ltac steady_more := repeat first [steady_build | steady_step].

Lemma ResourceMaker_makeResource_Steady self resob setNames :
  Steady (builders.ResourceMaker_makeResource self resob setNames).
Proof. unfold builders.ResourceMaker_makeResource. steady_more. Qed.

Lemma ServiceResourceMaker_makeResource_Steady self resob setNames :
  Steady (builders.ServiceResourceMaker_makeResource self resob setNames).
Proof.
  unfold builders.ServiceResourceMaker_makeResource.
  apply Steady_bind; [apply ResourceMaker_makeResource_Steady|]. intros.
  steady_more.
Qed.

Lemma DataServiceResourceMaker_makeResource_Steady VALIDATING self resob setNames :
  Steady (builders.DataServiceResourceMaker_makeResource VALIDATING self resob setNames).
Proof.
  unfold builders.DataServiceResourceMaker_makeResource.
  apply Steady_bind; [apply ServiceResourceMaker_makeResource_Steady|]. intros.
  steady_more.
Qed.

Lemma CatalogServiceResourceMaker_makeResource_Steady VALIDATING self resob setNames :
  Steady (builders.CatalogServiceResourceMaker_makeResource VALIDATING self resob setNames).
Proof.
  unfold builders.CatalogServiceResourceMaker_makeResource.
  apply Steady_bind; [apply DataServiceResourceMaker_makeResource_Steady|]. intros.
  steady_more.
Qed.

Lemma _makeResourceForSchemas_Steady VALIDATING self resob schemas setNames :
  Steady (builders._makeResourceForSchemas VALIDATING self resob schemas setNames).
Proof.
  unfold builders._makeResourceForSchemas.
  apply Steady_bind; [apply ResourceMaker_makeResource_Steady|]. intros.
  steady_more.
Qed.

Lemma _makeResource_Steady VALIDATING self resob setNames :
  Steady (builders._makeResource VALIDATING self resob setNames).
Proof.
  unfold builders._makeResource.
  destruct (builders.rm_method self);
    repeat first
      [ steady_build | steady_step
      | lazymatch goal with
        | |- Steady (builders.ResourceMaker_makeResource _ _ _) =>
            apply ResourceMaker_makeResource_Steady
        | |- Steady (builders.ServiceResourceMaker_makeResource _ _ _) =>
            apply ServiceResourceMaker_makeResource_Steady
        | |- Steady (builders.DataServiceResourceMaker_makeResource _ _ _ _) =>
            apply DataServiceResourceMaker_makeResource_Steady
        | |- Steady (builders.CatalogServiceResourceMaker_makeResource _ _ _ _) =>
            apply CatalogServiceResourceMaker_makeResource_Steady
        | |- Steady (builders._makeResourceForSchemas _ _ _ _ _) =>
            apply _makeResourceForSchemas_Steady
        end ].
Qed.

Lemma getVORMetadataElement_Steady VALIDATING resob setNames :
  Steady (builders.getVORMetadataElement VALIDATING resob setNames).
Proof.
  unfold builders.getVORMetadataElement.
  steady. apply _makeResource_Steady.
Qed.

Lemma getResourceElement_Steady resob setNames metadataMaker :
  (∀ r s, Steady (metadataMaker r s)) →
  Steady (builders.getResourceElement resob setNames metadataMaker).
Proof.
  intros Hm. unfold builders.getResourceElement. destruct resob; [steady|].
  repeat first [steady_build | steady_step | apply Hm].
Qed.

Lemma getVOResourceElement_Steady VALIDATING resob setNames :
  Steady (builders.getVOResourceElement VALIDATING resob setNames).
Proof.
  apply getResourceElement_Steady. intros. apply getVORMetadataElement_Steady.
Qed.

Lemma getDCResourceElement_Steady resob setNames :
  Steady (builders.getDCResourceElement resob setNames).
Proof.
  apply getResourceElement_Steady. intros. unfold builders.getDCMetadataElement.
  steady_more.
Qed.

(** C7: building the record of the same resource for the same set names
    twice in a row, the second time in the world the first build left
    behind (its notifications and the dependency list it cached), gives the
    same outcome: the same tree, element for element and attribute for
    attribute, or the same exception.  The metadata, the configuration and
    the database are the same in both runs, being fixed by [E]. *)
Theorem build_twice_identical (VALIDATING : bool) (resob : builders.RecordSource)
    (setNames : list string) (w : World) :
  let first := builders.getVOResourceElement VALIDATING resob setNames w in
  let second := builders.getVOResourceElement VALIDATING resob setNames first.2 in
  second.1 = first.1 ∧
  sameConfiguration first.2 w ∧
  ∀ r,
    let first := builders.getVORMetadataElement VALIDATING r setNames w in
    let second := builders.getVORMetadataElement VALIDATING r setNames first.2 in
    second.1 = first.1.
Proof.
  intros first second.
  destruct (getVOResourceElement_Steady VALIDATING resob setNames w w
              (sameConfiguration_refl w)) as (_ & Hw1 & _).
  destruct (getVOResourceElement_Steady VALIDATING resob setNames first.2 w Hw1)
    as (Hr & _ & _).
  split; [exact Hr|]. split; [exact Hw1|].
  intros r first' second'.
  destruct (getVORMetadataElement_Steady VALIDATING r setNames w w
              (sameConfiguration_refl w)) as (_ & Hm1 & _).
  destruct (getVORMetadataElement_Steady VALIDATING r setNames first'.2 w Hm1)
    as (Hm & _ & _).
  exact Hm.
Qed.

(** ** The record loop *)

Lemma addRecords_loop makeRecord setNames :
  (∀ e w, makeRecord (builders.FromElement e) setNames w = (Ok e, w)) →
  ∀ resobs c a ch w,
  ∃ recs notices w',
    RecordLoop makeRecord setNames w resobs recs notices w' ∧
    builders.addRecords makeRecord setNames (Elem c a ch) resobs w
      = (Ok (Elem c a (ch ++ map inr recs)), w').
Proof.
  intros Hpass resobs. induction resobs as [|resob rest IH]; intros c a ch w.
  - exists [], [], w. split; [constructor|]. simpl. by rewrite app_nil_r.
  - simpl builders.addRecords. unfold mbind at 1, M_bind at 1. unfold tryExcept.
    unfold mbind at 1, M_bind at 1.
    destruct (makeRecord resob setNames w) as [[rec|exc] w1] eqn:Hmake.
    + simpl. destruct (IH c a (ch ++ [inr rec]) w1) as (recs & notices & w' & Hloop & Hrun).
      exists (rec :: recs), notices, w'. split.
      * eapply RecordLoop_built; eassumption.
      * rewrite Hrun. by rewrite <- app_assoc.
    + assert (Hfailed : ∃ msg, builders.recordFailed resob exc w1
                          = (Ok tt, notified (NotifyError msg) w1)).
      { unfold builders.recordFailed. destruct exc; try (eexists; reflexivity).
        destruct resob as [e|r]; [|eexists; reflexivity].
        rewrite Hpass in Hmake. discriminate. }
      destruct Hfailed as (msg & Hfailed).
      unfold mbind, M_bind. rewrite Hfailed. simpl.
      destruct (IH c a ch (notified (NotifyError msg) w1))
        as (recs & notices & w' & Hloop & Hrun).
      exists recs, (NotifyError msg :: notices), w'. split.
      * eapply RecordLoop_failed; eassumption.
      * exact Hrun.
Qed.

(** C2: a list-records build over any sequence of resource objects never
    raises.  It returns a [ListRecords] element whose children are exactly
    the records that could be built, in order; a resource object whose
    record raises (a missing meta key or any other exception) contributes
    no child and one error notification, and the loop goes on with the
    next one.  This holds for the resource-description format and for the
    Dublin Core format. *)
Theorem list_records_isolate_failures (VALIDATING : bool)
    (resobs : list builders.RecordSource) (setNames : list string) (w : World) :
  (∃ recs notices w',
     RecordLoop (builders.getVOResourceElement VALIDATING) setNames w resobs
       recs notices w' ∧
     builders.getVOListRecordsElement VALIDATING resobs setNames w
       = (Ok (Elem OAI.ListRecords [] (map inr recs)), w')) ∧
  (∃ recs notices w',
     RecordLoop builders.getDCResourceElement setNames w resobs recs notices w' ∧
     builders.getDCListRecordsElement resobs setNames builders.getDCResourceElement w
       = (Ok (Elem OAI.ListRecords [] (map inr recs)), w')).
Proof.
  split.
  - apply (addRecords_loop (builders.getVOResourceElement VALIDATING) setNames).
    reflexivity.
  - apply (addRecords_loop builders.getDCResourceElement setNames). reflexivity.
Qed.

(** What a run of the record loop does to the error sink: it grows by what
    the records themselves report and by one error per failed record;
    nothing is ever taken away. *)
Lemma RecordLoop_counts makeRecord setNames w resobs recs notices w' :
  RecordLoop makeRecord setNames w resobs recs notices w' →
  length recs + length notices = length resobs.
Proof.
  induction 1; simpl; lia.
Qed.



(** ** Coverage profiles *)

Lemma strEq_false a b : a ≠ b → strEq a b = false.
Proof. intros H. unfold strEq. by apply bool_decide_eq_false_2. Qed.

Lemma _stcResourceProfile_bad VALIDATING macroPackage src exc localattrs w :
  parseSTCS src = Raise exc →
  builders._stcResourceProfile VALIDATING macroPackage [CStr src] localattrs w =
    if VALIDATING then (Raise exc, w) else (Ok CNone, notified (profileReport src exc) w).
Proof.
  intros Hparse. unfold builders._stcResourceProfile, tryExcept, lift. simpl.
  rewrite Hparse. simpl. destruct VALIDATING; reflexivity.
Qed.

(** ** Specialisation chaining *)

Lemma flatten_capabilities (caps : list (option Element)) :
  flatten (CSeq (map (λ c, match c with Some e => CElem e | None => CNone end) caps))
  = map inr (omap (λ c, c) caps).
Proof.
  induction caps as [|[e|] l IH]; [done|..];
    rewrite map_cons, flatten_cons, IH; reflexivity.
Qed.

(** The base step of a service-like handler does not depend on the
    handler's element class beyond the class itself. *)
Lemma ResourceMaker_makeResource_service self resob setNames w base w0 :
  builders.resourceClass self = VS.CatalogService →
  builders.ResourceMaker_makeResource self resob setNames w = (Ok base, w0) →
  ∃ sbase,
    builders.ResourceMaker_makeResource builders.ServiceResourceMaker resob setNames w
      = (Ok sbase, w0) ∧
    elemChildren sbase = elemChildren base ∧
    (∀ k, k ∈ ["created"; "updated"; "status"] → getAttr k base = getAttr k sbase).
Proof.
  intros Hclass H. unfold builders.ResourceMaker_makeResource in *.
  rewrite Hclass in H.
  apply M_bind_Ok in H as ([] & w1 & Hload & H).
  apply M_bind_Ok in H as (args & w2 & Hargs & H). apply lift_Ok in Hargs as [Hargs ->].
  apply M_bind_Ok in H as (res & w2 & Hres & H). apply lift_Ok in Hres as [Hres ->].
  apply M_bind_Ok in H as (vl & w2 & Hvl & H). apply lift_Ok in Hvl as [Hvl ->].
  apply M_bind_Ok in H as (vr & w2 & Hvr & H).
  apply M_ret_Ok in H as [-> ->].
  unfold builders.getResourceArgs in Hargs. bind_inv Hargs.
  apply Ok_inj in Hargs as <-.
  change (call (new VS.CatalogService) [("created", a); ("updated", a0); ("status", a1)])
    with (Ok (Elem VS.CatalogService
                [("created", a); ("updated", a0); ("status", a1);
                 ("xsi_type", Some "vs:CatalogService")] [])) in Hres.
  apply Ok_inj in Hres as <-.
  eexists. split.
  - erewrite M_bind_run; [|exact Hload].
    erewrite M_bind_run; [|unfold lift, builders.getResourceArgs;
                           rewrite Ha, Ha0, Ha1; reflexivity].
    erewrite M_bind_run; [|reflexivity].
    erewrite M_bind_run; [|unfold lift; rewrite Hvl; reflexivity].
    erewrite M_bind_run; [|exact Hvr].
    reflexivity.
  - split; [reflexivity|].
    intros k Hk. repeat (apply elem_of_cons in Hk as [->|Hk]; [reflexivity|]).
    by apply elem_of_nil in Hk.
Qed.

(** C6: for a resource of kind [catalogService] the document built is
    the one the generic service handler builds on the same resource (base
    attributes, validation level and the curation and content of the
    model-based builder, the rights block, one capability per publication
    in the requested sets that yields one), with the organisation and
    coverage metadata and then the table set appended to its children: the
    table set comes last and takes nothing away. *)
Theorem catalog_extends_service (VALIDATING : bool) (service : Resob)
    (setNames : list string) (w w' : World) (content : Content) :
  common.getResType service = Ok "catalogService" →
  builders.getVORMetadataElement VALIDATING service setNames w = (Ok content, w') →
  ∃ doc sdoc w1 org w2 coverage ts,
    content = CElem doc ∧
    builders._makeResource VALIDATING builders.ServiceResourceMaker service setNames w
      = (Ok (CElem sdoc), w1) ∧
    modelbuilder.build builders._orgMetaBuilder service w1 = (Ok org, w2) ∧
    modelbuilder.build (builders._coverageMetaBuilder VALIDATING) service w2
      = (Ok coverage, w') ∧
    tableset.getTablesetForService service VS.tableset false = Ok ts ∧
    elemChildren doc
      = elemChildren sdoc ++ flattenAll org ++ flattenAll coverage ++ [inr ts] ∧
    (∀ k, k ∈ ["created"; "updated"; "status"] → getAttr k doc = getAttr k sdoc) ∧
    ∃ base w0 rights caps,
      builders.ResourceMaker_makeResource builders.ServiceResourceMaker
        service setNames w = (Ok base, w0) ∧
      modelbuilder.build builders._rightsBuilder service w0 = (Ok rights, w1) ∧
      mapM capabilities.getCapabilityElement
        (builders.getPublicationsForSet service setNames) = Ok caps ∧
      elemChildren sdoc
        = elemChildren base ++ flattenAll rights ++ map inr (omap (λ c, c) caps).
Proof.
  intros Htype H. unfold builders.getVORMetadataElement in H.
  apply M_bind_Ok in H as (t & w0 & Ht & H). apply lift_Ok in Ht as [Ht ->].
  rewrite Htype in Ht. apply Ok_inj in Ht as <-.
  apply M_bind_Ok in H as (maker & w0 & Hmaker & H).
  apply lift_Ok in Hmaker as [Hmaker ->].
  assert (maker = builders.CatalogServiceResourceMaker) as ->.
  { apply Ok_inj. rewrite <- Hmaker. vm_compute. reflexivity. }
  unfold builders._makeResource in H. simpl builders.rm_method in H.
  unfold fmap, M_fmap in H.
  apply M_bind_Ok in H as (doc & w3 & H & Hret). apply M_ret_Ok in Hret as [-> ->].
  unfold builders.CatalogServiceResourceMaker_makeResource in H.
  apply M_bind_Ok in H as (ddoc & wd & Hds & H).
  apply M_bind_Ok in H as (ts & wt & Hts & H). apply lift_Ok in Hts as [Hts ->].
  apply M_ret_Ok in H as [-> ->].
  unfold builders.DataServiceResourceMaker_makeResource in Hds.
  apply M_bind_Ok in Hds as (sdoc0 & w1 & Hs & Hds).
  apply M_bind_Ok in Hds as (org & w2 & Horg & Hds).
  apply M_bind_Ok in Hds as (coverage & wc & Hcov & Hds).
  apply M_ret_Ok in Hds as [-> ->].
  unfold builders.ServiceResourceMaker_makeResource in Hs.
  apply M_bind_Ok in Hs as (base & wb & Hbase & Hs).
  apply M_bind_Ok in Hs as (rights & wr & Hrights & Hs).
  apply M_bind_Ok in Hs as (caps & wk & Hcaps & Hs). apply lift_Ok in Hcaps as [Hcaps ->].
  apply M_ret_Ok in Hs as [-> ->].
  unfold builders.capabilitiesFor in Hcaps. bind_inv Hcaps.
  apply Ok_inj in Hcaps as <-. rename a into capList.
  apply ResourceMaker_makeResource_service in Hbase as (sbase & Hsbase & Hch & Hattrs);
    [|reflexivity].
  eexists _, (addChild (addChildren sbase rights) _), wr, org, w2, coverage, ts.
  split; [reflexivity|]. split.
  { change (builders._makeResource VALIDATING builders.ServiceResourceMaker
              service setNames)
      with (CElem <$> builders.ServiceResourceMaker_makeResource
                        builders.ServiceResourceMaker service setNames).
    unfold fmap, M_fmap, builders.ServiceResourceMaker_makeResource. cbv beta.
    erewrite M_bind_run; [reflexivity|].
    erewrite M_bind_run; [|exact Hsbase].
    erewrite M_bind_run; [|exact Hrights].
    erewrite M_bind_run; [reflexivity|].
    unfold lift, builders.capabilitiesFor. rewrite Ha. reflexivity. }
  split; [exact Horg|]. split; [exact Hcov|]. split; [exact Hts|].
  split.
  { rewrite elemChildren_addChild, elemChildren_addChildren.
    rewrite !elemChildren_addChild, !elemChildren_addChildren, Hch.
    rewrite !flatten_cons, flatten_nil, app_nil_r.
    unfold flattenAll. by rewrite <- !app_assoc. }
  split.
  { intros k Hk. unfold getAttr.
    rewrite !elemAttrs_addChild, !elemAttrs_addChildren, !elemAttrs_addChild,
      !elemAttrs_addChildren.
    apply (Hattrs k Hk). }
  exists sbase, wb, rights, capList.
  split; [exact Hsbase|]. split; [exact Hrights|]. split; [exact Ha|].
  rewrite elemChildren_addChild, elemChildren_addChildren, flatten_capabilities.
  unfold flattenAll. by rewrite <- app_assoc.
Qed.



(** ** Rows for the service tables *)




(** C5, as the code has it: for a service without publications
    [iterSvcRecs] yields nothing and does nothing else either. *)
Theorem iterSvcRecs_no_publications (VALIDATING : bool) (service : Resob)
    (keepTimestamp : bool) (w : World) :
  publications service = [] →
  publication.iterSvcRecs VALIDATING service keepTimestamp w = (Ok tt, w).
Proof. intros H. unfold publication.iterSvcRecs. by rewrite H. Qed.

End Properties.

(** * Further properties *)

Section FurtherProperties.
Context `{E : Externals}.

(** ** Table sets: columns, tables and foreign keys *)

Lemma childrenNamed_eq n e : childrenNamed n e = elementsNamed n (elemChildren e).
Proof. reflexivity. Qed.

Lemma valuesNamed_eq n l : valuesNamed n l = flat_map textOf (elementsNamed n l).
Proof. reflexivity. Qed.

Lemma elementsNamed_app n l1 l2 :
  elementsNamed n (l1 ++ l2) = elementsNamed n l1 ++ elementsNamed n l2.
Proof. unfold elementsNamed. by rewrite omap_app, filter_app. Qed.

Lemma elementsNamed_cons_inr n x l :
  elementsNamed n (inr x :: l) =
  if decide (elemName x = n) then x :: elementsNamed n l else elementsNamed n l.
Proof. unfold elementsNamed. simpl. rewrite filter_cons. reflexivity. Qed.

Lemma elementsNamed_all n (l : list Element) :
  Forall (λ x, elemName x = n) l → elementsNamed n (map inr l) = l.
Proof.
  induction 1 as [|x l Hx _ IH]; [done|].
  rewrite map_cons, elementsNamed_cons_inr, IH. by rewrite decide_True.
Qed.

Lemma elementsNamed_none n (l : list Element) :
  Forall (λ x, elemName x ≠ n) l → elementsNamed n (map inr l) = [].
Proof.
  induction 1 as [|x l Hx _ IH]; [done|].
  rewrite map_cons, elementsNamed_cons_inr, IH. by rewrite decide_False.
Qed.

Lemma mapM_Ok_Forall2 {A B} (f : A → Result B) l r :
  mapM f l = Ok r → Forall2 (λ a b, f a = Ok b) l r.
Proof.
  revert r. induction l as [|x l IH]; simpl; intros r H.
  - apply Ok_inj in H as <-. constructor.
  - bind_inv H. apply Ok_inj in H as <-. constructor; auto.
Qed.

Lemma voTableDataTypeFactory_name dbType xtype ty :
  tableset.voTableDataTypeFactory dbType xtype = Ok ty → elemName ty = "dataType".
Proof.
  unfold tableset.voTableDataTypeFactory.
  destruct (sqltypeToVOTable dbType) as [[t l] x].
  destruct (optStrEq xtype "adql:REGION"); intros H;
    apply bind_Ok in H as (a & Ha & H);
    apply call_inv in H as (Hc & _ & _); apply call_inv in Ha as (Hc' & _ & _);
    unfold elemName; rewrite Hc, elemClass_addChild, Hc'; reflexivity.
Qed.

Lemma getTableColumnFromColumn_children column e :
  tableset.getTableColumnFromColumn column tableset.voTableDataTypeFactory = Ok e →
  elemClass e = VS.column ∧
  ∃ ty, elemName ty = "dataType" ∧
    elemChildren e =
      inr (Elem VS.name [] [inl (effectiveColumnName column)]) ::
      inr (addChild (new VS.description) (optChild (col_description column))) ::
      inr (addChild (new VS.unit) (optChild (col_unit column))) ::
      inr (addChild (new VS.ucd) (optChild (col_ucd column))) ::
      inr (addChild (new VS.utype) (optChild (col_utype column))) ::
      inr ty ::
      map (λ f, inr (Elem VS.flag [] [inl f])) (columnFlags column).
Proof.
  unfold tableset.getTableColumnFromColumn. intros H.
  apply bind_Ok in H as (ty & Hty & H).
  apply voTableDataTypeFactory_name in Hty.
  apply call_inv in H as (Hc & Hch & _).
  split; [by rewrite Hc, elemClass_addChildren|].
  exists ty. split; [done|]. rewrite Hch, elemChildren_addChildren.
  rewrite !flatten_cons, flatten_nil, app_nil_r.
  rewrite (flatten_map_elements (λ f, addChild (new VS.flag) (CStr f))).
  reflexivity.
Qed.

Lemma valuesNamed_leaves n c (l : list string) :
  ec_name c = n → valuesNamed n (map (λ f, inr (Elem c [] [inl f])) l) = l.
Proof.
  intros Hn. induction l as [|x l IH]; [done|].
  rewrite map_cons. change (?y :: ?l') with ([y] ++ l') at 1.
  rewrite valuesNamed_app, IH. rewrite valuesNamed_eq, elementsNamed_cons_inr.
  rewrite decide_True by exact Hn. reflexivity.
Qed.

Lemma valuesNamed_cons_other n x l :
  elemName x ≠ n → valuesNamed n (inr x :: l) = valuesNamed n l.
Proof.
  intros Hx. rewrite !valuesNamed_eq, elementsNamed_cons_inr.
  by rewrite decide_False.
Qed.

Lemma valuesNamed_cons_same n x l :
  elemName x = n → valuesNamed n (inr x :: l) = textOf x ++ valuesNamed n l.
Proof.
  intros Hx. rewrite !valuesNamed_eq, elementsNamed_cons_inr.
  by rewrite decide_True.
Qed.

Lemma column_element_flags column e :
  tableset.getTableColumnFromColumn column tableset.voTableDataTypeFactory = Ok e →
  flagsOf e = columnFlags column.
Proof.
  intros H. apply getTableColumnFromColumn_children in H as (_ & ty & Hty & Hch).
  unfold flagsOf. rewrite Hch.
  rewrite !valuesNamed_cons_other;
    [by apply valuesNamed_leaves|by rewrite ?Hty..].
Qed.

Lemma column_element_name column e :
  tableset.getTableColumnFromColumn column tableset.voTableDataTypeFactory = Ok e →
  elemName e = "column" ∧ nameOf e = [effectiveColumnName column].
Proof.
  intros H. apply getTableColumnFromColumn_children in H as (Hc & ty & Hty & Hch).
  split; [unfold elemName; by rewrite Hc|].
  unfold nameOf. rewrite Hch.
  rewrite valuesNamed_cons_same by done.
  rewrite !valuesNamed_cons_other by (by rewrite ?Hty).
  assert (Hflags : ∀ l : list string,
            valuesNamed "name" (map (λ f, inr (Elem VS.flag [] [inl f])) l) = []).
  { induction l as [|x l IH]; [done|]. rewrite map_cons.
    by rewrite valuesNamed_cons_other. }
  by rewrite Hflags.
Qed.

(** X1: the flags of a column element are exactly these: [indexed] when the
    column is indexed, [primary] when it is a primary key, [nullable] when
    it is neither a primary key nor required; so no column is flagged
    both [primary] and [nullable], and no flag is given twice. *)
Theorem column_flags (column : Column) (e : Element) :
  tableset.getTableColumnFromColumn column tableset.voTableDataTypeFactory = Ok e →
  ("indexed" ∈ flagsOf e ↔ col_isIndexed column = true) ∧
  ("primary" ∈ flagsOf e ↔ col_isPrimary column = true) ∧
  ("nullable" ∈ flagsOf e ↔
     col_isPrimary column = false ∧ col_required column = false) ∧
  (∀ f, f ∈ flagsOf e → f ∈ ["indexed"; "primary"; "nullable"]) ∧
  NoDup (flagsOf e).
Proof.
  intros H. rewrite (column_element_flags _ _ H). unfold columnFlags.
  destruct (col_isIndexed column), (col_isPrimary column), (col_required column);
    simpl; split_and!; try intros f;
    repeat match goal with
           | |- NoDup [] => apply NoDup_nil_2
           | |- NoDup (_ :: _) => apply NoDup_cons_2
           end;
    rewrite ?elem_of_cons, ?elem_of_nil; intuition (discriminate || congruence).
Qed.

Lemma getForeignKeyForForeignKey_cases fk namesInSet :
  tableset.getForeignKeyForForeignKey fk namesInSet =
  match foreignKeyElement fk namesInSet with
  | Some e => CElem e
  | None => CNone
  end.
Proof.
  unfold foreignKeyElement, tableset.getForeignKeyForForeignKey.
  by destruct (bool_decide _).
Qed.

Lemma foreignKeyElement_Some fk namesInSet e :
  foreignKeyElement fk namesInSet = Some e →
  lower (destTableName fk) ∈ namesInSet ∧
  elemName e = "foreignKey" ∧
  valuesNamed "targetTable" (elemChildren e) = [lower (destTableName fk)] ∧
  length (childrenNamed "fkColumn" e) = min (length (fk_source fk)) (length (fk_dest fk)).
Proof.
  unfold foreignKeyElement, tableset.getForeignKeyForForeignKey.
  destruct (bool_decide _) eqn:Hin; [|discriminate]. intros H.
  apply (inj Some) in H. subst e.
  apply bool_decide_eq_true_1 in Hin. split; [done|]. split; [reflexivity|].
  rewrite childrenNamed_eq, elemChildren_addChildren.
  rewrite !flatten_cons, flatten_nil, app_nil_r.
  change (elemChildren (new VS.foreignKey)) with (@nil (string + Element)).
  rewrite app_nil_l.
  set (l := zip (fk_source fk) (fk_dest fk)).
  assert (Hlen : length l = min (length (fk_source fk)) (length (fk_dest fk))).
  { unfold l. apply length_zip_with. }
  rewrite <- Hlen. clearbody l. clear Hlen.
  rewrite valuesNamed_app, elementsNamed_app.
  change (flatten (CElem ?x)) with [@inr string Element x].
  rewrite valuesNamed_cons_same by reflexivity.
  rewrite elementsNamed_cons_inr, decide_False by discriminate.
  change (valuesNamed "targetTable" []) with (@nil string).
  change (elementsNamed "fkColumn" []) with (@nil Element).
  rewrite app_nil_r, !app_nil_l.
  induction l as [|[a b] l [IH1 IH2]]; [done|].
  rewrite map_cons, flatten_cons.
  change (flatten (CElem ?x)) with [@inr string Element x].
  rewrite valuesNamed_app, elementsNamed_app.
  rewrite valuesNamed_cons_other by discriminate.
  rewrite elementsNamed_cons_inr, decide_True by reflexivity.
  split.
  - simpl textOf in *. simpl app in *. exact IH1.
  - rewrite length_app. simpl length at 1 3. by rewrite IH2.
Qed.

Lemma flatten_foreignKeys (fks : list ForeignKey) namesInSet :
  flatten (CSeq (map (λ fk, tableset.getForeignKeyForForeignKey fk namesInSet) fks))
  = map inr (omap (λ fk, foreignKeyElement fk namesInSet) fks).
Proof.
  induction fks as [|fk l IH]; [done|].
  rewrite map_cons, flatten_cons, IH, getForeignKeyForForeignKey_cases. simpl.
  by destruct (foreignKeyElement fk namesInSet).
Qed.

Lemma getTableForTableDef_children td namesInSet rootElement suppressBodies e :
  tableset.getTableForTableDef td namesInSet rootElement suppressBodies = Ok e →
  elemClass e = rootElement ∧
  ∃ title description utype nrows cols,
    Forall2 (λ col c, tableset.getTableColumnFromColumn col
                        tableset.voTableDataTypeFactory = Ok c)
      (if suppressBodies then [] else visibleColumns td) cols ∧
    elemChildren e =
      inr (Elem VS.name [] [inl (tableset.getEffectiveTableName td)]) ::
      inr (Elem VS.title [] title) :: inr (Elem VS.description [] description) ::
      inr (Elem VS.utype [] utype) :: inr (Elem VS.nrows [] nrows) ::
      map inr cols ++
      map inr (if suppressBodies then []
               else omap (λ fk, foreignKeyElement fk namesInSet) (td_foreignKeys td)).
Proof.
  unfold tableset.getTableForTableDef. intros H.
  apply bind_Ok in H as (root & Hroot & H).
  apply call_inv in Hroot as (Hrc & Hrch & _).
  apply bind_Ok in H as (title & _ & H).
  apply bind_Ok in H as (description & _ & H).
  apply bind_Ok in H as (utype & _ & H).
  destruct suppressBodies; simpl negb in H; cbv iota in H.
  - apply Ok_inj in H as <-. split; [by rewrite elemClass_addChildren|].
    eexists _, _, _, _, []. split; [constructor|].
    rewrite elemChildren_addChildren, Hrch.
    rewrite !flatten_cons, flatten_nil. reflexivity.
  - apply bind_Ok in H as (cols & Hcols & H). apply Ok_inj in H as <-.
    split; [by rewrite !elemClass_addChildren|].
    eexists _, _, _, _, cols. split; [by apply mapM_Ok_Forall2|].
    rewrite !elemChildren_addChildren, Hrch.
    rewrite !flatten_cons, !flatten_nil, flatten_map_CElem, flatten_foreignKeys.
    rewrite !app_nil_r. reflexivity.
Qed.

Lemma setAttr_getAttrIn k v a a' :
  setAttr k v a = Some a' → getAttrIn k a' = v.
Proof.
  revert a'. induction a as [|[k' v'] r IH]; simpl; intros a' H; [discriminate|].
  destruct (strEq k k') eqn:Hk.
  - apply (inj Some) in H. subst a'. simpl. by rewrite Hk.
  - destruct (setAttr k v r) as [r'|]; [|discriminate].
    apply (inj Some) in H. subst a'. simpl. rewrite Hk. by apply IH.
Qed.

Lemma call_getAttr e k v e' :
  call e [(k, v)] = Ok e' → getAttr k e' = v.
Proof.
  intros H. apply call_inv in H as (_ & _ & H). simpl in H.
  destruct (setAttr k v (elemAttrs e)) as [a'|] eqn:Ha; [|discriminate].
  apply Ok_inj in H. unfold getAttr. rewrite <- H. by eapply setAttr_getAttrIn.
Qed.

Lemma columns_named cols (l : list Column) :
  Forall2 (λ col c, tableset.getTableColumnFromColumn col
                      tableset.voTableDataTypeFactory = Ok c) l cols →
  Forall (λ c, elemName c = "column") cols ∧
  flat_map nameOf cols = map effectiveColumnName l.
Proof.
  induction 1 as [|col c l cols Hc _ [IH1 IH2]]; [by split|].
  apply column_element_name in Hc as [Hn Hname].
  split; [by constructor|]. simpl. by rewrite Hname, IH2.
Qed.

Lemma foreignKeys_named (fks : list ForeignKey) namesInSet :
  Forall (λ e, elemName e = "foreignKey")
    (omap (λ fk, foreignKeyElement fk namesInSet) fks).
Proof.
  apply Forall_forall. intros e He. apply list_elem_of_omap in He as (fk & _ & He).
  by apply foreignKeyElement_Some in He as (_ & Hn & _).
Qed.

(** X2: the element [getTableForTableDef] builds for a table has the
    table's effective name as its only name; its columns are the table's
    columns that are not hidden, in order, under their lower-cased names
    (as written, for quoted names); with [suppressBodies] it has neither
    columns nor foreign keys; and its [type] attribute is [output]
    exactly for the table called [output]. *)
Theorem hidden_columns_not_exposed (td : TableDef) (namesInSet : gset string)
    (rootElement : ElemClass) (suppressBodies : bool) (e : Element) :
  tableset.getTableForTableDef td namesInSet rootElement suppressBodies = Ok e →
  nameOf e = [tableset.getEffectiveTableName td] ∧
  columnNames e =
    (if suppressBodies then []
     else map (λ col, if col_isQuotedName col then col_name col
                      else lower (col_name col))
            (filter (λ col, col_hidden col = false) (td_columns td))) ∧
  (suppressBodies = true → childrenNamed "foreignKey" e = []) ∧
  (getAttr "type" e = Some "output" ↔ tableset.getEffectiveTableName td = "output").
Proof.
  intros H.
  assert (Htype : getAttr "type" e = Some "output" ↔
                  tableset.getEffectiveTableName td = "output").
  { unfold tableset.getTableForTableDef in H.
    apply bind_Ok in H as (root & Hroot & H).
    apply call_getAttr in Hroot.
    assert (He : getAttr "type" e = getAttr "type" root).
    { apply bind_Ok in H as (title & _ & H).
      apply bind_Ok in H as (description & _ & H).
      apply bind_Ok in H as (utype & _ & H).
      destruct (negb suppressBodies).
      - apply bind_Ok in H as (cols & _ & H). apply Ok_inj in H as <-.
        unfold getAttr. by rewrite !elemAttrs_addChildren.
      - apply Ok_inj in H as <-. unfold getAttr. by rewrite !elemAttrs_addChildren. }
    rewrite He, Hroot. unfold strEq.
    destruct (decide (tableset.getEffectiveTableName td = "output")) as [Heq|Hne].
    - by rewrite bool_decide_eq_true_2.
    - rewrite bool_decide_eq_false_2 by done. split; [discriminate|done]. }
  apply getTableForTableDef_children in H
    as (_ & title & description & utype & nrows & cols & Hcols & Hch).
  apply columns_named in Hcols as [Hnamed Hnames].
  pose proof (foreignKeys_named (td_foreignKeys td) namesInSet) as Hfks.
  assert (Hfk' : Forall (λ e, elemName e = "foreignKey")
            (if suppressBodies then []
             else omap (λ fk, foreignKeyElement fk namesInSet) (td_foreignKeys td))).
  { by destruct suppressBodies. }
  split_and!.
  - unfold nameOf. rewrite Hch.
    rewrite valuesNamed_cons_same by reflexivity.
    rewrite !valuesNamed_cons_other by discriminate.
    rewrite valuesNamed_app, !valuesNamed_eq.
    rewrite !elementsNamed_none; [done|..].
    + eapply Forall_impl; [exact Hfk'|]. intros x ->. discriminate.
    + eapply Forall_impl; [exact Hnamed|]. intros x ->. discriminate.
  - unfold columnNames. rewrite childrenNamed_eq, Hch.
    rewrite !elementsNamed_cons_inr, !decide_False by discriminate.
    rewrite elementsNamed_app, elementsNamed_all by exact Hnamed.
    rewrite elementsNamed_none, app_nil_r.
    + rewrite Hnames. by destruct suppressBodies.
    + eapply Forall_impl; [exact Hfk'|]. intros x ->. discriminate.
  - intros ->. rewrite childrenNamed_eq, Hch.
    rewrite !elementsNamed_cons_inr, !decide_False by discriminate.
    rewrite elementsNamed_app, app_nil_r.
    apply elementsNamed_none.
    eapply Forall_impl; [exact Hnamed|]. intros x ->. discriminate.
  - exact Htype.
Qed.

Lemma foldl_addChild (l : list Element) e :
  elemClass (foldl (λ res s, addChild res (CElem s)) e l) = elemClass e ∧
  elemChildren (foldl (λ res s, addChild res (CElem s)) e l)
    = elemChildren e ++ map inr l.
Proof.
  revert e. induction l as [|x l IH]; intros e; simpl.
  - by rewrite app_nil_r.
  - destruct (IH (addChild e (CElem x))) as [-> ->].
    rewrite elemClass_addChild, elemChildren_addChild. simpl.
    by rewrite <- app_assoc.
Qed.

Lemma table_element_shape td namesInSet suppressBodies e :
  tableset.getTableForTableDef td namesInSet VS.table suppressBodies = Ok e →
  elemName e = "table" ∧
  nameOf e = [tableset.getEffectiveTableName td] ∧
  childrenNamed "foreignKey" e =
    (if suppressBodies then []
     else omap (λ fk, foreignKeyElement fk namesInSet) (td_foreignKeys td)).
Proof.
  intros H. apply getTableForTableDef_children in H
    as (Hc & title & description & utype & nrows & cols & Hcols & Hch).
  apply columns_named in Hcols as [Hnamed _].
  pose proof (foreignKeys_named (td_foreignKeys td) namesInSet) as Hfks.
  assert (Hfk' : Forall (λ e, elemName e = "foreignKey")
            (if suppressBodies then []
             else omap (λ fk, foreignKeyElement fk namesInSet) (td_foreignKeys td))).
  { by destruct suppressBodies. }
  split_and!.
  - unfold elemName. by rewrite Hc.
  - unfold nameOf. rewrite Hch.
    rewrite valuesNamed_cons_same by reflexivity.
    rewrite !valuesNamed_cons_other by discriminate.
    rewrite valuesNamed_app, !valuesNamed_eq.
    rewrite !elementsNamed_none; [done|..].
    + eapply Forall_impl; [exact Hfk'|]. intros x ->. discriminate.
    + eapply Forall_impl; [exact Hnamed|]. intros x ->. discriminate.
  - rewrite childrenNamed_eq, Hch.
    rewrite !elementsNamed_cons_inr, !decide_False by discriminate.
    rewrite elementsNamed_app, (elementsNamed_all _ _ Hfk').
    rewrite (elementsNamed_none _ cols); [done|].
    eapply Forall_impl; [exact Hnamed|]. intros x ->. discriminate.
Qed.

Lemma tables_named namesInSet suppressBodies (tables : list TableDef) tabs :
  Forall2 (λ td e, tableset.getTableForTableDef td namesInSet VS.table
                     suppressBodies = Ok e) tables tabs →
  Forall (λ e, elemName e = "table") tabs.
Proof.
  induction 1 as [|td e l tabs He _ IH]; constructor; [|done].
  by apply table_element_shape in He as (? & _).
Qed.

Lemma schemaCollection_shape schemas rootElement suppressBodies ts :
  tableset.getTablesetForSchemaCollection schemas rootElement suppressBodies = Ok ts →
  elemClass ts = rootElement ∧
  schemaNames ts = map (λ s, schema s.1) (finalSchemas schemas) ∧
  ∃ tabs,
    Forall2 (λ td e, tableset.getTableForTableDef td (namesOf schemas) VS.table
                       suppressBodies = Ok e)
      (flat_map snd (finalSchemas schemas)) tabs ∧
    tableElements ts = tabs.
Proof.
  unfold tableset.getTablesetForSchemaCollection. fold (finalSchemas schemas).
  fold (namesOf schemas). intros H.
  apply bind_Ok in H as (schemaElements & Hs & H). apply Ok_inj in H as <-.
  destruct (foldl_addChild schemaElements (new rootElement)) as [Hc Hch].
  split; [exact Hc|].
  change (elemChildren (new rootElement)) with (@nil (string + Element)) in Hch.
  rewrite app_nil_l in Hch.
  apply mapM_Ok_Forall2 in Hs.
  unfold schemaNames, tableElements. rewrite !childrenNamed_eq, Hch.
  clear Hc Hch. induction Hs as [|[rd tables] s l ss Hs _ IH].
  - split; [done|]. exists []. split; [constructor|done].
  - destruct IH as (IHn & tabs' & IHt & IHe).
    apply bind_Ok in Hs as (title & _ & Hs).
    apply bind_Ok in Hs as (description & _ & Hs).
    apply bind_Ok in Hs as (utype & _ & Hs).
    apply bind_Ok in Hs as (tabs & Htabs & Hs). apply Ok_inj in Hs.
    apply mapM_Ok_Forall2 in Htabs.
    pose proof (tables_named _ _ _ _ Htabs) as Hnamed.
    assert (Hsn : elemName s = "schema") by (by rewrite <- Hs).
    assert (Hsch : elemChildren s =
              inr (Elem VS.name [] [inl (schema rd)]) ::
              inr (addChild (new VS.title) (optChild title)) ::
              inr (addChild (new VS.description) (optChild description)) ::
              inr (addChild (new VS.utype) (optChild utype)) :: map inr tabs).
    { rewrite <- Hs, elemChildren_addChildren.
      rewrite !flatten_cons, flatten_nil, flatten_map_CElem, app_nil_r.
      reflexivity. }
    rewrite map_cons, elementsNamed_cons_inr, decide_True by exact Hsn.
    split.
    + simpl. rewrite IHn. f_equal. unfold nameOf. rewrite Hsch.
      rewrite valuesNamed_cons_same by reflexivity.
      rewrite !valuesNamed_cons_other by discriminate.
      rewrite valuesNamed_eq, elementsNamed_none; [done|].
      eapply Forall_impl; [exact Hnamed|]. intros x ->. discriminate.
    + exists (tabs ++ tabs'). split.
      * simpl. by apply Forall2_app.
      * simpl. rewrite IHe. f_equal. rewrite childrenNamed_eq, Hsch.
        rewrite !elementsNamed_cons_inr, !decide_False by discriminate.
        by apply elementsNamed_all.
Qed.

Lemma lowerAscii_idemp c : lowerAscii (lowerAscii c) = lowerAscii c.
Proof. destruct c as [[] [] [] [] [] [] [] []]; reflexivity. Qed.

Lemma lower_idemp s : lower (lower s) = lower s.
Proof. induction s as [|c s IH]; simpl; [done|]. by rewrite lowerAscii_idemp, IH. Qed.

Lemma getEffectiveTableName_lower td :
  lower (tableset.getEffectiveTableName td) = tableset.getEffectiveTableName td.
Proof.
  unfold tableset.getEffectiveTableName.
  destruct (td_isOutputTableDef td); [reflexivity|apply lower_idemp].
Qed.

Lemma addObscore_keeps schemas td :
  td ∈ flat_map snd schemas → td ∈ flat_map snd (tableset.addObscore schemas).
Proof.
  induction schemas as [|[rd tables] rest IH]; simpl; intros H.
  - by apply elem_of_nil in H.
  - destruct (strEq (schema rd) "ivoa").
    + destruct (existsb _ tables); simpl; [done|].
      apply elem_of_app in H as [H|H]; apply elem_of_app;
        [left; apply elem_of_app; by left|by right].
    + simpl. apply elem_of_app in H as [H|H]; apply elem_of_app; auto.
Qed.

Lemma elem_of_flat_map {A B} (f : A → list B) (l : list A) (y : B) :
  y ∈ flat_map f l ↔ ∃ x, x ∈ l ∧ y ∈ f x.
Proof.
  rewrite list_elem_of_In, in_flat_map. split; intros (x & Hx & Hy); exists x;
    by rewrite ?list_elem_of_In in *.
Qed.

Lemma table_elements_closed namesInSet suppressBodies (tds : list TableDef) tabs :
  Forall2 (λ td e, tableset.getTableForTableDef td namesInSet VS.table
                     suppressBodies = Ok e) tds tabs →
  flat_map nameOf tabs = map tableset.getEffectiveTableName tds ∧
  ∀ target,
    target ∈ flat_map (λ t, flat_map (λ fk, valuesNamed "targetTable" (elemChildren fk))
                              (childrenNamed "foreignKey" t)) tabs →
    target ∈ namesInSet.
Proof.
  induction 1 as [|td e l tabs He _ [IHn IHt]]; [split; [done|]|].
  { intros target Ht. by apply elem_of_nil in Ht. }
  apply table_element_shape in He as (_ & Hname & Hfks).
  split; [simpl; by rewrite Hname, IHn|].
  intros target Ht. simpl in Ht. apply elem_of_app in Ht as [Ht|Ht]; [|by apply IHt].
  rewrite Hfks in Ht. apply elem_of_flat_map in Ht as (fk & Hfk & Ht).
  destruct suppressBodies; [by apply elem_of_nil in Hfk|].
  apply list_elem_of_omap in Hfk as (k & _ & Hk).
  apply foreignKeyElement_Some in Hk as (Hin & _ & Hv & _).
  rewrite Hv in Ht. apply list_elem_of_singleton in Ht. by subst.
Qed.

(** X3: in a table set built by [getTablesetForSchemaCollection], the
    target table of every foreign key element is the name of a table
    element of that table set: keys into tables outside are left out. *)
Theorem foreign_keys_stay_inside (schemas : list (RD * list TableDef))
    (rootElement : ElemClass) (suppressBodies : bool) (ts : Element) :
  tableset.getTablesetForSchemaCollection schemas rootElement suppressBodies = Ok ts →
  ∀ target, target ∈ foreignKeyTargets ts → target ∈ tableNames ts.
Proof.
  intros H target Htarget.
  apply schemaCollection_shape in H as (_ & _ & tabs & Htabs & Hte).
  unfold foreignKeyTargets, tableNames in *. rewrite Hte in *. clear Hte.
  apply table_elements_closed in Htabs as [Hnames Hclosed].
  apply Hclosed in Htarget. rewrite Hnames.
  unfold namesOf in Htarget. apply elem_of_list_to_set in Htarget.
  apply list_elem_of_fmap in Htarget as (td & -> & Htd).
  rewrite getEffectiveTableName_lower. apply list_elem_of_fmap.
  exists td. split; [done|]. unfold finalSchemas.
  destruct (existsb _ _); [by apply addObscore_keeps|done].
Qed.

(** ** Table sets: the schemas of a resource *)

Lemma insertStr_perm s l : insertStr s l ≡ₚ s :: l.
Proof.
  induction l as [|x l IH]; simpl; [done|].
  destruct (String.leb s x); [done|]. rewrite IH. apply Permutation_swap.
Qed.

Lemma sortStrings_perm l : sortStrings l ≡ₚ l.
Proof.
  induction l as [|x l IH]; simpl; [done|].
  unfold sortStrings in *. simpl. by rewrite insertStr_perm, IH.
Qed.

Lemma insertStr_sorted s l : Sorted lebs l → Sorted lebs (insertStr s l).
Proof.
  induction 1 as [|x l Hl IH Hx]; simpl.
  - repeat constructor.
  - destruct (String.leb s x) eqn:Hsx.
    + constructor; [by constructor|]. by constructor.
    + constructor; [exact IH|].
      assert (Hxs : lebs x s).
      { destruct (String.leb_total s x) as [H|H]; [congruence|exact H]. }
      destruct Hx as [|y l Hxy]; simpl.
      * by constructor.
      * destruct (String.leb s y); by constructor.
Qed.

Lemma sortStrings_sorted l : Sorted lebs (sortStrings l).
Proof.
  induction l as [|x l IH]; [constructor|]. by apply insertStr_sorted.
Qed.

Lemma partition_other {A} (f : A → string) (x : A) (l : list A) (ks : list string) :
  f x ∉ ks →
  flat_map (λ k, filter (λ y, f y = k) (x :: l)) ks
  = flat_map (λ k, filter (λ y, f y = k) l) ks.
Proof.
  induction ks as [|k ks IH]; [done|]. intros Hx. simpl.
  rewrite filter_cons, decide_False, IH; [done|..].
  - intros Hin. apply Hx. by right.
  - intros Heq. apply Hx. rewrite Heq. by left.
Qed.

Lemma partition_perm {A} (f : A → string) (l : list A) (ks : list string) :
  NoDup ks → (∀ x, x ∈ l → f x ∈ ks) →
  flat_map (λ k, filter (λ x, f x = k) l) ks ≡ₚ l.
Proof.
  intros Hks. induction l as [|x l IH]; intros Hcover.
  - clear. induction ks as [|k ks IH]; [done|]. simpl. by rewrite IH.
  - transitivity (x :: flat_map (λ k, filter (λ y, f y = k) l) ks);
      [|constructor; apply IH; intros y Hy; apply Hcover; by right].
    assert (Hin : f x ∈ ks) by (apply Hcover; by left).
    clear IH Hcover. induction Hks as [|k ks Hk Hks IH].
    + by apply elem_of_nil in Hin.
    + simpl. rewrite filter_cons. destruct (decide (f x = k)) as [Heq|Hne].
      * rewrite partition_other by (by rewrite Heq). done.
      * apply elem_of_cons in Hin as [Hin|Hin]; [done|].
        rewrite (IH Hin). by rewrite Permutation_middle.
Qed.

Lemma groupBySchema_snoc l t :
  tableset.groupBySchema (l ++ [t]) =
  let '(bySchema, rdForSchema) := tableset.groupBySchema l in
  let k := tableset.schemaNameOf t in
  (<[k := default [] (bySchema !! k) ++ [t]]> bySchema,
   <[k := default tableset._INTERNAL_SCHEMA (td_rd t)]> rdForSchema).
Proof. unfold tableset.groupBySchema. rewrite foldl_app. simpl. by destruct (foldl _ _ l). Qed.

Lemma groupBySchema_spec tables :
  (∀ k, (tableset.groupBySchema tables).1 !! k =
        match filter (λ t, tableset.schemaNameOf t = k) tables with
        | [] => None
        | l => Some l
        end) ∧
  (∀ k, match (tableset.groupBySchema tables).2 !! k with
        | Some r => schema r = k ∧ is_Some ((tableset.groupBySchema tables).1 !! k)
        | None => (tableset.groupBySchema tables).1 !! k = None
        end).
Proof.
  induction tables as [|t l [IHb IHr]] using rev_ind.
  - split; intros k; simpl; by rewrite ?lookup_empty.
  - rewrite groupBySchema_snoc.
    destruct (tableset.groupBySchema l) as [b r]. simpl in *.
    split; intros k.
    + rewrite filter_app, filter_cons, filter_nil.
      destruct (decide (tableset.schemaNameOf t = k)) as [<-|Hne].
      * rewrite lookup_insert_eq, IHb.
        by destruct (filter _ l).
      * rewrite lookup_insert_ne by done. by rewrite app_nil_r.
    + destruct (decide (tableset.schemaNameOf t = k)) as [<-|Hne].
      * rewrite !lookup_insert_eq. split; [|eauto].
        unfold tableset.schemaNameOf. by destruct (td_rd t).
      * rewrite !lookup_insert_ne by done. apply IHr.
Qed.

Lemma existsb_false_iff {A} (f : A → bool) l :
  existsb f l = false ↔ ∀ x, x ∈ l → f x = false.
Proof.
  induction l as [|y l IH]; simpl.
  - split; [intros _ x Hx; by apply elem_of_nil in Hx|done].
  - rewrite orb_false_iff, IH. split.
    + intros [Hy Hl] x Hx. apply elem_of_cons in Hx as [->|Hx]; auto.
    + intros H. split; [apply H; by left|]. intros x Hx. apply H. by right.
Qed.

Lemma omap_cons_Some {A B} (f : A → option B) x l y :
  f x = Some y → omap f (x :: l) = y :: omap f l.
Proof. simpl. by intros ->. Qed.

(** The schemas [getTablesetForService] hands on. *)
Lemma grouped_schemas (tables : list TableDef) (ks : list string)
    (b : gmap string (list TableDef)) (r : gmap string RD) :
  tableset.groupBySchema tables = (b, r) →
  (∀ k, k ∈ ks → ∃ t, t ∈ tables ∧ tableset.schemaNameOf t = k) →
  let schemas :=
    omap (λ schemaName,
            match r !! schemaName, b !! schemaName with
            | Some r, Some ts => Some (r, ts)
            | _, _ => None
            end) ks in
  map (λ s : RD * list TableDef, schema s.1) schemas = ks ∧
  flat_map snd schemas
    = flat_map (λ k, filter (λ t, tableset.schemaNameOf t = k) tables) ks.
Proof.
  intros Hgroup. destruct (groupBySchema_spec tables) as [Hb Hr].
  rewrite Hgroup in Hb, Hr. simpl in Hb, Hr.
  induction ks as [|k ks IH]; intros Hks; [done|].
  destruct IH as [IH1 IH2]; [intros k' Hk'; apply Hks; by right|].
  destruct (Hks k) as (t & Ht & Hk); [by left|].
  specialize (Hb k). specialize (Hr k).
  assert (Hin : t ∈ filter (λ t, tableset.schemaNameOf t = k) tables)
    by (by apply list_elem_of_filter).
  destruct (filter (λ t, tableset.schemaNameOf t = k) tables) as [|t' l] eqn:Hf;
    [by apply elem_of_nil in Hin|].
  destruct (r !! k) as [rd|] eqn:Hrk; [|congruence].
  destruct Hr as [Hschema _].
  erewrite omap_cons_Some; [|by rewrite Hrk, Hb].
  cbn [map flat_map fst snd]. rewrite IH1, IH2, Hschema, Hf. done.
Qed.

(** X4: for a resource with tables, none of them published through
    obscore, the table set of [getTablesetForService] has one schema
    element per schema name of its tables, in ascending order of the
    names and without repetition, and its table elements are the
    resource's tables, each once. *)
Theorem tableset_schemas (resource : Resob) (rootElement : ElemClass)
    (suppressBodies : bool) (tables : list TableDef) (isList : bool) (ts : Element) :
  tableset.tablesOf resource = Ok (tables, isList) →
  isList && bool_decide (length tables = 0) = false →
  existsb td_obscoreClause tables = false →
  tableset.getTablesetForService resource rootElement suppressBodies = Ok ts →
  NoDup (schemaNames ts) ∧
  sorted_strings (schemaNames ts) ∧
  (∀ n, n ∈ schemaNames ts ↔ ∃ t, t ∈ tables ∧ tableset.schemaNameOf t = n) ∧
  tableNames ts ≡ₚ map tableset.getEffectiveTableName tables.
Proof.
  intros Htables Hsome Hobscore H.
  unfold tableset.getTablesetForService in H. rewrite Htables in H.
  simpl mbind in H. rewrite Hsome in H.
  destruct (groupBySchema_spec tables) as [Hb _].
  destruct (tableset.groupBySchema tables) as [b r] eqn:Hgroup.
  simpl in Hb.
  set (ks := sortStrings (map fst (map_to_list b))) in H.
  assert (Hperm : ks ≡ₚ map fst (map_to_list b)) by apply sortStrings_perm.
  assert (Hnodup : NoDup ks).
  { rewrite Hperm. apply NoDup_fst_map_to_list. }
  assert (Hkeys : ∀ k, k ∈ ks ↔ ∃ t, t ∈ tables ∧ tableset.schemaNameOf t = k).
  { intros k. rewrite Hperm, list_elem_of_fmap. split.
    - intros ([k' tsk] & -> & Hin). apply elem_of_map_to_list in Hin. simpl in *.
      rewrite Hb in Hin.
      destruct (filter _ tables) as [|t l] eqn:Hf; [discriminate|].
      assert (Ht : t ∈ filter (λ t, tableset.schemaNameOf t = k') tables)
        by (rewrite Hf; by left).
      apply list_elem_of_filter in Ht as [Hk Ht]. eauto.
    - intros (t & Ht & Hk).
      assert (Hin : t ∈ filter (λ t, tableset.schemaNameOf t = k) tables)
        by (by apply list_elem_of_filter).
      specialize (Hb k). simpl in Hb.
      destruct (filter _ tables) as [|t' l] eqn:Hf; [by apply elem_of_nil in Hin|].
      exists (k, t' :: l). split; [done|]. by apply elem_of_map_to_list. }
  pose proof (grouped_schemas tables ks b r Hgroup (λ k Hk, proj1 (Hkeys k) Hk))
    as Hschemas.
  cbv zeta in Hschemas.
  set (schemas := omap _ ks) in *. destruct Hschemas as [Hnames Htabs].
  assert (Hall : flat_map snd schemas ≡ₚ tables).
  { rewrite Htabs. apply partition_perm; [done|].
    intros t Ht. apply Hkeys. eauto. }
  assert (Hfinal : finalSchemas schemas = schemas).
  { unfold finalSchemas.
    assert (Hex : existsb td_obscoreClause (flat_map snd schemas) = false).
    { apply existsb_false_iff. intros t Ht. rewrite Hall in Ht.
      revert t Ht. by apply existsb_false_iff. }
    by rewrite Hex. }
  apply schemaCollection_shape in H as (_ & Hsn & tabs & Hshape & Hte).
  rewrite Hfinal in *. rewrite Hnames in Hsn.
  apply table_elements_closed in Hshape as [Htn _].
  split_and!.
  - by rewrite Hsn.
  - rewrite Hsn. apply sortStrings_sorted.
  - intros n. rewrite Hsn. apply Hkeys.
  - unfold tableNames. rewrite Hte, Htn. by rewrite Hall.
Qed.

(** ** The obscore stand-in *)

Lemma strEq_true a b : strEq a b = true ↔ a = b.
Proof. unfold strEq. apply bool_decide_eq_true. Qed.

Lemma obscoreStub_isObscore :
  schema obscoreRD = "ivoa" →
  strEq (lower (td_qName tableset._getObscoreStub)) "ivoa.obscore" = true.
Proof. intros H. simpl. rewrite H. reflexivity. Qed.

Lemma addObscore_names schemas :
  schema obscoreRD = "ivoa" →
  map (λ s : RD * list TableDef, schema s.1) (tableset.addObscore schemas) =
  if bool_decide ("ivoa" ∈ map (λ s : RD * list TableDef, schema s.1) schemas)
  then map (λ s : RD * list TableDef, schema s.1) schemas
  else map (λ s : RD * list TableDef, schema s.1) schemas ++ ["ivoa"].
Proof.
  intros Hivoa. induction schemas as [|[rd tables] rest IH]; simpl.
  - by rewrite Hivoa.
  - destruct (strEq (schema rd) "ivoa") eqn:Hrd.
    + apply strEq_true in Hrd. rewrite bool_decide_eq_true_2 by (rewrite Hrd; by left).
      by destruct (existsb _ tables).
    + simpl. rewrite IH.
      assert (Hne : schema rd ≠ "ivoa").
      { intros Heq. apply strEq_true in Heq. congruence. }
      destruct (decide ("ivoa" ∈ map (λ s : RD * list TableDef, schema s.1) rest)) as [Hin|Hnin].
      * rewrite !bool_decide_eq_true_2; [done|by right|done].
      * rewrite !bool_decide_eq_false_2; [done| |done].
        intros Hin. apply elem_of_cons in Hin as [Hin|Hin]; congruence.
Qed.

Lemma addObscore_nil :
  tableset.addObscore [] = [(obscoreRD, [tableset._getObscoreStub])].
Proof. reflexivity. Qed.

Lemma addObscore_cons rd tables rest :
  tableset.addObscore ((rd, tables) :: rest) =
  if strEq (schema rd) "ivoa" then
    (if existsb (λ td, strEq (lower (td_qName td)) "ivoa.obscore") tables
     then (rd, tables)
     else (rd, tables ++ [tableset._getObscoreStub])) :: rest
  else (rd, tables) :: tableset.addObscore rest.
Proof. reflexivity. Qed.

(** X5: when the obscore descriptor's schema is [ivoa], the schemas after
    adding the obscore stand-in contain a table [ivoa.obscore] in a schema
    [ivoa]; adding it a second time changes nothing; and schema names
    that were distinct stay distinct, so there is never a second [ivoa]
    schema nor a second obscore table. *)
Theorem obscore_added_once (schemas : list (RD * list TableDef)) :
  schema obscoreRD = "ivoa" →
  (∃ rd tables td,
     (rd, tables) ∈ tableset.addObscore schemas ∧ schema rd = "ivoa" ∧
     td ∈ tables ∧ lower (td_qName td) = "ivoa.obscore") ∧
  tableset.addObscore (tableset.addObscore schemas) = tableset.addObscore schemas ∧
  (NoDup (map (λ s : RD * list TableDef, schema s.1) schemas) →
   NoDup (map (λ s : RD * list TableDef, schema s.1) (tableset.addObscore schemas))).
Proof.
  intros Hivoa. pose proof (obscoreStub_isObscore Hivoa) as Hstub.
  assert (Hivoa' : strEq (schema obscoreRD) "ivoa" = true) by (by apply strEq_true).
  split_and!.
  - induction schemas as [|[rd tables] rest IH].
    + rewrite addObscore_nil.
      exists obscoreRD, [tableset._getObscoreStub], tableset._getObscoreStub.
      split_and!; [by left|done|by left|by apply strEq_true].
    + rewrite addObscore_cons. destruct (strEq (schema rd) "ivoa") eqn:Hrd.
      * apply strEq_true in Hrd.
        destruct (existsb _ tables) eqn:Hex.
        -- apply existsb_exists in Hex as (td & Htd & Hq).
           exists rd, tables, td.
           split_and!; [by left|done|by apply list_elem_of_In|by apply strEq_true].
        -- exists rd, (tables ++ [tableset._getObscoreStub]), tableset._getObscoreStub.
           split_and!; [by left|done| |by apply strEq_true].
           apply elem_of_app. right. by left.
      * destruct IH as (rd' & tables' & td & Hin & ?). exists rd', tables', td.
        split; [by right|done].
  - induction schemas as [|[rd tables] rest IH].
    + rewrite addObscore_nil, addObscore_cons, Hivoa'.
      cbn [existsb]. by rewrite Hstub.
    + rewrite addObscore_cons. destruct (strEq (schema rd) "ivoa") eqn:Hrd.
      * destruct (existsb _ tables) eqn:Hex; rewrite addObscore_cons, Hrd.
        -- by rewrite Hex.
        -- rewrite existsb_app. cbn [existsb]. by rewrite Hstub, orb_true_r.
      * by rewrite addObscore_cons, Hrd, IH.
  - intros Hnodup. rewrite (addObscore_names _ Hivoa).
    destruct (decide ("ivoa" ∈ map (λ s : RD * list TableDef, schema s.1) schemas))
      as [Hin|Hnin].
    + by rewrite bool_decide_eq_true_2.
    + rewrite bool_decide_eq_false_2 by done. apply NoDup_app.
      split_and!; [done| |by apply NoDup_singleton].
      intros x Hx Hx'. apply list_elem_of_singleton in Hx'. congruence.
Qed.

(** ** Interfaces: the short alias, the interfaces of TAP *)

Lemma lastChar_app c s : lastChar (s +:+ String c "") = Ok (String c "").
Proof.
  induction s as [|a s IH]; [reflexivity|].
  change (String a s +:+ String c "") with (String a (s +:+ String c "")).
  cbn [lastChar]. destruct (s +:+ String c "") eqn:Hs; [|exact IH].
  destruct s; discriminate.
Qed.

Lemma append_empty_r s : s +:+ "" = s.
Proof.
  induction s as [|a s IH]; [done|].
  change (String a s +:+ "") with (String a (s +:+ "")). by rewrite IH.
Qed.

Lemma lastChar_single s c : lastChar s = Ok c → ∃ a, c = String a "".
Proof.
  induction s as [|a s IH]; [discriminate|]. cbn [lastChar].
  destruct s; [intros H; apply Ok_inj in H as <-; eauto|exact IH].
Qed.

Lemma names_exclude (l : list Element) (names : list string) (n : string) :
  Forall (λ x, elemName x ∈ names) l → n ∉ names → Forall (λ x, elemName x ≠ n) l.
Proof.
  intros Hl Hn. eapply Forall_impl; [exact Hl|]. cbv beta. intros x Hx Heq.
  apply Hn. by rewrite <- Heq.
Qed.

(** X6: when the local part of an access URL has a short alias, the URL is
    rebuilt around the alias, and a final [?] or [&] of the original URL
    is the final character of the result, too. *)
Theorem rewrite_keeps_terminator (url short c : string) :
  longToShort !! dropFirst (path (urlparse url)) = Some short →
  lastChar url = Ok c →
  let parts := urlparse url in
  let rewritten :=
    urlunsplit (scheme parts) (netloc parts) short (params parts) (query parts) in
  capabilities.rewriteAccessURL (Some url)
    = Ok (Some (if strEq c "?" || strEq c "&" then rewritten +:+ c else rewritten)) ∧
  (c = "?" ∨ c = "&" →
   ∃ r, capabilities.rewriteAccessURL (Some url) = Ok (Some r) ∧ lastChar r = Ok c).
Proof.
  intros Hmap Hlast parts rewritten.
  assert (Hrun : capabilities.rewriteAccessURL (Some url)
            = Ok (Some (if strEq c "?" || strEq c "&" then rewritten +:+ c
                        else rewritten))).
  { unfold capabilities.rewriteAccessURL. rewrite Hmap, Hlast.
    simpl mbind. fold parts. fold rewritten.
    destruct (strEq c "?" || strEq c "&"); [done|].
    by rewrite append_empty_r. }
  split; [exact Hrun|]. intros Hc. eexists. split; [exact Hrun|].
  destruct (lastChar_single _ _ Hlast) as (a & ->).
  replace (strEq (String a "") "?" || strEq (String a "") "&") with true.
  - apply lastChar_app.
  - symmetry. destruct Hc as [->| ->]; reflexivity.
Qed.

Lemma InterfaceMaker_makeInterface_attrs self publication res :
  capabilities.InterfaceMaker_makeInterface self publication = Ok res →
  elemClass res = capabilities.interfaceClass self ∧
  elemAttrs res = ec_declared (capabilities.interfaceClass self).
Proof.
  unfold capabilities.InterfaceMaker_makeInterface. intros H.
  apply bind_Ok in H as (accessURL & _ & H).
  apply bind_Ok in H as (accessURL' & _ & H).
  apply bind_Ok in H as (urlUse & _ & H).
  apply bind_Ok in H as (accessURLElement & _ & H).
  apply bind_Ok in H as (securityId & _ & H).
  apply bind_Ok in H as (securityMethod & _ & H).
  destruct registerAlternative; [destruct (switchProtocol _) as [?|[]]|];
    try discriminate; apply Ok_inj in H as <-;
    rewrite ?elemClass_addChild, ?elemAttrs_addChild, elemClass_addChildren,
      elemAttrs_addChildren; done.
Qed.

Lemma InterfaceMaker_makeInterface_children self publication res :
  capabilities.InterfaceMaker_makeInterface self publication = Ok res →
  ∃ l : list Element,
    elemChildren res = map inr l ∧
    Forall (λ x, elemName x ∈ ["accessURL"; "securityMethod"; "mirrorURL"]) l.
Proof.
  unfold capabilities.InterfaceMaker_makeInterface. intros H.
  apply bind_Ok in H as (accessURL & _ & H).
  apply bind_Ok in H as (accessURL' & _ & H).
  apply bind_Ok in H as (urlUse & _ & H).
  apply bind_Ok in H as (accessURLElement & Ha & H).
  apply bind_Ok in H as (securityId & _ & H).
  apply bind_Ok in H as (securityMethod & Hs & H).
  apply call_inv in Ha as (Hac & _). apply call_inv in Hs as (Hsc & _).
  set (mirrors := filter _ _) in H.
  set (base := addChildren _ _) in H.
  assert (Hbase : ∃ l : list Element,
            elemChildren base = map inr l ∧
            Forall (λ x, elemName x ∈ ["accessURL"; "securityMethod"; "mirrorURL"]) l).
  { exists (addChild accessURLElement (optChild accessURL') :: securityMethod ::
            map (λ v, addChild (new VOR.mirrorURL) (CStr (getContent v))) mirrors).
    split.
    - unfold base. rewrite elemChildren_addChildren, !flatten_cons, flatten_nil.
      rewrite (flatten_map_elements
                 (λ v, addChild (new VOR.mirrorURL) (CStr (getContent v)))).
      rewrite app_nil_r. cbn [map]. rewrite map_map. reflexivity.
    - repeat apply Forall_cons_2.
      + unfold elemName. rewrite elemClass_addChild, Hac. by left.
      + unfold elemName. rewrite Hsc. right. by left.
      + apply Forall_fmap, Forall_forall. intros v _. simpl. do 2 right. by left. }
  destruct Hbase as (l & Hl & Hall).
  destruct registerAlternative; [destruct (switchProtocol _) as [alt|[]]|];
    try discriminate; apply Ok_inj in H as <-; try (by exists l).
  exists (l ++ [addChild (new VOR.mirrorURL) (CStr alt)]). split.
  - by rewrite elemChildren_addChild, Hl, fmap_app.
  - apply Forall_app_2; [done|]. apply Forall_singleton. do 2 right. by left.
Qed.

(** X7: when the interfaces of a TAP capability can be built, the first is
    a [tr:interface] with the TAP version; with [dali-interface-in-tap]
    among the future features there is exactly one more, a DALI interface
    of version 1.1 with the endpoints sync, async, tables and examples,
    and the publication's renderer is [dali]; without the feature there is
    no other interface. *)
Theorem TAP_capability_interfaces (publication : Publication) (content : Content) :
  capabilities.TAPCapabilityMaker_getInterfaceElement publication = Ok content →
  ∃ tap rest,
    flatten content = inr tap :: rest ∧
    elemClass tap = TR.interface ∧
    getAttr "version" tap = Some TAP_VERSION ∧
    if bool_decide ("dali-interface-in-tap" ∈ futureConfig)
    then ∃ dali, rest = [inr dali] ∧
           render publication = "dali" ∧
           elemClass dali = DaFut.daliInterface ∧
           getAttr "version" dali = Some "1.1" ∧
           endpointNames dali = ["sync"; "async"; "tables"; "examples"]
    else rest = [].
Proof.
  unfold capabilities.TAPCapabilityMaker_getInterfaceElement. intros H.
  apply bind_Ok in H as (tap & Htap & H).
  assert (Htap' : elemClass tap = TR.interface ∧ getAttr "version" tap = Some TAP_VERSION).
  { unfold capabilities._makeInterface in Htap.
    cbn [capabilities.im_method capabilities.TAPInterface] in Htap.
    apply bind_Ok in Htap as (res & Hres & Htap).
    apply InterfaceMaker_makeInterface_attrs in Hres as [Hc _].
    split; [|by apply call_getAttr in Htap].
    apply call_inv in Htap as (-> & _). exact Hc. }
  destruct Htap' as [Hc Hv].
  destruct (bool_decide ("dali-interface-in-tap" ∈ futureConfig)).
  - apply bind_Ok in H as (dali & Hdali & H). apply Ok_inj in H as <-.
    exists tap, [inr dali]. split_and!; [done..|]. exists dali. split; [done|].
    unfold capabilities._makeInterface in Hdali.
    cbn [capabilities.im_method capabilities.DALIInterface] in Hdali.
    apply bind_Ok in Hdali as (res & Hres & Hdali).
    apply bind_Ok in Hdali as (res' & Hres' & Hdali).
    destruct (strEq (render publication) "dali") eqn:Hrender; [|discriminate].
    apply strEq_true in Hrender. simpl negb in Hdali.  cbv iota in Hdali.
    apply bind_Ok in Hdali as (m & Hm & Hdali). apply Ok_inj in Hdali as <-.
    pose proof Hres as Hres0.
    apply InterfaceMaker_makeInterface_attrs in Hres as [Hrc _].
    pose proof (call_getAttr _ _ _ _ Hres') as Hversion.
    apply call_inv in Hres' as (Hc' & Hch' & _).
    apply call_inv in Hm as (Hmc & Hmch & _).
    split_and!.
    + done.
    + by rewrite elemClass_addChildren, Hc', Hrc.
    + unfold getAttr in *. by rewrite elemAttrs_addChildren.
    + apply InterfaceMaker_makeInterface_children in Hres0 as (l & Hl & Hall).
      unfold endpointNames. rewrite childrenNamed_eq, elemChildren_addChildren.
      rewrite Hch', Hl, elementsNamed_app, elementsNamed_none.
      * destruct m as [mc ma mch]. simpl in Hmc. subst mc. reflexivity.
      * eapply names_exclude; [exact Hall|].
        rewrite !elem_of_cons, elem_of_nil. intuition discriminate.
  - apply Ok_inj in H as <-. exists tap, []. by split_and!.
Qed.

(** ** Capabilities: mandatory metadata, input parameters *)

Lemma CapabilityMaker_makeCapability_shape self publication plain :
  capabilities.cm_method self ≠ capabilities.UseTAPCapabilityMaker →
  capabilities.CapabilityMaker_makeCapability self publication = Ok plain →
  elemClass plain = capabilities.capabilityClass self ∧
  elemAttrs plain = ec_declared (capabilities.capabilityClass self) ∧
  ∃ description interface,
    elemChildren plain = [inr description; inr interface] ∧
    elemName description = "description" ∧ elemName interface = "interface".
Proof.
  intros Hmethod H. unfold capabilities.CapabilityMaker_makeCapability in H.
  apply bind_Ok in H as (description & _ & H).
  apply bind_Ok in H as (interface & Hi & H). apply Ok_inj in H as <-.
  rewrite elemClass_addChildren, elemAttrs_addChildren. split; [done|]. split; [done|].
  assert (Hi' : capabilities.CapabilityMaker_getInterfaceElement publication
                = Ok interface).
  { unfold capabilities._getInterfaceElement in Hi.
    by destruct (capabilities.cm_method self). }
  apply CapabilityMaker_getInterfaceElement_inv in Hi' as (i & -> & Hname).
  eexists _, i. split_and!; [reflexivity|reflexivity|exact Hname].
Qed.

Lemma metaChild_flatten l :
  flatten (CSeq (map (λ v, CStr (getContent v)) l)) = map inl (map getContent l).
Proof.
  induction l as [|v l IH]; [done|].
  rewrite !map_cons, flatten_cons, IH. done.
Qed.

Lemma metaOrDefault_flatten m key d :
  flatten (capabilities.metaOrDefault m key d) =
  map inl match getMeta m key true with
          | Some l => map getContent l
          | None => match d with Some s => [s] | None => [] end
          end.
Proof.
  unfold capabilities.metaOrDefault. destruct (getMeta m key true) as [l|].
  - apply metaChild_flatten.
  - by destruct d.
Qed.

Lemma textOf_texts (c : ElemClass) a (l : list string) :
  textOf (Elem c a (map inl l)) = l.
Proof.
  unfold textOf. cbn [elemChildren].
  induction l as [|x l IH]; [done|]. cbn. by f_equal.
Qed.

Lemma textOf_leaf c x l :
  flatten x = map inl l → textOf (addChild (new c) x) = l.
Proof. intros H. unfold addChild, new. rewrite H. apply textOf_texts. Qed.

(** X8: for a spectral service whose plain capability can be built: without
    [ssap.dataSource] the capability fails with that key missing, else
    without [ssap.testQuery] with that one; with several test queries it
    fails on their number; otherwise the capability is built with the data
    source, with compliance level [minimal] and creation type [archival]
    unless the service says otherwise, and with the configured hard and
    default limits. *)
Theorem SSA_mandatory_metadata (publication : Publication) (plain : Element) :
  capabilities.CapabilityMaker_makeCapability capabilities.SSACapabilityMaker
    publication = Ok plain →
  let service := meta (parent publication) in
  let result := capabilities._makeCapability capabilities.SSACapabilityMaker publication in
  match getMeta service "ssap.dataSource" true, getMeta service "ssap.testQuery" true with
  | None, _ => result = Raise (NoMetaKey "ssap.dataSource")
  | Some _, None => result = Raise (NoMetaKey "ssap.testQuery")
  | Some dataSource, Some [testQuery] =>
      ∃ cap, result = Ok cap ∧
        elemClass cap = SSAP.capability ∧
        valuesNamed "dataSource" (elemChildren cap) = map getContent dataSource ∧
        valuesNamed "complianceLevel" (elemChildren cap)
          = metaTexts service "ssap.complianceLevel" ["minimal"] ∧
        valuesNamed "creationType" (elemChildren cap)
          = metaTexts service "ssap.creationType" ["archival"] ∧
        valuesNamed "maxRecords" (elemChildren cap) = [strN dalHardLimit] ∧
        valuesNamed "defaultMaxRecords" (elemChildren cap) = [strN dalDefaultLimit]
  | Some _, Some _ => result = Raise (MetaCardError "ssap.testQuery")
  end.
Proof.
  intros Hplain service result. subst result.
  unfold capabilities._makeCapability.
  cbn [capabilities.cm_method capabilities.SSACapabilityMaker].
  fold capabilities.SSACapabilityMaker. rewrite Hplain. simpl mbind.
  fold service. unfold getMetaOrRaise, getMetaTextOrRaise, getMetaOrRaise.
  destruct (getMeta service "ssap.dataSource" true) as [dataSource|]; [|done].
  simpl mbind.
  destruct (getMeta service "ssap.testQuery" true) as [[|testQuery [|? ?]]|]; try done.
  simpl mbind. eexists. split; [reflexivity|].
  apply CapabilityMaker_makeCapability_shape in Hplain
    as (Hc & _ & description & interface & Hch & Hd & Hi); [|discriminate].
  rewrite elemClass_addChildren, elemClass_addChild. split; [exact Hc|].
  rewrite elemChildren_addChildren, elemChildren_addChild, Hch.
  unfold capabilities.leaf, capabilities.node.
  rewrite !flatten_cons, flatten_nil.
  change (flatten (CElem ?x)) with [@inr string Element x].
  cbn [app].
  unfold metaTexts.
  split_and!;
    repeat first
      [ rewrite valuesNamed_cons_other by (rewrite ?Hd, ?Hi; discriminate)
      | rewrite valuesNamed_cons_same by reflexivity ];
    change (valuesNamed _ []) with (@nil string); rewrite app_nil_r;
    apply textOf_leaf;
    first [ reflexivity | apply metaChild_flatten | rewrite metaOrDefault_flatten ].
  - by destruct (getMeta service "ssap.complianceLevel" true).
  - by destruct (getMeta service "ssap.creationType" true).
Qed.

Lemma flatten_node c l :
  flatten (capabilities.node c l) = [inr (addChildren (new c) l)].
Proof. reflexivity. Qed.

Lemma flatten_leaf c x :
  flatten (capabilities.leaf c x) = [inr (addChild (new c) x)].
Proof. reflexivity. Qed.

Lemma textOf_node c x l :
  flatten x = map inl l → textOf (addChildren (new c) [x]) = l.
Proof.
  intros H. unfold addChildren, addChild, new.
  rewrite flatten_cons, flatten_nil, H, app_nil_r. apply textOf_texts.
Qed.

(** X9: for both image capability makers, when the plain capability can be
    built: without [sia.type] the capability fails with that key missing;
    with it, the capability has the maker's class, the image service
    type, the service's [sia.maxRecords] or else the configured hard
    limit, and the service's [sia.maxFileSize] if there is one. *)
Theorem SIA_mandatory_metadata (self : capabilities.CapabilityMaker)
    (publication : Publication) (plain : Element) :
  capabilities.cm_method self = capabilities.UseSIACapabilityMaker →
  capabilities.CapabilityMaker_makeCapability self publication = Ok plain →
  let service := meta (parent publication) in
  match getMeta service "sia.type" true with
  | None =>
      capabilities._makeCapability self publication = Raise (NoMetaKey "sia.type")
  | Some type =>
      ∃ cap, capabilities._makeCapability self publication = Ok cap ∧
        elemClass cap = capabilities.capabilityClass self ∧
        valuesNamed "imageServiceType" (elemChildren cap) = map getContent type ∧
        valuesNamed "maxRecords" (elemChildren cap)
          = metaTexts service "sia.maxRecords" [strN dalHardLimit] ∧
        valuesNamed "maxFileSize" (elemChildren cap)
          = metaTexts service "sia.maxFileSize" []
  end.
Proof.
  intros Hmethod Hplain service.
  unfold capabilities._makeCapability. rewrite Hmethod, Hplain. simpl mbind.
  fold service. unfold getMetaOrRaise.
  destruct (getMeta service "sia.type" true) as [type|]; [|done].
  simpl mbind. eexists. split; [reflexivity|].
  apply CapabilityMaker_makeCapability_shape in Hplain
    as (Hc & _ & description & interface & Hch & Hd & Hi); [|congruence].
  rewrite elemClass_addChildren. split; [exact Hc|].
  rewrite elemChildren_addChildren, Hch.
  rewrite !flatten_cons, flatten_nil, !flatten_leaf, !flatten_node.
  cbn [app]. unfold metaTexts.
  split_and!;
    repeat first
      [ rewrite valuesNamed_cons_other by (rewrite ?Hd, ?Hi; discriminate)
      | rewrite valuesNamed_cons_same by reflexivity ];
    change (valuesNamed _ []) with (@nil string); rewrite app_nil_r;
    first [ apply textOf_leaf; apply metaChild_flatten
          | apply textOf_node; rewrite metaOrDefault_flatten ].
  - by destruct (getMeta service "sia.maxRecords" true).
  - by destruct (getMeta service "sia.maxFileSize" true).
Qed.

Lemma simpleDataTypeFactory_name dbType xtype ty :
  tableset.simpleDataTypeFactory dbType xtype = Ok ty → elemName ty = "dataType".
Proof.
  unfold tableset.simpleDataTypeFactory.
  destruct (sqltypeToVOTable dbType) as [[t l] x]. intros H.
  apply bind_Ok in H as (e & He & H). apply Ok_inj in H as <-.
  apply call_inv in He as (Hc & _). unfold elemName.
  by rewrite elemClass_addChild, Hc.
Qed.

Lemma getInputParamFromColumn_shape column e :
  capabilities.getInputParamFromColumn column VS.param = Ok e →
  nameOf e = [col_name column] ∧
  getAttr "std" e = Some (if col_std column then "true" else "false").
Proof.
  unfold capabilities.getInputParamFromColumn. intros H.
  apply bind_Ok in H as (p & Hp & H).
  split; [|by apply call_getAttr in H].
  apply call_inv in H as (_ & Hch & _).
  unfold capabilities._getParamFromColumn in Hp.
  apply bind_Ok in Hp as (ty & Hty & Hp). apply Ok_inj in Hp as <-.
  apply simpleDataTypeFactory_name in Hty.
  unfold nameOf. rewrite Hch, elemChildren_addChildren.
  rewrite !flatten_cons, flatten_nil.
  change (flatten (CElem ?x)) with [@inr string Element x]. cbn [app elemChildren new].
  rewrite valuesNamed_cons_same by reflexivity.
  rewrite !valuesNamed_cons_other by (rewrite ?Hty; discriminate).
  reflexivity.
Qed.

(** X10: the input parameters of a publication are one [param] element per
    input key of the service for the publication's renderer, in order and
    under the key's name, a [file] key of a DALI-style renderer being
    replaced by its upload key; each has a [std] attribute of [true] or
    [false]; a service without input keys for the renderer has none. *)
Theorem input_params_follow_keys (publication : Publication) (service : Resob)
    (renderer : Renderer) (inputParams : list Element) :
  getRenderer (render publication) = Ok renderer →
  capabilities.getInputParams publication service = Ok inputParams →
  match getInputKeysFor service renderer with
  | None => inputParams = []
  | Some keys =>
      flat_map nameOf inputParams =
        map (λ param,
               col_name (if strEq (col_type param) "file"
                            && strEq (parameterStyle renderer) "dali"
                         then getUploadKeyFor param else param)) keys ∧
      Forall (λ p, elemName p = "param" ∧
                   (getAttr "std" p = Some "true" ∨ getAttr "std" p = Some "false"))
        inputParams
  end.
Proof.
  intros Hrenderer H. unfold capabilities.getInputParams in H.
  rewrite Hrenderer in H. simpl mbind in H.
  destruct (getInputKeysFor service renderer) as [keys|];
    [|by apply Ok_inj in H as <-].
  apply mapM_Ok_Forall2 in H.
  induction H as [|key p keys ps Hp _ [IH1 IH2]]; [by split|].
  pose proof (getInputParamFromColumn_name _ _ Hp) as Hname.
  apply getInputParamFromColumn_shape in Hp as [Hn Hstd].
  split.
  - simpl. by rewrite Hn, IH1.
  - constructor; [|done]. split; [done|]. rewrite Hstd.
    destruct (col_std _); auto.
Qed.

(** ** Records and their headers *)

Lemma M_mapM_pure {A B} (f : A → M B) (g : A → B) (l : list A) (w : World) :
  (∀ a, f a w = (Ok (g a), w)) → mapM f l w = (Ok (map g l), w).
Proof.
  intros Hf. induction l as [|x l IH]; [done|].
  cbn [mapM]. erewrite M_bind_run; [|apply Hf].
  erewrite M_bind_run; [|apply IH]. reflexivity.
Qed.

Lemma call_nil e : call e [] = Ok e.
Proof. by destruct e. Qed.

Lemma buildRule_simple macroPackage key tag container w :
  modelbuilder.buildRule macroPackage (builders.rule key (modelbuilder.SF tag []))
    container w
  = (Ok (map (λ e, CSeq [CElem e])
           (leaves tag (modelbuilder.containerMeta container key))), w).
Proof.
  unfold builders.rule. rewrite buildRule_unfold.
  erewrite M_bind_run.
  2:{ apply (M_mapM_pure _
        (λ v, if strEq (getContent v) "" then []
              else [CSeq [CElem (Elem tag (ec_declared tag) [inl (getContent v)])]])).
      intros v. erewrite M_bind_run; [|reflexivity].
      cbn [app]. destruct (strEq (getContent v) "") eqn:Hv; [reflexivity|].
      cbn [app]. erewrite M_bind_run; [reflexivity|].
      unfold modelbuilder.SF, modelbuilder.moreAttrs. cbn [omap].
      unfold lift. cbn [modelbuilder.asKeywords map]. rewrite call_nil. reflexivity. }
  unfold mret, M_ret. f_equal. f_equal. unfold leaves.
  induction (modelbuilder.containerMeta container key) as [|v l IH]; [done|].
  rewrite map_cons, concat_cons, IH, filter_cons.
  destruct (strEq (getContent v) "") eqn:Hv.
  - apply strEq_true in Hv. by rewrite decide_False by (by intros ?).
  - rewrite decide_True; [done|]. intros Heq. apply strEq_true in Heq. congruence.
Qed.

Lemma flatten_leaves (l : list Element) :
  flatten (CSeq (map (λ e, CSeq [CElem e]) l)) = map inr l.
Proof.
  induction l as [|x l IH]; [done|]. rewrite !map_cons, flatten_cons, IH. done.
Qed.

Lemma flatten_app (a b : list Content) :
  flatten (CSeq (a ++ b)) = flatten (CSeq a) ++ flatten (CSeq b).
Proof.
  induction a as [|x a IH]; [done|].
  rewrite <- app_comm_cons, !flatten_cons, IH. by rewrite app_assoc.
Qed.

Lemma wrapped_Ok {A} (c : M A) w a w' :
  c w = (Ok a, w') → modelbuilder.wrapped c w = (Ok a, w').
Proof. unfold modelbuilder.wrapped, tryExcept. by intros ->. Qed.

Lemma _oaiHeaderBuilder_build resob w :
  ∃ content,
    modelbuilder.build builders._oaiHeaderBuilder resob w = (Ok content, w) ∧
    flatten (CSeq content) = map inr (headerChildren resob).
Proof.
  unfold modelbuilder.build, builders._oaiHeaderBuilder.
  eexists. split.
  - rewrite !_build_cons.
    erewrite M_bind_run; [|apply wrapped_Ok, buildRule_simple].
    erewrite M_bind_run; [reflexivity|].
    erewrite M_bind_run; [|apply wrapped_Ok, buildRule_simple].
    erewrite M_bind_run; [reflexivity|].
    erewrite M_bind_run; [|apply wrapped_Ok, buildRule_simple].
    erewrite M_bind_run; [reflexivity|]. reflexivity.
  - unfold headerChildren. rewrite app_nil_r, !fmap_app.
    cbn [modelbuilder.containerMeta].
    by rewrite !flatten_app, !flatten_leaves.
Qed.

Lemma getResourceElement_run (resob : Resob) (setNames : list string)
    (metadataMaker : Resob → list string → M Content)
    (status : option string) (w w' : World) (metadata : Content) :
  getMetaText (meta resob) "status" None true = Ok status →
  metadataMaker resob setNames w = (Ok metadata, w') →
  builders.getResourceElement (builders.FromResob resob) setNames metadataMaker w
  = (Ok (Elem OAI.record []
           [inr (Elem OAI.header
                   [("status", if optStrEq status "deleted" then Some "deleted" else None)]
                   (map inr (headerChildren resob)));
            inr (Elem OAI.metadata [] (flatten metadata))]), w').
Proof.
  intros Hstatus Hmeta. unfold builders.getResourceElement.
  erewrite M_bind_run; [|unfold lift; rewrite Hstatus; reflexivity].
  erewrite M_bind_run; [|reflexivity].
  destruct (_oaiHeaderBuilder_build resob w) as (content & Hbuild & Hflat).
  erewrite M_bind_run; [|exact Hbuild].
  erewrite M_bind_run; [|exact Hmeta].
  unfold mret, M_ret. f_equal. f_equal.
  unfold addChildren at 1. unfold addChild at 1. cbn [new ec_declared OAI.record cls app].
  rewrite !flatten_cons, flatten_nil.
  change (flatten (CElem ?x)) with [@inr string Element x]. cbn [app].
  unfold addChildren, addChild. cbn [new ec_declared OAI.metadata cls app].
  rewrite Hflat. reflexivity.
Qed.

(** X11: a record built by [getResourceElement] for a resource object is an
    [oai:record] with two children: a header, whose [status] attribute is
    [deleted] for a deleted resource and absent otherwise, and whose
    children are the identifiers, the datestamps and the set specs of the
    resource, in this order; and the metadata element holding just what
    the metadata maker returned; the world is the one the metadata maker
    left. *)
Theorem record_header (resob : Resob) (setNames : list string)
    (metadataMaker : Resob → list string → M Content)
    (status : option string) (w w' : World) (metadata : Content) :
  getMetaText (meta resob) "status" None true = Ok status →
  metadataMaker resob setNames w = (Ok metadata, w') →
  builders.getResourceElement (builders.FromResob resob) setNames metadataMaker w
  = (Ok (Elem OAI.record []
           [inr (Elem OAI.header
                   [("status", if optStrEq status "deleted" then Some "deleted" else None)]
                   (map inr (headerChildren resob)));
            inr (Elem OAI.metadata [] (flatten metadata))]), w').
Proof. apply getResourceElement_run. Qed.

(** X12: the record of a deleted resource, as rebuilt from its database
    row, always builds; its header has the status [deleted], the row's
    identifier and its time stamp as datestamp, and no set spec; its
    metadata element is empty; cache, sink and rows stay as they are. *)
Theorem deleted_resource_record (VALIDATING : bool) (resTuple : nonservice.ResTuple)
    (setNames : list string) (w : World) :
  builders.getVOResourceElement VALIDATING
    (builders.FromResob (nonservice.DeletedResource resTuple)) setNames w
  = (Ok (Elem OAI.record []
           [inr (Elem OAI.header [("status", Some "deleted")]
                   (map inr
                      (leaves OAI.identifier [MV (nonservice.rt_ivoid resTuple) []] ++
                       leaves OAI.datestamp
                         [MV (nonservice.rt_recTimestamp resTuple) []])));
            inr (Elem OAI.metadata [] [])]), w).
Proof.
  unfold builders.getVOResourceElement.
  erewrite (getResourceElement_run _ _ _ (Some "deleted") w w (CSeq []));
    [|reflexivity|].
  - unfold headerChildren. cbn [leaves]. rewrite app_nil_r. reflexivity.
  - unfold builders.getVORMetadataElement.
    erewrite M_bind_run; [|reflexivity].
    erewrite M_bind_run; [|vm_compute; reflexivity].
    reflexivity.
Qed.

(** ** Dependencies and resource documents *)

(** X13: loading the dependencies of a resource a second time gives the
    result of the first time and leaves the world as it is; the first
    time stores the list the query returned under the descriptor's id (a
    stored list is never replaced, a failing query stores nothing and
    changes nothing), other descriptors' lists, the sink and the rows are
    untouched. *)
Theorem dependencies_cached_once (resob : Resob) (w : World) :
  let rdId := sourceId (rd resob) in
  let first := builders._loadDependencies resob w in
  builders._loadDependencies resob first.2 = first ∧
  (∀ deps, depCache w !! rdId = None → queryDependencies rdId = Ok deps →
     depCache first.2 !! rdId = Some deps) ∧
  (∀ deps, depCache w !! rdId = Some deps → first.2 = w) ∧
  (∀ exc, depCache w !! rdId = None → queryDependencies rdId = Raise exc →
     first = (Raise exc, w)) ∧
  (∀ other, other ≠ rdId → depCache first.2 !! other = depCache w !! other) ∧
  sink first.2 = sink w ∧ emitted first.2 = emitted w.
Proof.
  intros rdId first. subst first.
  unfold builders._loadDependencies, common.getDependencies.
  unfold mbind, M_bind, getCached, setCached, lift, mret, M_ret. fold rdId.
  destruct (depCache w !! rdId) as [deps|] eqn:Hc.
  - destruct (mapM getRD deps) as [l|e] eqn:Hl; cbn [fst snd];
      rewrite Hc, Hl; split_and!; try done.
  - destruct (queryDependencies rdId) as [deps|e] eqn:Hq.
    + destruct (mapM getRD deps) as [l|e] eqn:Hl; cbn [fst snd depCache sink emitted];
        rewrite lookup_insert_eq, Hl; split_and!; try done;
        try (intros d _ Hd; by apply Ok_inj in Hd as <-);
        intros other Hne; by rewrite lookup_insert_ne.
    + cbn [fst snd]. rewrite ?Hc, ?Hq. split_and!; try done.
      intros exc _ Hexc. by injection Hexc as <-.
Qed.

Lemma setAttr_other k v a a' k' :
  setAttr k v a = Some a' → k' ≠ k → getAttrIn k' a' = getAttrIn k' a.
Proof.
  revert a'. induction a as [|[k0 v0] r IH]; simpl; intros a' H Hne; [discriminate|].
  destruct (strEq k k0) eqn:Hk.
  - apply (inj Some) in H. subst a'. simpl. apply strEq_true in Hk. subst k0.
    by rewrite (strEq_false _ _ Hne).
  - destruct (setAttr k v r) as [r'|]; [|discriminate].
    apply (inj Some) in H. subst a'. simpl. by rewrite (IH r').
Qed.

Lemma resourceDocument_addChild resob doc c :
  resourceDocument resob doc → resourceDocument resob (addChild doc c).
Proof. unfold resourceDocument, getAttr. by rewrite elemClass_addChild, elemAttrs_addChild. Qed.

Lemma resourceDocument_addChildren resob doc l :
  resourceDocument resob doc → resourceDocument resob (addChildren doc l).
Proof. apply resourceDocument_addChild. Qed.

Lemma ResourceMaker_makeResource_document self resob setNames w doc w' :
  builders.ResourceMaker_makeResource self resob setNames w = (Ok doc, w') →
  resourceDocument resob doc ∧
  ec_name (elemClass doc) = ec_name (builders.resourceClass self).
Proof.
  unfold builders.ResourceMaker_makeResource. intros H.
  apply M_bind_Ok in H as ([] & w1 & _ & H).
  apply M_bind_Ok in H as (args & w2 & Hargs & H). apply lift_Ok in Hargs as [Hargs ->].
  apply M_bind_Ok in H as (res & w2 & Hres & H). apply lift_Ok in Hres as [Hres ->].
  apply M_bind_Ok in H as (vl & w2 & _ & H).
  apply M_bind_Ok in H as (vr & w3 & _ & H).
  apply M_ret_Ok in H as [-> _].
  unfold builders.getResourceArgs in Hargs.
  apply bind_Ok in Hargs as (created & Hcreated & Hargs).
  apply bind_Ok in Hargs as (updated & Hupdated & Hargs).
  apply bind_Ok in Hargs as (status & Hstatus & Hargs).
  apply Ok_inj in Hargs as <-.
  apply call_inv in Hres as (Hc & _ & Hattrs).
  assert (Hget : getAttrIn "created" (elemAttrs res) = created ∧
                 getAttrIn "updated" (elemAttrs res) = updated ∧
                 getAttrIn "status" (elemAttrs res) = status).
  { cbn [setAttrs] in Hattrs.
    destruct (setAttr "created" created _) as [a1|] eqn:H1; [|discriminate].
    destruct (setAttr "updated" updated a1) as [a2|] eqn:H2; [|discriminate].
    destruct (setAttr "status" status a2) as [a3|] eqn:H3; [|discriminate].
    apply Ok_inj in Hattrs as <-. split_and!.
    - rewrite (setAttr_other _ _ _ _ "created" H3) by discriminate.
      rewrite (setAttr_other _ _ _ _ "created" H2) by discriminate.
      by eapply setAttr_getAttrIn.
    - rewrite (setAttr_other _ _ _ _ "updated" H3) by discriminate.
      by eapply setAttr_getAttrIn.
    - by eapply setAttr_getAttrIn. }
  destruct Hget as (Hg1 & Hg2 & Hg3).
  assert (Hattr : elemAttrs (setPrefix "ri" (addChildren res
            [CElem (addChild vl (metaChild (getMeta (meta resob) "validationLevel" true)));
             CSeq vr])) = elemAttrs res).
  { destruct res. reflexivity. }
  split.
  - unfold resourceDocument, getAttr. rewrite Hattr, Hg1, Hg2, Hg3.
    split_and!; [by destruct res|done..].
  - destruct res as [c a ch]. simpl in Hc. by subst c.
Qed.

Lemma ServiceResourceMaker_makeResource_document self resob setNames w doc w' :
  builders.ServiceResourceMaker_makeResource self resob setNames w = (Ok doc, w') →
  resourceDocument resob doc ∧
  ec_name (elemClass doc) = ec_name (builders.resourceClass self).
Proof.
  unfold builders.ServiceResourceMaker_makeResource. intros H.
  apply M_bind_Ok in H as (res & w1 & Hres & H).
  apply M_bind_Ok in H as (rights & w2 & _ & H).
  apply M_bind_Ok in H as (caps & w3 & _ & H). apply M_ret_Ok in H as [-> _].
  apply ResourceMaker_makeResource_document in Hres as [Hdoc Hname].
  split; [by apply resourceDocument_addChild, resourceDocument_addChildren|].
  by rewrite elemClass_addChild, elemClass_addChildren.
Qed.

Lemma DataServiceResourceMaker_makeResource_document V self resob setNames w doc w' :
  builders.DataServiceResourceMaker_makeResource V self resob setNames w = (Ok doc, w') →
  resourceDocument resob doc ∧
  ec_name (elemClass doc) = ec_name (builders.resourceClass self).
Proof.
  unfold builders.DataServiceResourceMaker_makeResource. intros H.
  apply M_bind_Ok in H as (res & w1 & Hres & H).
  apply M_bind_Ok in H as (org & w2 & _ & H).
  apply M_bind_Ok in H as (coverage & w3 & _ & H). apply M_ret_Ok in H as [-> _].
  apply ServiceResourceMaker_makeResource_document in Hres as [Hdoc Hname].
  split; [by apply resourceDocument_addChildren|].
  by rewrite elemClass_addChildren.
Qed.

Lemma _makeResourceForSchemas_document V self resob schemas setNames w doc w' :
  builders._makeResourceForSchemas V self resob schemas setNames w = (Ok doc, w') →
  resourceDocument resob doc ∧
  ec_name (elemClass doc) = ec_name (builders.resourceClass self).
Proof.
  unfold builders._makeResourceForSchemas. intros H.
  apply M_bind_Ok in H as (res & w1 & Hres & H).
  apply M_bind_Ok in H as (caps & w2 & _ & H).
  apply M_bind_Ok in H as (org & w3 & _ & H).
  apply M_bind_Ok in H as (coverage & w4 & _ & H).
  apply M_bind_Ok in H as (ts & w5 & _ & H). apply M_ret_Ok in H as [-> _].
  apply ResourceMaker_makeResource_document in Hres as [Hdoc Hname].
  split; [by apply resourceDocument_addChildren|].
  by rewrite elemClass_addChildren.
Qed.

Lemma M_fmap_Ok {A B} (f : A → B) (c : M A) w b w' :
  (f <$> c) w = (Ok b, w') → ∃ a, c w = (Ok a, w') ∧ b = f a.
Proof.
  unfold fmap, M_fmap. intros H. apply M_bind_Ok in H as (a & w1 & Ha & H).
  apply M_ret_Ok in H as [-> ->]. eauto.
Qed.

Lemma _makeResource_document V self resob setNames w content w' :
  builders._makeResource V self resob setNames w = (Ok content, w') →
  (builders.rm_method self = builders.UseDeletedResourceMaker ∧ content = CSeq []) ∨
  ∃ doc, content = CElem doc ∧ resourceDocument resob doc ∧
         ec_name (elemClass doc) = ec_name (builders.resourceClass self).
Proof.
  unfold builders._makeResource. intros H.
  destruct (builders.rm_method self) eqn:Hmethod.
  - apply M_fmap_Ok in H as (doc & H & ->). right. exists doc. split; [done|].
    by apply ResourceMaker_makeResource_document in H.
  - apply M_fmap_Ok in H as (doc & H & ->). right. exists doc. split; [done|].
    by apply ServiceResourceMaker_makeResource_document in H.
  - apply M_fmap_Ok in H as (doc & H & ->). right. exists doc. split; [done|].
    by apply DataServiceResourceMaker_makeResource_document in H.
  - apply M_fmap_Ok in H as (doc & H & ->). right. exists doc. split; [done|].
    unfold builders.CatalogServiceResourceMaker_makeResource in H.
    apply M_bind_Ok in H as (res & w1 & Hres & H).
    apply M_bind_Ok in H as (ts & w2 & _ & H). apply M_ret_Ok in H as [-> _].
    apply DataServiceResourceMaker_makeResource_document in Hres as [Hdoc Hname].
    split; [by apply resourceDocument_addChild|by rewrite elemClass_addChild].
  - apply M_bind_Ok in H as (res & w1 & Hres & H).
    apply M_bind_Ok in H as (full & w2 & _ & H).
    apply M_bind_Ok in H as (registryMeta & w3 & _ & H).
    apply M_bind_Ok in H as (ts & w4 & _ & H). apply M_ret_Ok in H as [-> _].
    apply ServiceResourceMaker_makeResource_document in Hres as [Hdoc Hname].
    right. eexists. split; [done|].
    split; [by apply resourceDocument_addChildren|by rewrite elemClass_addChildren].
  - apply M_bind_Ok in H as (res & w1 & Hres & H).
    apply M_bind_Ok in H as (org & w2 & _ & H). apply M_ret_Ok in H as [-> _].
    apply ResourceMaker_makeResource_document in Hres as [Hdoc Hname].
    right. eexists. split; [done|].
    split; [by apply resourceDocument_addChildren|by rewrite elemClass_addChildren].
  - apply M_bind_Ok in H as (res & w1 & Hres & H).
    apply M_bind_Ok in H as (ivoId & w2 & _ & H).
    apply M_bind_Ok in H as (managingOrg & w3 & _ & H).
    apply M_bind_Ok in H as (org & w4 & _ & H). apply M_ret_Ok in H as [-> _].
    apply ResourceMaker_makeResource_document in Hres as [Hdoc Hname].
    right. eexists. split; [done|].
    split; [by apply resourceDocument_addChild|by rewrite elemClass_addChild].
  - apply M_bind_Ok in H as (res & w1 & Hres & H).
    apply M_bind_Ok in H as (standards & w2 & _ & H). apply M_ret_Ok in H as [-> _].
    apply ResourceMaker_makeResource_document in Hres as [Hdoc Hname].
    right. eexists. split; [done|].
    split; [by apply resourceDocument_addChildren|by rewrite elemClass_addChildren].
  - apply M_ret_Ok in H as [-> _]. by left.
  - destruct (kind resob); try discriminate.
    apply M_fmap_Ok in H as (doc & H & ->). right. exists doc. split; [done|].
    by apply _makeResourceForSchemas_document in H.
  - destruct (kind resob); try discriminate.
    apply M_fmap_Ok in H as (doc & H & ->). right. exists doc. split; [done|].
    by apply _makeResourceForSchemas_document in H.
Qed.

Lemma resourceMakers_named :
  Forall (λ m, ec_name (builders.resourceClass m) = "Resource")
    builders.resourceMakerClasses.
Proof.
  unfold builders.resourceMakerClasses.
  repeat (apply Forall_cons; split; [reflexivity|]). constructor.
Qed.

Lemma buildRegistry_lookup_key {A} (key : A → option string) (classes : list A) k c :
  capabilities.buildRegistry key classes !! k = Some c → key c = k.
Proof.
  unfold capabilities.buildRegistry.
  assert (Hgen : ∀ acc : gmap (option string) A,
            foldl (λ registry c, <[key c := c]> registry) acc classes !! k = Some c →
            key c = k ∨ acc !! k = Some c).
  { induction classes as [|x l IH]; simpl; intros acc H; [auto|].
    apply IH in H as [H|H]; [by left|].
    destruct (decide (key x = k)) as [<-|Hne].
    - rewrite lookup_insert_eq in H. injection H as <-. by left.
    - rewrite lookup_insert_ne in H by done. auto. }
  intros H. apply Hgen in H as [H|H]; [done|]. by rewrite lookup_empty in H.
Qed.

Lemma deleted_maker_key :
  Forall (λ m, builders.rm_method m = builders.UseDeletedResourceMaker →
               builders.rm_resType m = Some "deleted")
    builders.resourceMakerClasses.
Proof.
  unfold builders.resourceMakerClasses.
  repeat (apply Forall_cons; split; [intros H; (reflexivity || discriminate H)|]).
  constructor.
Qed.

(** X14: whatever [getVORMetadataElement] returns is either nothing, for a
    resource of type [deleted] and without any effect, or one element
    called [Resource] with the prefix [ri], whatever the resource type,
    with the attributes [created], [updated] and [status] taken from the
    metadata [creationDate], [_metadataUpdated] and [status]. *)
Theorem resource_documents_are_ri (VALIDATING : bool) (resob : Resob)
    (setNames : list string) (w w' : World) (content : Content) :
  builders.getVORMetadataElement VALIDATING resob setNames w = (Ok content, w') →
  (common.getResType resob = Ok "deleted" ∧ content = CSeq [] ∧ w' = w) ∨
  ∃ doc, content = CElem doc ∧
    ec_prefix (elemClass doc) = "ri" ∧ elemName doc = "Resource" ∧
    Ok (getAttr "created" doc) = getMetaText (meta resob) "creationDate" None true ∧
    Ok (getAttr "updated" doc)
      = getMetaText (meta resob) "_metadataUpdated" None true ∧
    Ok (getAttr "status" doc) = getMetaText (meta resob) "status" None true.
Proof.
  unfold builders.getVORMetadataElement. intros H.
  apply M_bind_Ok in H as (t & w1 & Ht & H). apply lift_Ok in Ht as [Ht ->].
  apply M_bind_Ok in H as (maker & w1 & Hmaker & H).
  apply lift_Ok in Hmaker as [Hmaker ->].
  assert (Hin : maker ∈ builders.resourceMakerClasses ∧
                builders.rm_resType maker = Some t).
  { unfold builders._getResourceMaker, capabilities.resolve in Hmaker.
    destruct (builders.resourceRegistry !! Some t) as [c|] eqn:Hc; [|discriminate].
    apply Ok_inj in Hmaker as <-.
    split; [eapply buildRegistry_lookup|eapply buildRegistry_lookup_key]; exact Hc. }
  destruct Hin as [Hin Hkey].
  pose proof (proj1 (Forall_forall _ _) resourceMakers_named _ Hin) as Hname.
  pose proof (proj1 (Forall_forall _ _) deleted_maker_key _ Hin) as Hdel.
  cbv beta in Hname, Hdel.
  destruct (_makeResource_document _ _ _ _ _ _ _ H) as [[Hm ->]|(doc & -> & Hdoc & Hn)].
  - left. specialize (Hdel Hm). rewrite Hkey in Hdel. apply (inj Some) in Hdel.
    subst t. split; [done|]. split; [done|].
    unfold builders._makeResource in H. rewrite Hm in H.
    by apply M_ret_Ok in H as [_ ->].
  - right. exists doc. destruct Hdoc as (Hp & Hc & Hu & Hs).
    unfold elemName. rewrite Hn, Hname. done.
Qed.

(** ** Splitting at a character *)

Lemma revString_involutive_gen s acc acc' :
  revString (revString s acc) acc' = revString acc (s +:+ acc').
Proof.
  revert acc acc'. induction s as [|c r IH]; intros acc acc'; simpl; [done|].
  by rewrite IH.
Qed.

Lemma revString_involutive s : revString (revString s "") "" = s.
Proof. rewrite revString_involutive_gen. simpl. apply append_empty_r. Qed.

Lemma contains_revString sep s acc :
  servicelist.contains sep (revString s acc)
  = servicelist.contains sep s || servicelist.contains sep acc.
Proof.
  revert acc. induction s as [|c r IH]; intros acc; simpl; [done|].
  rewrite IH. simpl. destruct (Ascii.eqb c sep), (servicelist.contains sep r); done.
Qed.

Lemma contains_app sep a b :
  servicelist.contains sep (a +:+ b)
  = servicelist.contains sep a || servicelist.contains sep b.
Proof.
  induction a as [|c r IH]; simpl; [done|]. rewrite IH. by rewrite orb_assoc.
Qed.

Lemma splitOn_plain sep s cur :
  servicelist.contains sep s = false →
  splitOn sep s cur = [revString (revString s cur) ""].
Proof.
  revert cur. induction s as [|c r IH]; intros cur H; simpl in *; [done|].
  apply orb_false_iff in H as [-> H]. by apply IH.
Qed.

Lemma splitOn_nonempty sep s cur : splitOn sep s cur ≠ [].
Proof.
  revert cur. induction s as [|c r IH]; intros cur; simpl; [done|].
  destruct (Ascii.eqb c sep); [done|apply IH].
Qed.

Lemma last_cons_nonempty {A} (x : A) l d : l ≠ [] → List.last (x :: l) d = List.last l d.
Proof. by destruct l. Qed.

Lemma splitOn_last_app sep a b cur d :
  List.last (splitOn sep (a +:+ String sep b) cur) d
  = List.last (splitOn sep b "") d.
Proof.
  revert cur. induction a as [|c r IH]; intros cur.
  - change ("" +:+ String sep b) with (String sep b). cbn [splitOn].
    rewrite Ascii.eqb_refl. apply last_cons_nonempty, splitOn_nonempty.
  - change (String c r +:+ String sep b) with (String c (r +:+ String sep b)).
    cbn [splitOn]. destruct (Ascii.eqb c sep); [|apply IH].
    rewrite last_cons_nonempty by apply splitOn_nonempty. apply IH.
Qed.

Lemma splitOn_pieces sep s cur :
  servicelist.contains sep cur = false →
  Forall (λ p, servicelist.contains sep p = false) (splitOn sep s cur).
Proof.
  revert cur. induction s as [|c r IH]; intros cur H; simpl.
  - constructor; [|constructor]. by rewrite contains_revString, H.
  - destruct (Ascii.eqb c sep) eqn:Hc.
    + constructor; [by rewrite contains_revString, H|]. by apply IH.
    + apply IH. simpl. by rewrite Hc, H.
Qed.

Lemma last_Forall {A} (P : A → Prop) l d : Forall P l → P d → P (List.last l d).
Proof.
  induction 1 as [|x l Hx Hl IH]; intros Hd; [done|].
  destruct l; [done|]. by apply IH.
Qed.

Lemma splitOn_last_plain sep s :
  servicelist.contains sep s = false → List.last (splitOn sep s "") "" = s.
Proof.
  intros H. rewrite (splitOn_plain _ _ _ H). simpl. apply revString_involutive.
Qed.

(** X15: [basename] returns a name without a dot; it is idempotent, leaves
    a name without a dot as it is, and gives back [name] from
    [qualifier.name] whenever [name] has no dot, whatever the qualifier. *)
Theorem basename_unqualified (tableName : string) :
  servicelist.contains "." (servicelist.basename tableName) = false ∧
  servicelist.basename (servicelist.basename tableName)
    = servicelist.basename tableName ∧
  (servicelist.contains "." tableName = false →
   servicelist.basename tableName = tableName) ∧
  (∀ name, servicelist.contains "." name = false →
     servicelist.basename (tableName +:+ "." +:+ name) = name).
Proof.
  assert (H1 : servicelist.contains "." (servicelist.basename tableName) = false).
  { unfold servicelist.basename.
    destruct (servicelist.contains "." tableName) eqn:Hc; [|done].
    apply (last_Forall (λ p, servicelist.contains "." p = false)); [|done].
    by apply splitOn_pieces. }
  split_and!.
  - exact H1.
  - unfold servicelist.basename at 1. by rewrite H1.
  - intros H. unfold servicelist.basename. by rewrite H.
  - intros name Hname. unfold servicelist.basename.
    rewrite contains_app. cbn [servicelist.contains append].
    rewrite orb_true_r.
    change ("." +:+ name) with (String "."%char name).
    rewrite splitOn_last_app. by apply splitOn_last_plain.
Qed.

(** X16: the resource id made up for a dropped identifier is never empty
    and has no slash; it is the part after the last slash, and [<empty>]
    for an identifier ending in a slash; the two rows of
    [makeDeletedRecord] are marked deleted and carry the same source
    descriptor and this resource id, the set row being in [ivo_managed]. *)
Theorem deleted_record_ids (ivoid : string) :
  publication.fakeId ivoid ≠ "" ∧
  servicelist.contains "/" (publication.fakeId ivoid) = false ∧
  (∀ name, name ≠ "" → servicelist.contains "/" name = false →
     publication.fakeId (ivoid +:+ "/" +:+ name) = name) ∧
  publication.fakeId (ivoid +:+ "/") = "<empty>" ∧
  ∃ resources sets,
    publication.makeDeletedRecord ivoid = [("resources", resources); ("sets", sets)] ∧
    resources !! "ivoid" = Some (VStr ivoid) ∧
    resources !! "deleted" = Some (VBool true) ∧
    sets !! "deleted" = Some (VBool true) ∧
    sets !! "setName" = Some (VStr "ivo_managed") ∧
    resources !! "sourceRD" = sets !! "sourceRD" ∧
    resources !! "resId" = Some (VStr (publication.fakeId ivoid)) ∧
    sets !! "resId" = Some (VStr (publication.fakeId ivoid)).
Proof.
  assert (Hlast : servicelist.contains "/" (List.last (splitOn "/" ivoid "") "") = false).
  { apply (last_Forall (λ p, servicelist.contains "/" p = false)); [|done].
    by apply splitOn_pieces. }
  split_and!.
  - unfold publication.fakeId. by destruct (List.last _ _).
  - unfold publication.fakeId. destruct (List.last _ _) eqn:Hl; [done|exact Hlast].
  - intros name Hne Hname. unfold publication.fakeId.
    change ("/" +:+ name) with (String "/"%char name).
    rewrite splitOn_last_app, (splitOn_last_plain _ _ Hname). by destruct name.
  - unfold publication.fakeId.
    change "/" with (String "/"%char "") at 1.
    by rewrite splitOn_last_app.
  - eexists _, _. split; [reflexivity|]. split_and!; by simplify_map_eq.
Qed.

(** ** The sets table *)

Lemma setdefaultAppend_keys {V} k (v : V) d k' :
  k' ∈ (servicelist.setdefaultAppend k v d).*1 ↔ k' ∈ d.*1 ∨ k' = k.
Proof.
  induction d as [|[k0 vs] r IH]; simpl.
  - rewrite list_elem_of_singleton, elem_of_nil. tauto.
  - destruct (strEq k k0) eqn:Hk; simpl.
    + apply strEq_true in Hk. subst k0. rewrite elem_of_cons. tauto.
    + rewrite !elem_of_cons, IH. tauto.
Qed.

Lemma setdefaultAppend_NoDup {V} k (v : V) d :
  NoDup d.*1 → NoDup (servicelist.setdefaultAppend k v d).*1.
Proof.
  induction d as [|[k0 vs] r IH]; simpl; intros Hnd.
  - apply NoDup_singleton.
  - apply NoDup_cons in Hnd as [Hnotin Hnd].
    destruct (strEq k k0) eqn:Hk; simpl.
    + by apply NoDup_cons_2.
    + apply NoDup_cons_2; [|by apply IH].
      rewrite setdefaultAppend_keys. intros [H| ->]; [done|].
      unfold strEq in Hk. by rewrite bool_decide_eq_false in Hk.
Qed.

Lemma setdefaultAppend_elem {V} k (v : V) d k' vs' :
  NoDup d.*1 →
  (k', vs') ∈ servicelist.setdefaultAppend k v d →
  (k' ≠ k ∧ (k', vs') ∈ d) ∨
  (k' = k ∧ ∃ vs0, ((k, vs0) ∈ d ∨ ((k ∉ d.*1) ∧ vs0 = [])) ∧ vs' = vs0 ++ [v]).
Proof.
  induction d as [|[k0 vs] r IH]; simpl; intros Hnd H.
  - apply list_elem_of_singleton in H. injection H as -> ->.
    right. split; [done|]. exists []. split; [|done]. right. split; [|done].
    apply not_elem_of_nil.
  - apply NoDup_cons in Hnd as [Hnotin Hnd].
    destruct (strEq k k0) eqn:Hk.
    + apply strEq_true in Hk. subst k0.
      apply elem_of_cons in H as [H|H].
      * injection H as -> ->. right. split; [done|]. exists vs. split; [|done].
        left. by left.
      * left. split; [|by right]. intros ->. apply Hnotin.
        apply list_elem_of_fmap. by exists (k, vs').
    + unfold strEq in Hk. rewrite bool_decide_eq_false in Hk.
      apply elem_of_cons in H as [H|H].
      * injection H as -> ->. left. split; [congruence|by left].
      * destruct (IH Hnd H) as [[Hne Hin]|[-> (vs0 & Hvs0 & ->)]].
        -- left. split; [done|by right].
        -- right. split; [done|]. exists vs0. split; [|done].
           destruct Hvs0 as [Hin|[Hnin ->]]; [left; by right|].
           right. split; [|done]. rewrite elem_of_cons. intros [->|?]; done.
Qed.

Lemma membersOf_cons_same rec l :
  membersOf (servicelist.sr_setName rec) (rec :: l)
  = (servicelist.sr_sourceRD rec, servicelist.sr_resId rec)
    :: membersOf (servicelist.sr_setName rec) l.
Proof. unfold membersOf. by rewrite filter_cons_True. Qed.

Lemma membersOf_cons_other k rec l :
  servicelist.sr_setName rec ≠ k → membersOf k (rec :: l) = membersOf k l.
Proof. intros H. unfold membersOf. by rewrite filter_cons_False. Qed.

Lemma setMembers_spec (setsTable : list servicelist.SetRecord) :
  ∀ d, NoDup d.*1 →
  let d' := foldl (λ setMembers rec,
                     servicelist.setdefaultAppend (servicelist.sr_setName rec)
                       (servicelist.sr_sourceRD rec, servicelist.sr_resId rec)
                       setMembers) d setsTable in
  NoDup d'.*1 ∧
  (∀ k, k ∈ d'.*1 ↔ k ∈ d.*1 ∨ k ∈ map servicelist.sr_setName setsTable) ∧
  ∀ k vs', (k, vs') ∈ d' →
    ∃ vs0, ((k, vs0) ∈ d ∨ ((k ∉ d.*1) ∧ vs0 = [])) ∧
           vs' = vs0 ++ membersOf k setsTable.
Proof.
  induction setsTable as [|rec l IH]; intros d Hnd; simpl.
  - split; [done|]. split.
    + intros k. rewrite elem_of_nil. tauto.
    + intros k vs' H. exists vs'. split; [by left|]. by rewrite app_nil_r.
  - pose proof (setdefaultAppend_NoDup (servicelist.sr_setName rec)
      (servicelist.sr_sourceRD rec, servicelist.sr_resId rec) d Hnd) as Hnd1.
    destruct (IH _ Hnd1) as (Hnd' & Hkeys & Hvals). split; [exact Hnd'|]. split.
    + intros k. rewrite Hkeys, setdefaultAppend_keys, elem_of_cons. tauto.
    + intros k vs' H. destruct (Hvals k vs' H) as (vs1 & Hvs1 & ->).
      destruct Hvs1 as [Hin|[Hnin ->]].
      * apply setdefaultAppend_elem in Hin as [[Hne Hin]|[-> (vs0 & Hvs0 & ->)]];
          [| |exact Hnd].
        -- exists vs1. split; [by left|].
           by rewrite membersOf_cons_other.
        -- exists vs0. split; [exact Hvs0|].
           by rewrite membersOf_cons_same, <- app_assoc.
      * rewrite setdefaultAppend_keys in Hnin.
        exists []. split; [right; split; [tauto|done]|].
        rewrite membersOf_cons_other; [done|]. intros Heq. apply Hnin. by right.
Qed.

Lemma getSets_names setsTable :
  setNamesOf (servicelist.getSets setsTable)
  = (foldl (λ setMembers rec,
              servicelist.setdefaultAppend (servicelist.sr_setName rec)
                (servicelist.sr_sourceRD rec, servicelist.sr_resId rec)
                setMembers) [] setsTable).*1.
Proof.
  unfold setNamesOf, servicelist.getSets. cbv zeta.
  rewrite map_map. apply map_ext. by intros [k v].
Qed.

(** X17: [getSets] returns one entry per set name occurring in the sets
    table and no other; the services of an entry are the (source
    descriptor, resource id) pairs of the rows of that set, in table
    order, so never empty; and the [ListSets] element has one [set] child
    per entry, with the set's name as both spec and name. *)
Theorem sets_grouped_by_name (setsTable : list servicelist.SetRecord) :
  let sets := servicelist.getSets setsTable in
  NoDup (setNamesOf sets) ∧
  (∀ name, name ∈ setNamesOf sets ↔
           name ∈ map servicelist.sr_setName setsTable) ∧
  (∀ set, set ∈ sets →
     servicelist.si_services set = membersOf (servicelist.si_setName set) setsTable ∧
     servicelist.si_services set ≠ []) ∧
  elemChildren (builders.getListSetsElement setsTable)
  = map (λ name, inr (Elem OAI.set []
           [inr (Elem OAI.setSpec [] [inl name]);
            inr (Elem OAI.setName [] [inl name])]))
        (setNamesOf sets).
Proof.
  cbv zeta.
  destruct (setMembers_spec setsTable [] NoDup_nil_2) as (Hnd & Hkeys & Hvals).
  cbv zeta in Hnd, Hkeys, Hvals.
  split_and!.
  - by rewrite getSets_names.
  - intros name. rewrite getSets_names, Hkeys. simpl. rewrite elem_of_nil. tauto.
  - intros set Hset. unfold servicelist.getSets in Hset. cbv zeta in Hset.
    apply list_elem_of_fmap in Hset as ([k vs] & -> & Hin). simpl.
    destruct (Hvals k vs Hin) as (vs0 & [Hbad|[_ ->]] & ->);
      [by apply elem_of_nil in Hbad|].
    split; [done|]. simpl.
    assert (Hk : k ∈ map servicelist.sr_setName setsTable).
    { destruct (proj1 (Hkeys k)) as [Hb|Hk]; [|by apply elem_of_nil in Hb|done].
      apply list_elem_of_fmap. by exists (k, [] ++ membersOf k setsTable). }
    apply list_elem_of_fmap in Hk as (rec & -> & Hrec).
    unfold membersOf. intros Hnil. apply fmap_nil_inv in Hnil.
    assert (Hf : rec ∈ filter (λ r, servicelist.sr_setName r = servicelist.sr_setName rec)
                   setsTable) by by apply list_elem_of_filter.
    rewrite Hnil in Hf. by apply elem_of_nil in Hf.
  - unfold builders.getListSetsElement, setNamesOf.
    rewrite elemChildren_addChild. cbn [elemChildren new app].
    induction (servicelist.getSets setsTable) as [|s l IH]; [done|].
    cbn [map]. rewrite flatten_cons, IH. reflexivity.
Qed.

(** ** Rows for the service tables *)

Lemma emit_nil w : emit [] w = w.
Proof. destruct w. unfold emit. simpl. by rewrite app_nil_r. Qed.

Lemma emit_emit a b w : emit b (emit a w) = emit (a ++ b) w.
Proof. unfold emit. simpl. by rewrite app_assoc. Qed.

Lemma yield_emit r w : yield r w = (Ok tt, emit [r] w).
Proof. reflexivity. Qed.

Lemma mapM_emits {A B} (g : A → M B) (rowsOf : A → list Row) (res : A → B) :
  (∀ x w, g x w = (Ok (res x), emit (rowsOf x) w)) →
  ∀ l w, mapM g l w = (Ok (map res l), emit (flat_map rowsOf l) w).
Proof.
  intros Hg. induction l as [|x l IH]; intros w.
  - simpl. by rewrite emit_nil.
  - cbn [mapM]. rewrite (M_bind_run _ _ _ _ _ (Hg x w)).
    rewrite (M_bind_run _ _ _ _ _ (IH _)). cbn [map flat_map].
    by rewrite emit_emit.
Qed.

Lemma flat_map_singleton {A B} (f : A → B) l : flat_map (λ x, [f x]) l = map f l.
Proof. induction l; simpl; congruence. Qed.

Lemma flat_map_guard {A B} (p : A → bool) (f : A → B) l :
  flat_map (λ x, if p x then [f x] else []) l = map f (filter (λ x, p x = true) l).
Proof.
  induction l as [|x l IH]; simpl; [done|].
  destruct (p x) eqn:Hp.
  - rewrite filter_cons_True by done. simpl. by rewrite IH.
  - rewrite filter_cons_False by (by rewrite Hp). done.
Qed.

Lemma flat_map_flat_map {A B C} (f : A → list B) (g : B → list C) l :
  flat_map (λ x, flat_map g (f x)) l = flat_map g (flat_map f l).
Proof.
  induction l as [|x l IH]; simpl; [done|]. by rewrite IH, flat_map_app.
Qed.

Lemma lift_run {A B} (r : Result A) (f : A → M B) w a :
  r = Ok a → (lift r ≫= f) w = f a w.
Proof. by intros ->. Qed.

Lemma lift_raise {A B} (r : Result A) (f : A → M B) w e :
  r = Raise e → (lift r ≫= f) w = (Raise e, w).
Proof. by intros ->. Qed.

(** X18: [iterAuthorsAndSubjects] never fails and only hands out rows:
    first one [subjects] row per subject of the resource (one row with
    the subject [None] if it has no subject), then one [authors] row per
    semicolon-separated, stripped piece of the creator names that does not
    start with [et al]; every row carries the given source descriptor and
    resource id. *)
Theorem author_subject_rows (resource : Resob) (sourceRD resId : PyVal) (w : World) :
  let subjects := match getMeta (meta resource) "subject" true with
                  | Some items => map getContent items
                  | None => ["None"]
                  end in
  let authors := filter (λ author, negb (startswith "et al" author) = true)
                   (creatorNames resource) in
  publication.iterAuthorsAndSubjects resource sourceRD resId w
  = (Ok tt, emit (map (subjectRow sourceRD resId) subjects ++
                  map (authorRow sourceRD resId) authors) w).
Proof.
  cbv zeta. unfold publication.iterAuthorsAndSubjects.
  erewrite M_bind_run; [|apply (mapM_emits _ (λ s, [subjectRow sourceRD resId s])
                                  (λ _, tt)); intros; apply yield_emit].
  erewrite M_bind_run; [|apply (mapM_emits _
      (λ authors, flat_map (λ author, if negb (startswith "et al" author)
                                      then [authorRow sourceRD resId author] else [])
                    (map strip (splitOn ";" (getContent authors) "")))
      (λ authors, map (λ _, tt) (map strip (splitOn ";" (getContent authors) ""))))].
  - rewrite emit_emit, flat_map_singleton.
    rewrite (flat_map_flat_map
               (λ authors, map strip (splitOn ";" (getContent authors) ""))
               (λ author, if negb (startswith "et al" author)
                          then [authorRow sourceRD resId author] else [])).
    rewrite (flat_map_guard (λ author, negb (startswith "et al" author))).
    reflexivity.
  - intros authors w0. apply mapM_emits. intros author w1.
    destruct (negb (startswith "et al" author)); [apply yield_emit|].
    by rewrite emit_nil.
Qed.

(** X19: the rows for one publication of a service: an auxiliary
    publication and one with a hidden renderer yield nothing; a failure
    happens before any row is handed out; otherwise there is one
    [interfaces] row, for the publication's renderer and the record's
    keys, not deleted, without set name, browseable exactly if the
    service says so, followed by one [sets] row per set of the
    publication, which is the interface row with the set name added. *)
Theorem publication_rows (service : Resob) (rec : gmap string PyVal)
    (pub : Publication) (w : World) :
  let out := publication.iterPubRecs service rec pub w in
  ((auxiliary pub = true ∨ render pub ∈ publication.HIDDEN_RENDERERS) →
   out = (Ok tt, w)) ∧
  (∀ exc, out.1 = Raise exc → out.2 = w) ∧
  (auxiliary pub = false → render pub ∉ publication.HIDDEN_RENDERERS →
   out.1 = Ok tt →
   ∃ intfRec,
     out.2 = emit (("interfaces", intfRec)
                   :: map (λ setName, ("sets", <["setName" := VStr setName]> intfRec))
                        (sets pub)) w ∧
     intfRec !! "renderer" = Some (VStr (render pub)) ∧
     intfRec !! "sourceRD" = Some (publication.field rec "sourceRD") ∧
     intfRec !! "resId" = Some (publication.field rec "resId") ∧
     intfRec !! "deleted" = Some (VBool false) ∧
     intfRec !! "setName" = None ∧
     (isBrowseableWith service (render pub) = Ok true ↔
      intfRec !! "browseable" = Some (VBool true))).
Proof.
  cbv zeta. unfold publication.iterPubRecs.
  destruct (auxiliary pub) eqn:Haux.
  { split; [done|]. split; [intros exc H; discriminate H|done]. }
  destruct (bool_decide (render pub ∈ publication.HIDDEN_RENDERERS)) eqn:Hhidden.
  { apply bool_decide_eq_true in Hhidden.
    split; [done|]. split; [intros exc H; discriminate H|done]. }
  apply bool_decide_eq_false in Hhidden.
  split; [by intros [?|?]|].
  set (pubService := default service (ps_service (spec pub))).
  assert (Hrows : ∀ intfRec w0,
    (_ ← yield ("interfaces", intfRec);
     _ ← mapM (λ setName, yield ("sets", <["setName" := VStr setName]> intfRec))
           (sets pub);
     mret tt) w0
    = (Ok tt, emit (("interfaces", intfRec)
                    :: map (λ setName, ("sets", <["setName" := VStr setName]> intfRec))
                         (sets pub)) w0)).
  { intros intfRec w0. rewrite (M_bind_run _ _ _ _ _ (yield_emit _ _)).
    erewrite M_bind_run;
      [|apply (mapM_emits _ (λ setName, [("sets", <["setName" := VStr setName]> intfRec)])
                 (λ _, tt)); intros; apply yield_emit].
    by rewrite emit_emit, flat_map_singleton. }
  assert (Hrest : ∀ browseable,
    let rest := (accessURL ← lift (getURL pubService (render pub) false);
       referenceURL ← lift (getMetaText (meta pubService) "referenceURL" None true);
       let intfRec : gmap string PyVal :=
         <["deleted" := VBool false]>
         (<["browseable" := VBool browseable]>
         (<["referenceURL" := publication.optVal referenceURL]>
         (<["accessURL" := VStr accessURL]>
         (<["renderer" := VStr (render pub)]>
         (<["resId" := publication.field rec "resId"]>
         (<["sourceRD" := publication.field rec "sourceRD"]> ∅)))))) in
       _ ← yield ("interfaces", intfRec);
       _ ← mapM (λ setName, yield ("sets", <["setName" := VStr setName]> intfRec))
             (sets pub);
       mret tt) w in
    (∀ exc, rest.1 = Raise exc → rest.2 = w) ∧
    (rest.1 = Ok tt →
     ∃ intfRec,
       rest.2 = emit (("interfaces", intfRec)
                   :: map (λ setName, ("sets", <["setName" := VStr setName]> intfRec))
                        (sets pub)) w ∧
       intfRec !! "renderer" = Some (VStr (render pub)) ∧
       intfRec !! "sourceRD" = Some (publication.field rec "sourceRD") ∧
       intfRec !! "resId" = Some (publication.field rec "resId") ∧
       intfRec !! "deleted" = Some (VBool false) ∧
       intfRec !! "setName" = None ∧
       intfRec !! "browseable" = Some (VBool browseable))).
  { intros browseable. cbv zeta.
    destruct (getURL pubService (render pub) false) as [accessURL|exc];
      [rewrite (lift_run _ _ _ _ eq_refl)
      |rewrite (lift_raise _ _ _ _ eq_refl); split; [done|discriminate]].
    destruct (getMetaText (meta pubService) "referenceURL" None true)
      as [referenceURL|exc];
      [rewrite (lift_run _ _ _ _ eq_refl)
      |rewrite (lift_raise _ _ _ _ eq_refl); split; [done|discriminate]].
    rewrite Hrows. split; [intros exc H; discriminate H|].
    intros _. eexists. split; [reflexivity|]. split_and!; by simplify_map_eq. }
  destruct (isBrowseableWith service (render pub)) as [browseable|exc] eqn:Hb.
  - rewrite (M_bind_run _ _ w w browseable) by reflexivity.
    destruct (Hrest browseable) as [Hraise Hok]. split; [exact Hraise|].
    intros _ _ H. destruct (Hok H) as (intfRec & ? & ? & ? & ? & ? & ? & Hbr).
    exists intfRec. split_and!; try done.
    rewrite Hbr. split; intros Heq; congruence.
  - destruct (match exc with AttributeError _ => true | _ => false end) eqn:Hexc.
    + rewrite (M_bind_run _ _ w w false) by (by destruct exc).
      destruct (Hrest false) as [Hraise Hok]. split; [exact Hraise|].
      intros _ _ H. destruct (Hok H) as (intfRec & ? & ? & ? & ? & ? & ? & Hbr).
      exists intfRec. split_and!; try done.
      rewrite Hbr. split; intros Heq; congruence.
    + rewrite (M_bind_raise _ _ w w exc) by (by destruct exc).
      split; [done|]. intros _ _ H. discriminate H.
Qed.

Lemma dataSetRow_again rec s0 s :
  dataSetRow (<["renderer" := VStr "rcdisplay"]> (<["setName" := VStr s0]> rec)) s
  = dataSetRow rec s.
Proof.
  unfold dataSetRow. f_equal. apply map_eq. intros k.
  destruct (decide (k = "renderer")) as [->|Hr]; [by rewrite !lookup_insert_eq|].
  destruct (decide (k = "setName")) as [->|Hs].
  - rewrite !(lookup_insert_ne _ "renderer" "setName") by done.
    by rewrite !lookup_insert_eq.
  - by repeat first [rewrite (lookup_insert_ne _ "renderer" k) by done
                    |rewrite (lookup_insert_ne _ "setName" k) by done].
Qed.

Lemma tapinfoRow_again rec s0 refURL :
  tapinfoRow (<["renderer" := VStr "rcdisplay"]> (<["setName" := VStr s0]> rec)) refURL
  = tapinfoRow rec refURL.
Proof.
  unfold tapinfoRow, publication.field. by simplify_map_eq.
Qed.

(** X20: the rows for the registration sets of a table or data descriptor
    whose reference URL can be read: for each set, in order, a [sets] row
    that is the base record with that set's name and the renderer
    [rcdisplay], whatever sets came before; after the row of the set
    [local], an [interfaces] row whose access URL is the reference URL
    followed by [?tapinfo=True], or nothing without a reference URL. *)
Theorem data_set_rows (res : Resob) (rec : gmap string PyVal)
    (setNames : list string) (refURL : option string) (w : World) :
  getMetaText (meta res) "referenceURL" None true = Ok refURL →
  publication.iterDataSets res rec setNames w
  = (Ok tt,
     emit (flat_map (λ setName,
                       dataSetRow rec setName
                       :: (if strEq setName "local" then [tapinfoRow rec refURL] else []))
             setNames) w).
Proof.
  intros Href. revert rec w. induction setNames as [|s l IH]; intros rec w.
  - simpl. by rewrite emit_nil.
  - cbn [publication.iterDataSets flat_map].
    assert (Hstep : publication.iterDataSetRecs res rec s w
              = (Ok (<["renderer" := VStr "rcdisplay"]> (<["setName" := VStr s]> rec)),
                 emit (dataSetRow rec s
                       :: (if strEq s "local" then [tapinfoRow rec refURL] else [])) w)).
    { unfold publication.iterDataSetRecs.
      rewrite (M_bind_run _ _ _ _ _ (yield_emit _ _)).
      destruct (strEq s "local").
      - rewrite (M_bind_run _ _ _ (emit [tapinfoRow rec refURL] (emit [dataSetRow rec s] w)) tt).
        + by rewrite emit_emit.
        + rewrite (lift_run _ _ _ _ Href). unfold tapinfoRow, publication.field.
          rewrite yield_emit. by rewrite !lookup_insert_ne by done.
      - rewrite (M_bind_run _ _ _ (emit [dataSetRow rec s] w) tt) by reflexivity.
        reflexivity. }
    rewrite (M_bind_run _ _ _ _ _ Hstep), IH, emit_emit.
    do 2 f_equal. f_equal. apply flat_map_ext. intros setName.
    rewrite dataSetRow_again. by rewrite tapinfoRow_again.
Qed.

End FurtherProperties.

(** * The coverage profile in the document *)

Section CoverageProfile.
Context `{E : Externals}.

Lemma wrapError_idemp e :
  modelbuilder.wrapError (modelbuilder.wrapError e) = modelbuilder.wrapError e.
Proof. unfold modelbuilder.wrapError. by destruct (isUtilsError e) eqn:H; [rewrite H|]. Qed.

Lemma wrapped_Raise {A} (c : M A) w e w' :
  c w = (Raise e, w') → modelbuilder.wrapped c w = (Raise (modelbuilder.wrapError e), w').
Proof. unfold modelbuilder.wrapped, tryExcept. by intros ->. Qed.

Lemma pure_bind {A B} (m : M A) (k : A → M B) :
  (∃ r, ∀ w, m w = (r, w)) → (∀ a, ∃ r, ∀ w, k a w = (r, w)) →
  ∃ r, ∀ w, (m ≫= k) w = (r, w).
Proof.
  intros [[a|e] Hr] Hk.
  - destruct (Hk a) as [r' Hr']. exists r'. intros w.
    unfold mbind, M_bind. rewrite Hr. apply Hr'.
  - exists (Raise e). intros w. unfold mbind, M_bind. by rewrite Hr.
Qed.

Lemma pure_ret {A} (a : A) : ∃ r, ∀ w, mret (M := M) a w = (r, w).
Proof. by exists (Ok a). Qed.

Lemma pure_lift {A} (x : Result A) : ∃ r, ∀ w, lift x w = (r, w).
Proof. by exists x. Qed.

Lemma pure_wrapped {A} (m : M A) :
  (∃ r, ∀ w, m w = (r, w)) → ∃ r, ∀ w, modelbuilder.wrapped m w = (r, w).
Proof.
  intros [[a|e] Hr].
  - exists (Ok a). intros w. by apply wrapped_Ok.
  - exists (Raise (modelbuilder.wrapError e)). intros w. by apply wrapped_Raise.
Qed.

Lemma pure_mapM {A B} (f : A → M B) (l : list A) :
  (∀ a, ∃ r, ∀ w, f a w = (r, w)) → ∃ r, ∀ w, mapM f l w = (r, w).
Proof.
  intros Hf. induction l as [|x l IH]; [apply pure_ret|].
  cbn [mapM]. apply pure_bind; [apply Hf|]. intros y.
  apply pure_bind; [exact IH|]. intros ys. apply pure_ret.
Qed.

Lemma pure_leaf_rule macroPackage key (f : modelbuilder.Factory) container :
  (∀ content attrs, ∃ r, ∀ w, f macroPackage content attrs w = (r, w)) →
  ∃ r, ∀ w, modelbuilder.buildRule macroPackage (builders.rule key f) container w = (r, w).
Proof.
  intros Hf. unfold builders.rule. rewrite buildRule_unfold.
  apply pure_bind; [|intros; apply pure_ret].
  apply pure_mapM. intros v.
  apply pure_bind; [apply pure_ret|]. intros childContent.
  destruct (_ ++ _); [apply pure_ret|].
  apply pure_bind; [apply Hf|]. intros; apply pure_ret.
Qed.

Lemma pure_SF tag kwargs macroPackage content attrs :
  ∃ r, ∀ w, modelbuilder.SF tag kwargs macroPackage content attrs w = (r, w).
Proof. unfold modelbuilder.SF. apply pure_lift. Qed.

Lemma pure_footprint macroPackage content attrs :
  ∃ r, ∀ w, builders._build_footprintURL macroPackage content attrs w = (r, w).
Proof.
  unfold builders._build_footprintURL.
  destruct (isService macroPackage); [apply pure_lift|apply pure_ret].
Qed.

Lemma afterProfile_pure macroPackage container :
  ∃ r, ∀ w, modelbuilder._build macroPackage afterProfile container w = (r, w).
Proof.
  unfold afterProfile. cbn [builders._coverageMetaBuilder].
  repeat (rewrite _build_cons;
          apply pure_bind;
            [apply pure_wrapped, pure_leaf_rule; intros;
             first [apply pure_SF | apply pure_footprint]|];
          intros ?; apply pure_bind; [|intros; apply pure_ret]).
  apply pure_ret.
Qed.

Lemma afterProfile_run macroPackage container xs w0 :
  (modelbuilder._build macroPackage afterProfile container w0).1 = Ok xs →
  ∀ w, modelbuilder._build macroPackage afterProfile container w = (Ok xs, w).
Proof.
  intros H w. destruct (afterProfile_pure macroPackage container) as [r Hr].
  rewrite Hr in H. simpl in H. subst r. apply Hr.
Qed.

Lemma coverage_rules VALIDATING :
  builders._coverageMetaBuilder VALIDATING
  = [modelbuilder.Rule (Some "coverage") (Some (modelbuilder.SF VS.coverage []))
       (builders.rule "profile" (builders._stcResourceProfile VALIDATING) :: afterProfile)
       []].
Proof. reflexivity. Qed.

Lemma profile_rule VALIDATING macroPackage v src psub exc w :
  lookupKey "profile" (subMeta v) = [MV src psub] →
  src ≠ "" →
  parseSTCS src = Raise exc →
  modelbuilder.buildRule macroPackage
    (builders.rule "profile" (builders._stcResourceProfile VALIDATING))
    (modelbuilder.OnValue v) w =
  if VALIDATING then (Raise exc, w)
  else (Ok [CSeq [CNone]], notified (profileReport src exc) w).
Proof.
  intros Hprofile Hsrc Hparse.
  unfold builders.rule. rewrite buildRule_unfold.
  change (modelbuilder.containerMeta (modelbuilder.OnValue v) "profile")
    with (lookupKey "profile" (subMeta v)).
  rewrite Hprofile.
  pose proof (_stcResourceProfile_bad VALIDATING macroPackage src exc [] w Hparse)
    as Hfactory.
  remember (builders._stcResourceProfile VALIDATING) as f eqn:Hf. clear Hf.
  unfold mbind, M_bind, mret, M_ret. simpl.
  rewrite (strEq_false _ _ Hsrc). simpl.
  unfold mbind, M_bind, mret, M_ret. rewrite Hfactory.
  destruct VALIDATING; reflexivity.
Qed.

Lemma coverage_build_strict resob v src psub exc w :
  iterMeta (meta resob) "coverage" true = [v] →
  lookupKey "profile" (subMeta v) = [MV src psub] →
  src ≠ "" →
  parseSTCS src = Raise exc →
  modelbuilder.build (builders._coverageMetaBuilder true) resob w
  = (Raise (modelbuilder.wrapError exc), w).
Proof.
  intros Hcov Hprofile Hsrc Hparse.
  unfold modelbuilder.build. rewrite coverage_rules, _build_cons.
  erewrite M_bind_raise; [reflexivity|].
  rewrite <- (wrapError_idemp exc). apply wrapped_Raise.
  rewrite buildRule_unfold. cbn [modelbuilder.containerMeta]. rewrite Hcov.
  erewrite M_bind_raise; [reflexivity|].
  cbn [mapM]. erewrite M_bind_raise; [reflexivity|].
  erewrite M_bind_raise; [reflexivity|].
  rewrite _build_cons. erewrite M_bind_raise; [reflexivity|].
  apply wrapped_Raise.
  exact (profile_rule true resob v src psub exc w Hprofile Hsrc Hparse).
Qed.

Lemma coverage_build_lenient resob v src psub exc xs w0 w :
  iterMeta (meta resob) "coverage" true = [v] →
  lookupKey "profile" (subMeta v) = [MV src psub] →
  src ≠ "" →
  parseSTCS src = Raise exc →
  (modelbuilder._build resob afterProfile (modelbuilder.OnValue v) w0).1 = Ok xs →
  ∃ content,
    modelbuilder.build (builders._coverageMetaBuilder false) resob w
    = (Ok content, notified (profileReport src exc) w) ∧
    flattenAll content = [inr (coverageWithout v xs)].
Proof.
  intros Hcov Hprofile Hsrc Hparse Hrest.
  pose proof (afterProfile_run _ _ _ _ Hrest) as Hxs.
  assert (Hchildren :
    modelbuilder._build resob
      (builders.rule "profile" (builders._stcResourceProfile false) :: afterProfile)
      (modelbuilder.OnValue v) w
    = (Ok (CSeq [CNone] :: xs), notified (profileReport src exc) w)).
  { rewrite _build_cons.
    erewrite M_bind_run;
      [|apply wrapped_Ok;
        exact (profile_rule false resob v src psub exc w Hprofile Hsrc Hparse)].
    erewrite M_bind_run; [|apply Hxs]. reflexivity. }
  set (content := (if strEq (getContent v) "" then [] else [CStr (getContent v)]) ++
                  [CSeq (CSeq [CNone] :: xs)]).
  assert (Hfactory : ∀ w',
    (match content with
     | [] => mret []
     | _ => x ← modelbuilder.SF VS.coverage [] resob content
                  (modelbuilder.moreAttrs [] v);
            mret [CSeq [x]]
     end : M (list Content)) w'
    = (Ok [CSeq [CElem (addChildren (new VS.coverage) content)]], w')).
  { intros w'. subst content.
    destruct (strEq (getContent v) ""); cbn [app];
      unfold modelbuilder.SF, modelbuilder.moreAttrs; cbn [omap];
      unfold lift; cbn [modelbuilder.asKeywords map]; rewrite call_nil; reflexivity. }
  exists ([CSeq [CElem (addChildren (new VS.coverage) content)]] ++ []).
  split.
  - unfold modelbuilder.build. rewrite coverage_rules, _build_cons.
    erewrite M_bind_run; [reflexivity|].
    apply wrapped_Ok. rewrite buildRule_unfold.
    cbn [modelbuilder.containerMeta]. rewrite Hcov.
    cbn [mapM].
    erewrite M_bind_run.
    2:{ erewrite M_bind_run.
        2:{ erewrite M_bind_run; [|exact Hchildren]. cbv zeta. apply Hfactory. }
        reflexivity. }
    reflexivity.
  - unfold coverageWithout, flattenAll. subst content.
    destruct (strEq (getContent v) ""); cbn [app];
      rewrite !flatten_cons, flatten_nil, !app_nil_r;
      cbn [flatten addChildren addChild new elemChildren app];
      rewrite ?flatten_cons, ?flatten_nil, ?app_nil_r; reflexivity.
Qed.

Lemma getVORMetadataElement_maker VALIDATING resob t self setNames w :
  common.getResType resob = Ok t →
  builders._getResourceMaker t = Ok self →
  builders.getVORMetadataElement VALIDATING resob setNames w
  = builders._makeResource VALIDATING self resob setNames w.
Proof.
  intros Ht Hself. unfold builders.getVORMetadataElement.
  erewrite M_bind_run; [|unfold lift; rewrite Ht; reflexivity].
  erewrite M_bind_run; [|unfold lift; rewrite Hself; reflexivity].
  reflexivity.
Qed.

Lemma fmap_run {A B} (f : A → B) (m : M A) w a w' :
  m w = (Ok a, w') → (f <$> m) w = (Ok (f a), w').
Proof. intros H. unfold fmap, M_fmap. by rewrite (M_bind_run _ _ _ _ _ H). Qed.

Lemma fmap_raise {A B} (f : A → B) (m : M A) w e w' :
  m w = (Raise e, w') → (f <$> m) w = (Raise e, w').
Proof. intros H. unfold fmap, M_fmap. by rewrite (M_bind_raise _ _ _ _ _ H). Qed.

Lemma lift_raise_run {A} (r : Result A) e w : r = Raise e → lift r w = (Raise e, w).
Proof. by intros ->. Qed.

Lemma lift_Ok_run {A} (r : Result A) a w : r = Ok a → lift r w = (Ok a, w).
Proof. by intros ->. Qed.

(** C8: a coverage profile that does not parse, in the document.  For a
    resource with one coverage item, whose profile has text that the
    parser rejects, and whose other coverage rules can be built: without
    validation the profile factory returns nothing and reports an error,
    the coverage builder still returns the coverage element, made of
    what the other rules give and without a profile, and the resource
    document of a data service, a catalogue service, a document, a
    table or a data descriptor is built as far as its other parts can
    be: it is the part before, the organisation metadata, this coverage
    element and the table set, in the world that has the report (a
    failing table set is the only way left to fail).  With validation
    the factory raises the parse error, the coverage builder raises it
    (as the builder's own error if the parse error is not one of the
    meta store's), and so does the build of the document, at the
    coverage step. *)
Theorem bad_coverage_profile (resob : Resob) (v : MetaValue) (src : string)
    (psub : MetaTree) (exc : Exc) (xs : list Content) (t : string)
    (self : builders.ResourceMaker) (setNames : list string) (w : World) :
  iterMeta (meta resob) "coverage" true = [v] →
  lookupKey "profile" (subMeta v) = [MV src psub] →
  src ≠ "" →
  parseSTCS src = Raise exc →
  (modelbuilder._build resob afterProfile (modelbuilder.OnValue v) w).1 = Ok xs →
  common.getResType resob = Ok t →
  builders._getResourceMaker t = Ok self →
  let report := profileReport src exc in
  let document VALIDATING :=
    builders.getVORMetadataElement VALIDATING resob setNames w in
  let extends (doc pre : Element) (more : list (string + Element)) :=
    elemClass doc = elemClass pre ∧ elemAttrs doc = elemAttrs pre ∧
    elemChildren doc = elemChildren pre ++ more in
  builders._stcResourceProfile false resob [CStr src] [] w
    = (Ok CNone, notified report w) ∧
  builders._stcResourceProfile true resob [CStr src] [] w = (Raise exc, w) ∧
  (∀ w0, ∃ content,
     modelbuilder.build (builders._coverageMetaBuilder false) resob w0
       = (Ok content, notified report w0) ∧
     flattenAll content = [inr (coverageWithout v xs)]) ∧
  (∀ w0, modelbuilder.build (builders._coverageMetaBuilder true) resob w0
         = (Raise (modelbuilder.wrapError exc), w0)) ∧
  (∀ pre w1 org w2,
     builders.rm_method self = builders.UseDataServiceResourceMaker ∨
     builders.rm_method self = builders.UseCatalogServiceResourceMaker →
     builders.ServiceResourceMaker_makeResource self resob setNames w = (Ok pre, w1) →
     modelbuilder.build builders._orgMetaBuilder resob w1 = (Ok org, w2) →
     document true = (Raise (modelbuilder.wrapError exc), w2) ∧
     match builders.rm_method self,
           tableset.getTablesetForService resob VS.tableset false with
     | builders.UseCatalogServiceResourceMaker, Raise e =>
         document false = (Raise e, notified report w2)
     | builders.UseCatalogServiceResourceMaker, Ok ts =>
         ∃ doc, document false = (Ok (CElem doc), notified report w2) ∧
           extends doc pre (flattenAll org ++ [inr (coverageWithout v xs); inr ts])
     | _, _ =>
         ∃ doc, document false = (Ok (CElem doc), notified report w2) ∧
           extends doc pre (flattenAll org ++ [inr (coverageWithout v xs)])
     end) ∧
  (∀ pre w1 caps org w2 schemas,
     (builders.rm_method self = builders.UseTableResourceMaker ∧
      ∃ td regs, kind resob = IsTableDef td regs ∧
                 schemas = builders.SchemaLists [(rd resob, [td])]) ∨
     (builders.rm_method self = builders.UseDataResourceMaker ∧
      ∃ tds regs, kind resob = IsDataDescriptor tds regs ∧
                  schemas = builders.SchemaSet (rd resob) tds) →
     builders.ResourceMaker_makeResource self resob setNames w = (Ok pre, w1) →
     builders.capabilitiesFor resob setNames = Ok caps →
     modelbuilder.build builders._orgMetaBuilder resob w1 = (Ok org, w2) →
     document true = (Raise (modelbuilder.wrapError exc), w2) ∧
     match builders._makeTableset schemas with
     | Raise e => document false = (Raise e, notified report w2)
     | Ok ts =>
         ∃ doc, document false = (Ok (CElem doc), notified report w2) ∧
           extends doc pre
             (flatten caps ++ flattenAll org ++ [inr (coverageWithout v xs); inr ts])
     end).
Proof.
  intros Hcov Hprofile Hsrc Hparse Hrest Ht Hself report document extends.
  pose proof (λ w0, coverage_build_strict resob v src psub exc w0
                      Hcov Hprofile Hsrc Hparse) as Hstrict.
  pose proof (λ w0, coverage_build_lenient resob v src psub exc xs w w0
                      Hcov Hprofile Hsrc Hparse Hrest) as Hlenient.
  split; [apply (_stcResourceProfile_bad false); exact Hparse|].
  split; [apply (_stcResourceProfile_bad true); exact Hparse|].
  split; [exact Hlenient|]. split; [exact Hstrict|].
  subst document. cbv beta.
  rewrite !(getVORMetadataElement_maker _ _ _ _ _ _ Ht Hself).
  split.
  - intros pre w1 org w2 Hmethod Hs Horg.
    destruct (Hlenient w2) as (content & Hbuild & Hflat).
    assert (Hdata_strict :
      builders.DataServiceResourceMaker_makeResource true self resob setNames w
      = (Raise (modelbuilder.wrapError exc), w2)).
    { unfold builders.DataServiceResourceMaker_makeResource.
      rewrite (M_bind_run _ _ _ _ _ Hs), (M_bind_run _ _ _ _ _ Horg).
      by rewrite (M_bind_raise _ _ _ _ _ (Hstrict w2)). }
    assert (Hdata_lenient :
      builders.DataServiceResourceMaker_makeResource false self resob setNames w
      = (Ok (addChildren pre [CSeq org; CSeq content]), notified report w2)).
    { unfold builders.DataServiceResourceMaker_makeResource.
      rewrite (M_bind_run _ _ _ _ _ Hs), (M_bind_run _ _ _ _ _ Horg).
      by rewrite (M_bind_run _ _ _ _ _ Hbuild). }
    assert (Hchildren :
      elemChildren (addChildren pre [CSeq org; CSeq content])
      = elemChildren pre ++ flattenAll org ++ [inr (coverageWithout v xs)]).
    { rewrite elemChildren_addChildren, !flatten_cons, flatten_nil, app_nil_r.
      fold (flattenAll org). fold (flattenAll content). by rewrite Hflat. }
    unfold builders._makeResource.
    destruct Hmethod as [Hmethod|Hmethod]; rewrite Hmethod.
    + split; [by apply fmap_raise|].
      assert (Hdoc : ∃ doc,
        (CElem <$> builders.DataServiceResourceMaker_makeResource false self resob
                     setNames) w = (Ok (CElem doc), notified report w2) ∧
        extends doc pre (flattenAll org ++ [inr (coverageWithout v xs)])).
      { eexists. split; [by apply fmap_run|].
        subst extends. cbv beta.
        by rewrite elemClass_addChildren, elemAttrs_addChildren, Hchildren. }
      by destruct (tableset.getTablesetForService resob VS.tableset false).
    + assert (Hcat_strict :
        builders.CatalogServiceResourceMaker_makeResource true self resob setNames w
        = (Raise (modelbuilder.wrapError exc), w2)).
      { unfold builders.CatalogServiceResourceMaker_makeResource.
        by rewrite (M_bind_raise _ _ _ _ _ Hdata_strict). }
      split; [by apply fmap_raise|].
      destruct (tableset.getTablesetForService resob VS.tableset false)
        as [ts|e] eqn:Hts.
      * eexists. split.
        -- apply fmap_run. unfold builders.CatalogServiceResourceMaker_makeResource.
           rewrite (M_bind_run _ _ _ _ _ Hdata_lenient).
           rewrite (M_bind_run _ _ _ _ _ (lift_Ok_run _ _ _ Hts)). reflexivity.
        -- subst extends. cbv beta.
           rewrite elemClass_addChild, elemAttrs_addChild, elemChildren_addChild.
           rewrite elemClass_addChildren, elemAttrs_addChildren, Hchildren.
           split; [done|]. split; [done|].
           cbn [flatten]. by rewrite <- !app_assoc.
      * apply fmap_raise. unfold builders.CatalogServiceResourceMaker_makeResource.
        rewrite (M_bind_run _ _ _ _ _ Hdata_lenient).
        by rewrite (M_bind_raise _ _ _ _ _ (lift_raise_run _ _ _ Hts)).
  - intros pre w1 caps org w2 schemas Hmethod Hpre Hcaps Horg.
    destruct (Hlenient w2) as (content & Hbuild & Hflat).
    assert (Hschemas : ∀ VALIDATING,
      builders._makeResource VALIDATING self resob setNames w
      = (CElem <$> builders._makeResourceForSchemas VALIDATING self resob schemas
                     setNames) w).
    { intros VALIDATING. unfold builders._makeResource.
      destruct Hmethod as [[Hmethod (td & regs & Hkind & ->)]
                          |[Hmethod (tds & regs & Hkind & ->)]];
        by rewrite Hmethod, Hkind. }
    rewrite !Hschemas. split.
    + apply fmap_raise. unfold builders._makeResourceForSchemas.
      rewrite (M_bind_run _ _ _ _ _ Hpre).
      rewrite (M_bind_run _ _ _ _ _ (lift_Ok_run _ _ _ Hcaps)).
      rewrite (M_bind_run _ _ _ _ _ Horg).
      by rewrite (M_bind_raise _ _ _ _ _ (Hstrict w2)).
    + destruct (builders._makeTableset schemas) as [ts|e] eqn:Hts.
      * eexists. split.
        -- apply fmap_run. unfold builders._makeResourceForSchemas.
           rewrite (M_bind_run _ _ _ _ _ Hpre).
           rewrite (M_bind_run _ _ _ _ _ (lift_Ok_run _ _ _ Hcaps)).
           rewrite (M_bind_run _ _ _ _ _ Horg).
           rewrite (M_bind_run _ _ _ _ _ Hbuild).
           rewrite (M_bind_run _ _ _ _ _ (lift_Ok_run _ _ _ Hts)). reflexivity.
        -- subst extends. cbv beta.
           rewrite elemClass_addChildren, elemAttrs_addChildren,
             elemChildren_addChildren.
           split; [done|]. split; [done|].
           rewrite !flatten_cons, flatten_nil, app_nil_r.
           fold (flattenAll org). fold (flattenAll content). rewrite Hflat.
           reflexivity.
      * apply fmap_raise. unfold builders._makeResourceForSchemas.
        rewrite (M_bind_run _ _ _ _ _ Hpre).
        rewrite (M_bind_run _ _ _ _ _ (lift_Ok_run _ _ _ Hcaps)).
        rewrite (M_bind_run _ _ _ _ _ Horg).
        rewrite (M_bind_run _ _ _ _ _ Hbuild).
        by rewrite (M_bind_raise _ _ _ _ _ (lift_raise_run _ _ _ Hts)).
Qed.

End CoverageProfile.

(** * Instances on the sample installation *)

Lemma getTablesetForService_empty_witness :
  kind sample.emptyService = IsService [] ∧
  ∃ ts,
    tableset.getTablesetForService (E := sample.installation) sample.emptyService VS.tableset false
      = Ok ts ∧
    elemClass ts = VS.tableset ∧
    elemAttrs ts = ec_declared VS.tableset ∧
    elemChildren ts =
      [inr (Elem VS.schema [] [inr (Elem VS.name [] [inl "default"])])] ∧
    (ec_emptyRule VS.tableset = StdEmpty → isEmpty ts = false).
Proof.
  split; [reflexivity|].
  apply (getTablesetForService_empty (E := sample.installation)). left. reflexivity.
Defined.

Lemma resolvers_default_witness :
  auxiliary sample.imagesUnknown = false ∧
  capabilities.capabilityRegistry !! Some (render sample.imagesUnknown) = None ∧
  capabilities._getInterfaceMaker (render sample.imagesUnknown)
    = Ok capabilities.InterfaceWithParams ∧
  ∃ msg,
    capabilities.getCapabilityElement (E := sample.installation) sample.imagesUnknown
      = Raise (ReportableError msg).
Proof.
  destruct (resolvers_default (E := sample.installation) sample.imagesUnknown eq_refl)
    as [(maker & Hmaker & Hdefault) Hcap].
  assert (Hnone : capabilities.capabilityRegistry !! Some (render sample.imagesUnknown) = None)
    by (vm_compute; reflexivity).
  split; [reflexivity|]. split; [exact Hnone|]. split.
  - rewrite Hmaker. f_equal. apply Hdefault. vm_compute. reflexivity.
  - apply (Hcap Hnone).
Defined.

Lemma auxiliary_rule_witness :
  (auxiliary sample.imagesSIA = true ∧
   capabilities._getCapabilityMaker (render sample.imagesSIA) = Ok capabilities.SIACapabilityMaker ∧
   ∃ cap description interface,
     capabilities.getCapabilityElement (E := sample.installation) sample.imagesSIA = Ok (Some cap) ∧
     elemClass cap = VOR.capability ∧
     getAttr "standardID" cap = Some "ivo://ivoa.net/std/SIA#aux" ∧
     elemChildren cap = [inr description; inr interface] ∧
     elemClass description = VOR.description ∧
     elemName interface = "interface") ∧
  (auxiliary sample.imagesForm = true ∧
   capabilities._getCapabilityMaker (render sample.imagesForm) = Ok capabilities.FormCapabilityMaker ∧
   capabilities.getCapabilityElement (E := sample.installation) sample.imagesForm = Ok None).
Proof.
  split.
  - assert (Hmaker : capabilities._getCapabilityMaker (render sample.imagesSIA)
                     = Ok capabilities.SIACapabilityMaker) by (vm_compute; reflexivity).
    pose proof (auxiliary_rule (E := sample.installation) sample.imagesSIA
                  capabilities.SIACapabilityMaker eq_refl Hmaker) as Hrule.
    simpl in Hrule.
    destruct (capabilities._makeCapability (E := sample.installation)
                capabilities.CapabilityMaker_ sample.imagesSIA) as [plain|exc] eqn:Hplain;
      [|revert Hplain; vm_compute; discriminate].
    destruct (Hrule plain eq_refl)
      as (cap & description & interface & Hcap & Hc & _ & Hid & Hch & Hd & Hi & _).
    split; [reflexivity|]. split; [exact Hmaker|].
    exists cap, description, interface. auto 10.
  - assert (Hmaker : capabilities._getCapabilityMaker (render sample.imagesForm)
                     = Ok capabilities.FormCapabilityMaker) by (vm_compute; reflexivity).
    split; [reflexivity|]. split; [exact Hmaker|].
    exact (auxiliary_rule (E := sample.installation) sample.imagesForm
             capabilities.FormCapabilityMaker eq_refl Hmaker).
Defined.

(** The sample protocol switch never returns the URL it was given. *)
Lemma sample_switch_changes url alternative :
  sample.switch url = Ok alternative → Some alternative ≠ url.
Proof.
  destruct url as [u|]; [|discriminate]. unfold sample.switch.
  destruct (startswith "http://dc.example.org" u) eqn:Hhttp.
  - intros H. apply Ok_inj in H as <-. intros [= Heq].
    unfold startswith in Hhttp.
    do 5 (destruct u as [|? u]; [discriminate|]; cbn [String.prefix] in Hhttp;
          destruct (ascii_dec _ _) as [<-|]; [|discriminate]).
    discriminate Heq.
  - destruct (startswith "https://dc.example.org" u) eqn:Hhttps; [|discriminate].
    intros H. apply Ok_inj in H as <-. intros [= Heq].
    unfold startswith in Hhttps.
    do 5 (destruct u as [|? u]; [discriminate|]; cbn [String.prefix] in Hhttps;
          destruct (ascii_dec _ _) as [<-|]; [|discriminate]).
    discriminate Heq.
Qed.

Lemma mirrorURL_never_accessURL_witness :
  (registerAlternative (Externals := sample.installation) = true →
   ∀ url alternative,
     switchProtocol (Externals := sample.installation) url = Ok alternative →
     Some alternative ≠ url) ∧
  ∃ interface,
    capabilities._makeInterface (E := sample.installation) capabilities.SSAPInterface sample.spectraSSA
      = Ok interface ∧
    accessURLValues interface = ["http://dc.example.org/ssap?"] ∧
    mirrorURLValues interface
      = ["http://mirror.example.org/ssap?"; "https://dc.example.org/ssap?"] ∧
    ∀ m, m ∈ mirrorURLValues interface → m ∉ accessURLValues interface.
Proof.
  assert (Hswitch : registerAlternative (Externals := sample.installation) = true →
            ∀ url alternative,
              switchProtocol (Externals := sample.installation) url = Ok alternative →
              Some alternative ≠ url).
  { intros _ url alternative. apply sample_switch_changes. }
  split; [exact Hswitch|].
  destruct (capabilities._makeInterface (E := sample.installation) capabilities.SSAPInterface
              sample.spectraSSA) as [interface|exc] eqn:Hmake;
    [|revert Hmake; vm_compute; discriminate].
  exists interface. split; [reflexivity|].
  split; [revert Hmake; vm_compute; intros [= <-]; reflexivity|].
  split; [revert Hmake; vm_compute; intros [= <-]; reflexivity|].
  exact (mirrorURL_never_accessURL (E := sample.installation) capabilities.SSAPInterface
           sample.spectraSSA interface Hswitch Hmake).
Defined.

Lemma iterSvcRecs_no_publications_witness :
  publications sample.emptyService = [] ∧
  publication.iterSvcRecs (E := sample.installation) false sample.emptyService false sample.world0
    = (Ok tt, sample.world0).
Proof.
  split; [reflexivity|].
  apply (iterSvcRecs_no_publications (E := sample.installation)). reflexivity.
Defined.

Lemma bad_coverage_profile_witness :
  iterMeta (meta sample.spectra) "coverage" true = [sample.badCoverage] ∧
  lookupKey "profile" (subMeta sample.badCoverage) = [MV "garbage" []] ∧
  "garbage" ≠ "" ∧
  parseSTCS (Externals := sample.installation) "garbage"
    = Raise (OtherException "Expected coordinate phrase in garbage") ∧
  common.getResType sample.spectra = Ok "catalogService" ∧
  ∃ pre w1 org ts,
    builders.ServiceResourceMaker_makeResource (E := sample.installation)
      builders.CatalogServiceResourceMaker sample.spectra ["ivo_managed"] sample.world0
      = (Ok pre, w1) ∧
    modelbuilder.build builders._orgMetaBuilder sample.spectra w1 = (Ok org, w1) ∧
    tableset.getTablesetForService (E := sample.installation) sample.spectra
      VS.tableset false = Ok ts ∧
    (∃ doc w',
       builders.getVORMetadataElement (E := sample.installation) false sample.spectra
         ["ivo_managed"] sample.world0 = (Ok (CElem doc), w') ∧
       sink w' = [profileReport "garbage"
                    (OtherException "Expected coordinate phrase in garbage")] ∧
       elemChildren doc
       = elemChildren pre ++ flattenAll org ++
         [inr (Elem VS.coverage [] [inr (Elem VS.waveband [] [inl "Optical"])]);
          inr ts]) ∧
    builders.getVORMetadataElement (E := sample.installation) true sample.spectra
      ["ivo_managed"] sample.world0
    = (Raise (ReportableError "Invalid constructor func"), w1).
Proof.
  pose (X := sample.installation).
  assert (Hne : "garbage" ≠ "") by discriminate.
  assert (Hrest : ∃ xs,
    (modelbuilder._build sample.spectra (afterProfile (E := X))
       (modelbuilder.OnValue sample.badCoverage) sample.world0).1 = Ok xs ∧
    coverageWithout sample.badCoverage xs
    = Elem VS.coverage [] [inr (Elem VS.waveband [] [inl "Optical"])]).
  { eexists. split; vm_compute; reflexivity. }
  destruct Hrest as (xs & Hrest & Hcoverage).
  assert (Hpre : ∃ pre w1 org,
    builders.ServiceResourceMaker_makeResource (E := X)
      builders.CatalogServiceResourceMaker sample.spectra ["ivo_managed"] sample.world0
      = (Ok pre, w1) ∧
    modelbuilder.build builders._orgMetaBuilder sample.spectra w1 = (Ok org, w1) ∧
    sink w1 = []).
  { eexists _, _, _. split; [vm_compute; reflexivity|].
    split; vm_compute; reflexivity. }
  destruct Hpre as (pre & w1 & org & Hpre & Horg & Hsink).
  destruct (tableset.getTablesetForService (E := X) sample.spectra VS.tableset false)
    as [ts|e] eqn:Hts; [|revert Hts; vm_compute; discriminate].
  destruct (bad_coverage_profile (E := X) sample.spectra sample.badCoverage "garbage" []
              (OtherException "Expected coordinate phrase in garbage") xs
              "catalogService" builders.CatalogServiceResourceMaker ["ivo_managed"]
              sample.world0 eq_refl eq_refl Hne eq_refl Hrest eq_refl eq_refl)
    as (_ & _ & _ & _ & Hservice & _).
  destruct (Hservice pre w1 org w1 (or_intror eq_refl) Hpre Horg) as [Hstrict Hlenient].
  cbn [builders.rm_method builders.CatalogServiceResourceMaker] in Hlenient.
  rewrite Hts in Hlenient.
  destruct Hlenient as (doc & Hdoc & _ & _ & Hchildren).
  split; [reflexivity|]. split; [reflexivity|]. split; [exact Hne|].
  split; [reflexivity|]. split; [reflexivity|].
  exists pre, w1, org, ts.
  split; [exact Hpre|]. split; [exact Horg|]. split; [exact Hts|].
  split; [|exact Hstrict].
  eexists doc, _. split; [exact Hdoc|]. split.
  - cbn [sink notified]. rewrite Hsink. reflexivity.
  - rewrite Hchildren, Hcoverage. reflexivity.
Defined.

Lemma catalog_extends_service_witness :
  common.getResType sample.spectra = Ok "catalogService" ∧
  ∃ doc sdoc ts,
    (builders.getVORMetadataElement (E := sample.installation) false sample.spectra ["ivo_managed"]
       sample.world0).1 = Ok (CElem doc) ∧
    (builders._makeResource (E := sample.installation) false builders.ServiceResourceMaker
       sample.spectra ["ivo_managed"] sample.world0).1 = Ok (CElem sdoc) ∧
    map elemName (childElements sdoc)
      = ["validationLevel"; "title"; "shortName"; "identifier"; "curation"; "content";
         "capability"] ∧
    elemChildren doc
      = elemChildren sdoc ++ [inr (Elem VS.coverage [] [inr (Elem VS.waveband [] [inl "Optical"])]);
                              inr ts] ∧
    elemName ts = "tableset".
Proof.
  split; [reflexivity|].
  destruct (builders.getVORMetadataElement (E := sample.installation) false sample.spectra
              ["ivo_managed"] sample.world0) as [[content|exc] w'] eqn:Hbuild;
    [|revert Hbuild; vm_compute; discriminate].
  destruct (catalog_extends_service (E := sample.installation) false sample.spectra ["ivo_managed"]
              sample.world0 w' content eq_refl Hbuild)
    as (doc & sdoc & w1 & org & w2 & coverage & ts & -> & Hs & Horg & Hcov & Hts & Hch & _).
  exists doc, sdoc, ts. split; [reflexivity|]. split; [by rewrite Hs|].
  split; [revert Hs; vm_compute; intros [= <- <-]; reflexivity|].
  split.
  - rewrite Hch. f_equal.
    assert (Ho : flattenAll org = []).
    { assert (org = []) as ->; [|reflexivity].
      revert Horg. revert Hs. vm_compute. intros [= <- <-] [= <- <-]. reflexivity. }
    rewrite Ho. simpl. f_equal.
    revert Hcov. revert Horg. revert Hs. vm_compute.
    intros [= <- <-] [= <- <-] [= <- <-]. reflexivity.
  - revert Hts. vm_compute. intros [= <-]. reflexivity.
Defined.

(** Against C5 as stated: a resource record without publications, whose
    authority is managed, gets a resource row and a set row from
    [iterResRecs]. *)
Lemma iterResRecs_without_publications :
  publications sample.organisation = [] ∧
  tables (emitted (publication.iterResRecs (E := sample.installation)
                     false sample.organisation false sample.world0).2)
    = ["resources"; "sets"; "subjects"; "authors"; "authors"].
Proof. split; vm_compute; reflexivity. Qed.



(** ** Further runs on the sample installation *)

(** Five resource objects, the third of which lacks a mandatory meta
    item: the list has the four other records, and the sink has the
    report on the third (after the report on the first one's coverage
    profile, which does not cost it its record). *)
Example five_records_third_fails :
  let resobs := map builders.FromResob
    [sample.spectra; sample.organisation; sample.brokenSpectra;
     sample.emptyService; sample.foreignService] in
  let run := builders.getVOListRecordsElement (E := sample.installation)
               false resobs ["ivo_managed"] sample.world0 in
  (∃ list, run.1 = Ok list ∧ elemClass list = OAI.ListRecords ∧
     map elemName (childElements list) = ["record"; "record"; "record"; "record"]) ∧
  sink run.2 =
    [NotifyError "Coverage profile '['garbage']' bad while generating  registry (Expected coordinate phrase in garbage).  It is left out.";
     NotifyError "Cannot create registry record for lspec/q#broken because mandatory meta No meta item ssap.dataSource is missing"].
Proof. vm_compute. split; [eexists; repeat split|reflexivity]. Qed.

(** A resource record's [getTableSet] is a generator, which is never
    false: the early return to the default schema is not taken, and a
    resource record without tables gets a table set without schemas. *)
Example getTablesetForService_resource_record :
  tableset.getTablesetForService (E := sample.installation)
    sample.organisation VS.tableset false = Ok (Elem VS.tableset [] []).
Proof. reflexivity. Qed.

(** The data resource maker passes the tables of a descriptor as a set.
    For a descriptor in the schema [ivoa] with a table published through
    obscore and without the obscore table, the table set cannot be made:
    a set has no [append].  The same pair with a list of tables, as the
    table resource maker passes it, gets the obscore stand-in. *)
Example data_descriptor_in_ivoa :
  let descriptor := mkRD "obs/q" "ivoa" (mkMetaStore [] []) in
  let observations :=
    mkTableDef (Some descriptor) "ivoa.Observations" false [] [] None AdqlTrue true
      (mkMetaStore [] []) in
  tableset.getTablesetForSchemaSet (E := sample.installation) descriptor
    [observations] VS.tableset false
  = Raise (AttributeError "'set' object has no attribute 'append'") ∧
  ∃ ts,
    tableset.getTablesetForSchemaCollection (E := sample.installation)
      [(descriptor, [observations])] VS.tableset false = Ok ts ∧
    tableNames ts = ["ivoa.observations"; "ivoa.obscore"].
Proof. split; [reflexivity|]. eexists. split; vm_compute; reflexivity. Qed.

(** ** Instances of the further properties *)

Lemma column_flags_witness :
  ∃ e,
    tableset.getTableColumnFromColumn (E := sample.installation) sample.lineId
      (tableset.voTableDataTypeFactory (E := sample.installation)) = Ok e ∧
    flagsOf e = ["indexed"; "primary"] ∧
    ("primary" ∈ flagsOf e ↔ col_isPrimary sample.lineId = true) ∧
    NoDup (flagsOf e).
Proof.
  destruct (tableset.getTableColumnFromColumn (E := sample.installation) sample.lineId
              (tableset.voTableDataTypeFactory (E := sample.installation)))
    as [e|exc] eqn:Hcol; [|revert Hcol; vm_compute; discriminate].
  destruct (column_flags (E := sample.installation) sample.lineId e Hcol)
    as (_ & Hprimary & _ & _ & Hnodup).
  exists e. split; [reflexivity|].
  split; [revert Hcol; vm_compute; intros [= <-]; reflexivity|].
  split; [exact Hprimary|exact Hnodup].
Defined.

Lemma hidden_columns_not_exposed_witness :
  ∃ e,
    tableset.getTableForTableDef (E := sample.installation) sample.lines
      (list_to_set ["lspec.lines"; "lspec.sources"]) VS.table false = Ok e ∧
    nameOf e = ["lspec.lines"] ∧
    columnNames e = ["line_id"; "Wavelength"] ∧
    getAttr "type" e ≠ Some "output".
Proof.
  destruct (tableset.getTableForTableDef (E := sample.installation) sample.lines
              (list_to_set ["lspec.lines"; "lspec.sources"]) VS.table false)
    as [e|exc] eqn:Htable; [|revert Htable; vm_compute; discriminate].
  destruct (hidden_columns_not_exposed (E := sample.installation) sample.lines _ _ _ e Htable)
    as (Hname & Hcolumns & _ & Htype).
  exists e. split; [reflexivity|].
  split; [rewrite Hname; reflexivity|].
  split; [rewrite Hcolumns; reflexivity|].
  intros Houtput. apply Htype in Houtput. revert Houtput. vm_compute. discriminate.
Defined.

Lemma foreign_keys_stay_inside_witness :
  ∃ ts,
    tableset.getTablesetForSchemaCollection (E := sample.installation)
      [(sample.theRD, [sample.lines; sample.sources])] VS.tableset false = Ok ts ∧
    tableNames ts = ["lspec.lines"; "lspec.sources"] ∧
    foreignKeyTargets ts = ["lspec.sources"] ∧
    ∀ target, target ∈ foreignKeyTargets ts → target ∈ tableNames ts.
Proof.
  destruct (tableset.getTablesetForSchemaCollection (E := sample.installation)
              [(sample.theRD, [sample.lines; sample.sources])] VS.tableset false)
    as [ts|exc] eqn:Hts; [|revert Hts; vm_compute; discriminate].
  exists ts. split; [reflexivity|].
  split; [revert Hts; vm_compute; intros [= <-]; reflexivity|].
  split; [revert Hts; vm_compute; intros [= <-]; reflexivity|].
  exact (foreign_keys_stay_inside (E := sample.installation) _ _ _ ts Hts).
Defined.

Lemma tableset_schemas_witness :
  ∃ ts,
    tableset.getTablesetForService (E := sample.installation) sample.catalogue
      VS.tableset false = Ok ts ∧
    schemaNames ts = ["arch"; "lspec"] ∧
    NoDup (schemaNames ts) ∧
    sorted_strings (schemaNames ts) ∧
    tableNames ts ≡ₚ ["lspec.lines"; "arch.plates"; "lspec.sources"].
Proof.
  destruct (tableset.getTablesetForService (E := sample.installation) sample.catalogue
              VS.tableset false) as [ts|exc] eqn:Hts;
    [|revert Hts; vm_compute; discriminate].
  destruct (tableset_schemas (E := sample.installation) sample.catalogue VS.tableset false
              [sample.lines; sample.plates; sample.sources] true ts
              eq_refl eq_refl eq_refl Hts) as (Hnodup & Hsorted & _ & Htables).
  exists ts. split; [reflexivity|].
  split; [revert Hts; vm_compute; intros [= <-]; reflexivity|].
  split; [exact Hnodup|]. split; [exact Hsorted|exact Htables].
Defined.

Lemma obscore_added_once_witness :
  schema (obscoreRD (Externals := sample.installation)) = "ivoa" ∧
  map (λ s : RD * list TableDef, schema s.1)
    (tableset.addObscore (E := sample.installation) [(sample.theRD, [sample.lines])])
  = ["lspec"; "ivoa"] ∧
  tableset.addObscore (E := sample.installation)
    (tableset.addObscore (E := sample.installation) [(sample.theRD, [sample.lines])])
  = tableset.addObscore (E := sample.installation) [(sample.theRD, [sample.lines])].
Proof.
  destruct (obscore_added_once (E := sample.installation)
              [(sample.theRD, [sample.lines])] eq_refl) as (_ & Hagain & _).
  split; [reflexivity|]. split; [reflexivity|exact Hagain].
Defined.

Lemma rewrite_keeps_terminator_witness :
  longToShort (Externals := sample.installation)
    !! dropFirst (path (urlparse (Externals := sample.installation)
                          "http://dc.example.org/lspec/q/ssa/ssap.xml?"))
  = Some "ssap" ∧
  lastChar "http://dc.example.org/lspec/q/ssa/ssap.xml?" = Ok "?" ∧
  capabilities.rewriteAccessURL (E := sample.installation)
    (Some "http://dc.example.org/lspec/q/ssa/ssap.xml?")
  = Ok (Some "http://dc.example.org/ssap?") ∧
  ∃ r, capabilities.rewriteAccessURL (E := sample.installation)
         (Some "http://dc.example.org/lspec/q/ssa/ssap.xml?") = Ok (Some r) ∧
       lastChar r = Ok "?".
Proof.
  assert (Hshort : longToShort (Externals := sample.installation)
            !! dropFirst (path (urlparse (Externals := sample.installation)
                                  "http://dc.example.org/lspec/q/ssa/ssap.xml?"))
            = Some "ssap") by (vm_compute; reflexivity).
  assert (Hlast : lastChar "http://dc.example.org/lspec/q/ssa/ssap.xml?" = Ok "?")
    by reflexivity.
  pose proof (rewrite_keeps_terminator (E := sample.installation)
                "http://dc.example.org/lspec/q/ssa/ssap.xml?" "ssap" "?" Hshort Hlast)
    as Hrewrite.
  cbv zeta in Hrewrite. destruct Hrewrite as [Hurl Hkept].
  split; [exact Hshort|]. split; [exact Hlast|].
  split; [rewrite Hurl; vm_compute; reflexivity|].
  apply Hkept. by left.
Defined.

Lemma TAP_capability_interfaces_witness :
  ∃ content tap,
    capabilities.TAPCapabilityMaker_getInterfaceElement (E := sample.installation)
      sample.catalogueTAP = Ok content ∧
    flatten content = [inr tap] ∧
    elemClass tap = TR.interface ∧
    getAttr "version" tap = Some "1.1".
Proof.
  destruct (capabilities.TAPCapabilityMaker_getInterfaceElement (E := sample.installation)
              sample.catalogueTAP) as [content|exc] eqn:Hcontent;
    [|revert Hcontent; vm_compute; discriminate].
  destruct (TAP_capability_interfaces (E := sample.installation) sample.catalogueTAP
              content Hcontent) as (tap & rest & Hflat & Hclass & Hversion & Hrest).
  vm_compute in Hrest. subst rest.
  exists content, tap. split; [reflexivity|]. split; [exact Hflat|].
  split; [exact Hclass|exact Hversion].
Defined.

Lemma SSA_mandatory_metadata_witness :
  ∃ plain cap,
    capabilities.CapabilityMaker_makeCapability (E := sample.installation)
      capabilities.SSACapabilityMaker sample.spectraSSA = Ok plain ∧
    capabilities._makeCapability (E := sample.installation)
      capabilities.SSACapabilityMaker sample.spectraSSA = Ok cap ∧
    elemClass cap = SSAP.capability ∧
    valuesNamed "dataSource" (elemChildren cap) = ["theory"] ∧
    valuesNamed "complianceLevel" (elemChildren cap) = ["minimal"] ∧
    valuesNamed "creationType" (elemChildren cap) = ["archival"] ∧
    valuesNamed "maxRecords" (elemChildren cap) = ["10000000"] ∧
    valuesNamed "defaultMaxRecords" (elemChildren cap) = ["10000"].
Proof.
  destruct (capabilities.CapabilityMaker_makeCapability (E := sample.installation)
              capabilities.SSACapabilityMaker sample.spectraSSA)
    as [plain|exc] eqn:Hplain; [|revert Hplain; vm_compute; discriminate].
  pose proof (SSA_mandatory_metadata (E := sample.installation) sample.spectraSSA
                plain Hplain) as Hssa.
  cbv zeta in Hssa.
  assert (Hsource : getMeta (meta (parent sample.spectraSSA)) "ssap.dataSource" true
                    = Some [MV "theory" []]) by reflexivity.
  assert (Hquery : getMeta (meta (parent sample.spectraSSA)) "ssap.testQuery" true
                   = Some [MV "MAXREC=1" []]) by reflexivity.
  rewrite Hsource, Hquery in Hssa.
  destruct Hssa as (cap & Hcap & Hclass & Hds & Hcl & Hct & Hmax & Hdefault).
  exists plain, cap. split; [reflexivity|]. split; [exact Hcap|].
  split; [exact Hclass|]. split; [exact Hds|]. split; [exact Hcl|].
  split; [exact Hct|]. split; [exact Hmax|exact Hdefault].
Defined.

Lemma SIA_mandatory_metadata_witness :
  ∃ plain cap,
    capabilities.CapabilityMaker_makeCapability (E := sample.installation)
      capabilities.SIACapabilityMaker sample.catalogueSIA = Ok plain ∧
    capabilities._makeCapability (E := sample.installation)
      capabilities.SIACapabilityMaker sample.catalogueSIA = Ok cap ∧
    valuesNamed "imageServiceType" (elemChildren cap) = ["Cutout"] ∧
    valuesNamed "maxRecords" (elemChildren cap) = ["10000000"] ∧
    valuesNamed "maxFileSize" (elemChildren cap) = ["3000000"].
Proof.
  destruct (capabilities.CapabilityMaker_makeCapability (E := sample.installation)
              capabilities.SIACapabilityMaker sample.catalogueSIA)
    as [plain|exc] eqn:Hplain; [|revert Hplain; vm_compute; discriminate].
  pose proof (SIA_mandatory_metadata (E := sample.installation)
                capabilities.SIACapabilityMaker sample.catalogueSIA plain
                eq_refl Hplain) as Hsia.
  cbv zeta in Hsia.
  assert (Htype : getMeta (meta (parent sample.catalogueSIA)) "sia.type" true
                  = Some [MV "Cutout" []]) by reflexivity.
  rewrite Htype in Hsia.
  destruct Hsia as (cap & Hcap & _ & Hist & Hmax & Hsize).
  exists plain, cap. split; [reflexivity|]. split; [exact Hcap|].
  split; [exact Hist|]. split; [exact Hmax|exact Hsize].
Defined.

Lemma input_params_follow_keys_witness :
  getRenderer (Externals := sample.installation) (render sample.catalogueSIA)
    = Ok (mkRenderer "siap.xml" "dali") ∧
  map col_name (sample.inputKeys sample.catalogue) = ["POS"; "line"; "spectrum"] ∧
  ∃ inputParams,
    capabilities.getInputParams (E := sample.installation) sample.catalogueSIA
      sample.catalogue = Ok inputParams ∧
    flat_map nameOf inputParams = ["POS"; "line"; "UPLOAD"] ∧
    map (getAttr "std") inputParams = [Some "true"; Some "false"; Some "true"] ∧
    Forall (λ p, elemName p = "param" ∧
                 (getAttr "std" p = Some "true" ∨ getAttr "std" p = Some "false"))
      inputParams.
Proof.
  destruct (capabilities.getInputParams (E := sample.installation) sample.catalogueSIA
              sample.catalogue) as [inputParams|exc] eqn:Hparams;
    [|revert Hparams; vm_compute; discriminate].
  pose proof (input_params_follow_keys (E := sample.installation) sample.catalogueSIA
                sample.catalogue (mkRenderer "siap.xml" "dali") inputParams
                eq_refl Hparams) as Hkeys.
  assert (Hinput : getInputKeysFor (Externals := sample.installation) sample.catalogue
                     (mkRenderer "siap.xml" "dali")
                   = Some (sample.inputKeys sample.catalogue)) by reflexivity.
  rewrite Hinput in Hkeys. destruct Hkeys as [Hnames Hall].
  split; [reflexivity|]. split; [reflexivity|].
  exists inputParams. split; [reflexivity|].
  split; [rewrite Hnames; reflexivity|].
  split; [revert Hparams; vm_compute; intros [= <-]; reflexivity|exact Hall].
Defined.

Lemma record_header_witness :
  ∃ metadata w',
    builders.getDCMetadataElement sample.spectra
      ["ivo_managed"] sample.world0 = (Ok metadata, w') ∧
    builders.getResourceElement
      (builders.FromResob sample.spectra) ["ivo_managed"]
      builders.getDCMetadataElement sample.world0
    = (Ok (Elem OAI.record []
             [inr (Elem OAI.header [("status", None)]
                     (map inr (headerChildren sample.spectra)));
              inr (Elem OAI.metadata [] (flatten metadata))]), w') ∧
    map elemName (headerChildren sample.spectra) = ["identifier"; "datestamp"].
Proof.
  destruct (builders.getDCMetadataElement sample.spectra
              ["ivo_managed"] sample.world0) as [[metadata|exc] w'] eqn:Hmeta;
    [|revert Hmeta; vm_compute; discriminate].
  exists metadata, w'. split; [reflexivity|].
  split; [|reflexivity].
  exact (record_header sample.spectra ["ivo_managed"]
           builders.getDCMetadataElement
           (Some "active") sample.world0 w' metadata eq_refl Hmeta).
Defined.

Lemma resource_documents_are_ri_witness :
  ∃ doc w',
    builders.getVORMetadataElement (E := sample.installation) false sample.spectra
      ["ivo_managed"] sample.world0 = (Ok (CElem doc), w') ∧
    ec_prefix (elemClass doc) = "ri" ∧
    elemName doc = "Resource" ∧
    getAttr "status" doc = Some "active".
Proof.
  destruct (builders.getVORMetadataElement (E := sample.installation) false sample.spectra
              ["ivo_managed"] sample.world0) as [[content|exc] w'] eqn:Hbuild;
    [|revert Hbuild; vm_compute; discriminate].
  destruct (resource_documents_are_ri (E := sample.installation) false sample.spectra
              ["ivo_managed"] sample.world0 w' content Hbuild)
    as [(Hdeleted & _)|(doc & -> & Hprefix & Hname & _ & _ & Hstatus)];
    [revert Hdeleted; vm_compute; discriminate|].
  exists doc, w'. split; [reflexivity|]. split; [exact Hprefix|].
  split; [exact Hname|].
  change (Ok (getAttr "status" doc) = Ok (Some "active")) in Hstatus.
  by apply Ok_inj in Hstatus.
Defined.

Lemma data_set_rows_witness :
  getMetaText (meta sample.catalogue) "referenceURL" None true
    = Ok (Some "http://dc.example.org/lspec/q/cat/info") ∧
  publication.iterDataSets sample.catalogue ∅ ["ivo_managed"; "local"] sample.world0
  = (Ok tt,
     emit [dataSetRow ∅ "ivo_managed"; dataSetRow ∅ "local";
           tapinfoRow ∅ (Some "http://dc.example.org/lspec/q/cat/info")]
       sample.world0).
Proof.
  split; [reflexivity|].
  exact (data_set_rows sample.catalogue ∅ ["ivo_managed"; "local"]
           (Some "http://dc.example.org/lspec/q/cat/info") sample.world0 eq_refl).
Defined.
